(** * Eco-score calculator (runEcoScore.js): a shallow embedding and its properties

    The script audits a list of web sites and aggregates four signals
    (lighthouse performance, lighthouse SEO, estimated CO2 per page view and
    first-contentful-paint time) into one score between 0 and 100.

    JavaScript numbers are IEEE-754 binary64 values.  A number is modelled by
    its exact rational value, with [NaN] and the two infinities added, and
    every arithmetic operation is the exact rational operation followed by
    rounding to the nearest binary64 value, ties to even, with overflow to an
    infinity, as IEEE-754 prescribes.  The sign of zero is not represented:
    the script never divides by a zero and never inspects its sign.  The
    properties are proved for every rational input, hence for every binary64
    input; the examples use inputs that are binary64 values.

    The libraries and services the script calls (puppeteer, lighthouse, the
    green-hosting directory, DNS, the geolocation service, the CO2 estimator,
    the file system) are parameters of the embedding: a record of functions
    over an abstract state of the outside world, each of which may throw.
    The output stream is part of the state of the script: what was handed to
    it, whether it was ended, and the 'error' event it emits when its file
    cannot be opened or written, which ends the process since the script does
    not listen to it. *)

From Stdlib Require Import ZArith QArith Qround Qpower Qreduction Qcanon.
From Stdlib Require Import Lia Lqa Bool List String Ascii.
Import ListNotations.

Local Close Scope Qc_scope.
Local Open Scope Q_scope.

(** ** Binary64 arithmetic *)

Module Num.

Inductive number : Type :=
| NaN
| PInf
| NInf
| Fin (q : Q).

Definition pow2 (e : Z) : Q := 2 ^ e.

(** [ilog2 q] is the integer [e] with [2^e <= q < 2^(e+1)], for [q > 0]. *)
Definition ilog2 (q : Q) : Z :=
  let l := (Z.log2 (Qnum q) - Z.log2 (Zpos (Qden q)))%Z in
  if Qle_bool (pow2 l) q then l else (l - 1)%Z.

(** Rounding of a rational to the nearest integer, ties to the even one. *)
Definition rne (x : Q) : Z :=
  let k := Qfloor x in
  match Qcompare (x - inject_Z k) (1 # 2) with
  | Lt => k
  | Gt => (k + 1)%Z
  | Eq => if Z.even k then k else (k + 1)%Z
  end.

(** Exponent of the unit in the last place: 53 bits of precision, and the
    subnormal spacing [2^-1074] at the bottom of the range. *)
Definition ulp_exp (q : Q) : Z := Z.max (ilog2 q - 52) (-1074).

Definition round_pos (q : Q) : Q :=
  let ex := ulp_exp q in inject_Z (rne (q / pow2 ex)) * pow2 ex.

(** Rounding to binary64; a result of magnitude [2^1024] or more overflows. *)
Definition round64 (q : Q) : number :=
  match Qcompare q 0 with
  | Eq => Fin 0
  | Gt => let r := round_pos q in
          if Qle_bool (pow2 1024) r then PInf else Fin (Qred r)
  | Lt => let r := round_pos (- q) in
          if Qle_bool (pow2 1024) r then NInf else Fin (Qred (- r))
  end.

(** A decimal literal of the source denotes the nearest binary64 value. *)
Definition lit (q : Q) : number := round64 q.

Definition inf_of_sign (c : comparison) : number :=
  match c with Eq => NaN | Gt => PInf | Lt => NInf end.

Definition flip (c : comparison) : comparison := CompOpp c.

(** [a * b] *)
Definition fmul (a b : number) : number :=
  match a, b with
  | NaN, _ | _, NaN => NaN
  | Fin p, Fin q => round64 (p * q)
  | Fin p, PInf | PInf, Fin p => inf_of_sign (Qcompare p 0)
  | Fin p, NInf | NInf, Fin p => inf_of_sign (flip (Qcompare p 0))
  | PInf, PInf | NInf, NInf => PInf
  | PInf, NInf | NInf, PInf => NInf
  end.

(** [a / b]; a zero divisor counts as [+0]. *)
Definition fdiv (a b : number) : number :=
  match a, b with
  | NaN, _ | _, NaN => NaN
  | Fin p, Fin q =>
      match Qcompare q 0 with
      | Eq => inf_of_sign (Qcompare p 0)
      | _ => round64 (p / q)
      end
  | Fin _, PInf | Fin _, NInf => Fin 0
  | PInf, Fin q => match Qcompare q 0 with Lt => NInf | _ => PInf end
  | NInf, Fin q => match Qcompare q 0 with Lt => PInf | _ => NInf end
  | _, _ => NaN
  end.

(** [a + b] *)
Definition fadd (a b : number) : number :=
  match a, b with
  | NaN, _ | _, NaN => NaN
  | Fin p, Fin q => round64 (p + q)
  | PInf, NInf | NInf, PInf => NaN
  | PInf, _ | _, PInf => PInf
  | NInf, _ | _, NInf => NInf
  end.

(** [a <= b] *)
Definition fle (a b : number) : bool :=
  match a, b with
  | NaN, _ | _, NaN => false
  | NInf, _ => true
  | _, PInf => true
  | Fin p, Fin q => Qle_bool p q
  | _, _ => false
  end.

(** [a < b] *)
Definition flt (a b : number) : bool :=
  match a, b with
  | NaN, _ | _, NaN => false
  | Fin p, Fin q => negb (Qle_bool q p)
  | PInf, _ => false
  | _, NInf => false
  | _, _ => true
  end.

(** [a === b] on numbers *)
Definition feq (a b : number) : bool :=
  match a, b with
  | Fin p, Fin q => Qeq_bool p q
  | PInf, PInf | NInf, NInf => true
  | _, _ => false
  end.

Definition isNaN (a : number) : bool :=
  match a with NaN => true | _ => false end.

(** [Math.round]: the nearest integer, ties towards [+Infinity]. *)
Definition Math_round (a : number) : number :=
  match a with
  | Fin q => Fin (inject_Z (Qfloor (q + (1 # 2))))
  | _ => a
  end.

(** [Math.min] of two numbers. *)
Definition Math_min (a b : number) : number :=
  match a, b with
  | NaN, _ | _, NaN => NaN
  | _, _ => if fle a b then a else b
  end.

(** Rounding at a fixed exponent of the last place. *)
Definition round_at (ex : Z) (q : Q) : Q := inject_Z (rne (q / pow2 ex)) * pow2 ex.

(** Numbers that are zero, positive or [+Infinity]. *)
Definition nonneg (a : number) : Prop := fle (Fin 0) a = true.

(** Integer-valued numbers within given bounds. *)
Definition int_between (lo hi : Z) (a : number) : Prop :=
  exists z : Z, a = Fin (inject_Z z) /\ (lo <= z <= hi)%Z.

(** The binary64 values of the decimal literals 0.2, 0.4, 0.6 and 3.4. *)
Definition q02 : Q := 3602879701896397 # 18014398509481984.
Definition q04 : Q := 3602879701896397 # 9007199254740992.
Definition q06 : Q := 5404319552844595 # 9007199254740992.
Definition q34 : Q := 7656119366529843 # 2251799813685248.

End Num.

Import Num.

(** ** Strings *)

Local Open Scope string_scope.

(** A string is held as the bytes of its UTF-8 encoding, the form in which
    the input file stores it: a character of the ASCII range is one byte, any
    other character two to four bytes, none of which lies in the ASCII range. *)
Definition LF : string := String (ascii_of_nat 10) EmptyString.

(** The bytes [bytes] as a string. *)
Definition utf8 (bytes : list nat) : string :=
  string_of_list_ascii (map ascii_of_nat bytes).

(** What [String.prototype.trim] strips: the WhiteSpace and LineTerminator
    code points of ECMAScript, each as its UTF-8 encoding. *)
Definition white_space : list string :=
  map utf8
    ([ [9];              (* U+0009 CHARACTER TABULATION *)
      [10];             (* U+000A LINE FEED *)
      [11];             (* U+000B LINE TABULATION *)
      [12];             (* U+000C FORM FEED *)
      [13];             (* U+000D CARRIAGE RETURN *)
      [32];             (* U+0020 SPACE *)
      [194; 160];       (* U+00A0 NO-BREAK SPACE *)
      [225; 154; 128];  (* U+1680 OGHAM SPACE MARK *)
      [226; 128; 128];  (* U+2000 EN QUAD *)
      [226; 128; 129];  (* U+2001 EM QUAD *)
      [226; 128; 130];  (* U+2002 EN SPACE *)
      [226; 128; 131];  (* U+2003 EM SPACE *)
      [226; 128; 132];  (* U+2004 THREE-PER-EM SPACE *)
      [226; 128; 133];  (* U+2005 FOUR-PER-EM SPACE *)
      [226; 128; 134];  (* U+2006 SIX-PER-EM SPACE *)
      [226; 128; 135];  (* U+2007 FIGURE SPACE *)
      [226; 128; 136];  (* U+2008 PUNCTUATION SPACE *)
      [226; 128; 137];  (* U+2009 THIN SPACE *)
      [226; 128; 138];  (* U+200A HAIR SPACE *)
      [226; 128; 168];  (* U+2028 LINE SEPARATOR *)
      [226; 128; 169];  (* U+2029 PARAGRAPH SEPARATOR *)
      [226; 128; 175];  (* U+202F NARROW NO-BREAK SPACE *)
      [226; 129; 159];  (* U+205F MEDIUM MATHEMATICAL SPACE *)
      [227; 128; 128];  (* U+3000 IDEOGRAPHIC SPACE *)
      [239; 187; 191]   (* U+FEFF ZERO WIDTH NO-BREAK SPACE *) ])%nat.

(** [c] is one white-space character. *)
Definition is_white_space (c : string) : bool := existsb (String.eqb c) white_space.

Definition is_empty (s : string) : bool :=
  match s with EmptyString => true | _ => false end.

(** [s.trimStart()]: a white-space character takes one, two or three bytes. *)
Fixpoint trimStart (s : string) : string :=
  match s with
  | EmptyString => s
  | String a r1 =>
      if is_white_space (String a EmptyString) then trimStart r1 else
      match r1 with
      | EmptyString => s
      | String b r2 =>
          if is_white_space (String a (String b EmptyString)) then trimStart r2 else
          match r2 with
          | EmptyString => s
          | String c r3 =>
              if is_white_space (String a (String b (String c EmptyString))) then trimStart r3
              else s
          end
      end
  end.

(** [s.trimEnd()]: the string is cut where nothing but white space follows. *)
Fixpoint trimEnd (s : string) : string :=
  match s with
  | EmptyString => EmptyString
  | String c r => if is_empty (trimStart s) then EmptyString else String c (trimEnd r)
  end.

Definition trim (s : string) : string := trimEnd (trimStart s).

(** [s.split('\n')] *)
Fixpoint split_lines (s : string) : list string :=
  match s with
  | EmptyString => [EmptyString]
  | String c r =>
      if Ascii.eqb c (ascii_of_nat 10) then EmptyString :: split_lines r
      else match split_lines r with
           | h :: t => String c h :: t
           | [] => [String c EmptyString]
           end
  end.

(** [s.startsWith(p)] *)
Definition startsWith (s p : string) : bool := String.prefix p s.

(** ** Constants for thresholds and weights *)

Definition CO2_GOAL : number := lit (6 # 10).
Definition PAGE_LOAD_TIME_GOAL_SECONDS : number := lit (34 # 10).
Definition SEO_GOAL : number := lit 85.
Definition PERFORMANCE_SCORE_GOAL : number := lit 85.

Definition PERFORMANCE_WEIGHT : number := lit (20 # 100).
Definition SEO_WEIGHT : number := lit (20 # 100).
Definition CO2_WEIGHT : number := lit (40 # 100).
Definition PAGE_LOAD_TIME_WEIGHT : number := lit (20 # 100).

Definition countryNameToCode : list (string * string) :=
  [ ("Afghanistan", "AFG"); ("Albania", "ALB"); ("Algeria", "DZA");
    ("Andorra", "AND"); ("Angola", "AGO"); ("Antigua and Barbuda", "ATG");
    ("Argentina", "ARG"); ("Armenia", "ARM"); ("Australia", "AUS");
    ("Austria", "AUT"); ("Azerbaijan", "AZE"); ("Bahamas", "BHS");
    ("Bahrain", "BHR"); ("Bangladesh", "BGD"); ("Barbados", "BRB");
    ("Belarus", "BLR"); ("Belgium", "BEL"); ("Belize", "BLZ");
    ("Benin", "BEN"); ("Bhutan", "BTN"); ("Bolivia", "BOL");
    ("Bosnia and Herzegovina", "BIH"); ("Botswana", "BWA");
    ("Brazil", "BRA"); ("Brunei", "BRN"); ("Bulgaria", "BGR");
    ("Burkina Faso", "BFA"); ("Burundi", "BDI"); ("Cabo Verde", "CPV");
    ("Cambodia", "KHM"); ("Cameroon", "CMR"); ("Canada", "CAN");
    ("Central African Republic", "CAF"); ("Chad", "TCD"); ("Chile", "CHL");
    ("China", "CHN"); ("Colombia", "COL"); ("Comoros", "COM");
    ("Congo, Democratic Republic of the", "COD");
    ("Congo, Republic of the", "COG"); ("Costa Rica", "CRI");
    ("Croatia", "HRV"); ("Cuba", "CUB"); ("Cyprus", "CYP");
    ("Czech Republic", "CZE"); ("Denmark", "DNK"); ("Djibouti", "DJI");
    ("Dominica", "DMA"); ("Dominican Republic", "DOM"); ("Ecuador", "ECU");
    ("Egypt", "EGY"); ("El Salvador", "SLV"); ("Equatorial Guinea", "GNQ");
    ("Eritrea", "ERI"); ("Estonia", "EST"); ("Eswatini", "SWZ");
    ("Ethiopia", "ETH"); ("Fiji", "FJI"); ("Finland", "FIN");
    ("France", "FRA"); ("Gabon", "GAB"); ("Gambia", "GMB");
    ("Georgia", "GEO"); ("Germany", "DEU"); ("Ghana", "GHA");
    ("Greece", "GRC"); ("Grenada", "GRD"); ("Guatemala", "GTM");
    ("Guinea", "GIN"); ("Guinea-Bissau", "GNB"); ("Guyana", "GUY");
    ("Haiti", "HTI"); ("Honduras", "HND"); ("Hungary", "HUN");
    ("Iceland", "ISL"); ("India", "IND"); ("Indonesia", "IDN");
    ("Iran", "IRN"); ("Iraq", "IRQ"); ("Ireland", "IRL"); ("Israel", "ISR");
    ("Italy", "ITA"); ("Jamaica", "JAM"); ("Japan", "JPN");
    ("Jordan", "JOR"); ("Kazakhstan", "KAZ"); ("Kenya", "KEN");
    ("Kiribati", "KIR"); ("Korea, North", "PRK"); ("Korea, South", "KOR");
    ("Kuwait", "KWT"); ("Kyrgyzstan", "KGZ"); ("Laos", "LAO");
    ("Latvia", "LVA"); ("Lebanon", "LBN"); ("Lesotho", "LSO");
    ("Liberia", "LBR"); ("Libya", "LBY"); ("Liechtenstein", "LIE");
    ("Lithuania", "LTU"); ("Luxembourg", "LUX"); ("Madagascar", "MDG");
    ("Malawi", "MWI"); ("Malaysia", "MYS"); ("Maldives", "MDV");
    ("Mali", "MLI"); ("Malta", "MLT"); ("Marshall Islands", "MHL");
    ("Mauritania", "MRT"); ("Mauritius", "MUS"); ("Mexico", "MEX");
    ("Micronesia", "FSM"); ("Moldova", "MDA"); ("Monaco", "MCO");
    ("Mongolia", "MNG"); ("Montenegro", "MNE"); ("Morocco", "MAR");
    ("Mozambique", "MOZ"); ("Myanmar (Burma)", "MMR"); ("Namibia", "NAM");
    ("Nauru", "NRU"); ("Nepal", "NPL"); ("Netherlands", "NLD");
    ("New Zealand", "NZL"); ("Nicaragua", "NIC"); ("Niger", "NER");
    ("Nigeria", "NGA"); ("North Macedonia", "MKD"); ("Norway", "NOR");
    ("Oman", "OMN"); ("Pakistan", "PAK"); ("Palau", "PLW");
    ("Palestine", "PSE"); ("Panama", "PAN"); ("Papua New Guinea", "PNG");
    ("Paraguay", "PRY"); ("Peru", "PER"); ("Philippines", "PHL");
    ("Poland", "POL"); ("Portugal", "PRT"); ("Qatar", "QAT");
    ("Romania", "ROU"); ("Russia", "RUS"); ("Rwanda", "RWA");
    ("Saint Kitts and Nevis", "KNA"); ("Saint Lucia", "LCA");
    ("Saint Vincent and the Grenadines", "VCT"); ("Samoa", "WSM");
    ("San Marino", "SMR"); ("Sao Tome and Principe", "STP");
    ("Saudi Arabia", "SAU"); ("Senegal", "SEN"); ("Serbia", "SRB");
    ("Seychelles", "SYC"); ("Sierra Leone", "SLE"); ("Singapore", "SGP");
    ("Slovakia", "SVK"); ("Slovenia", "SVN"); ("Solomon Islands", "SLB");
    ("Somalia", "SOM"); ("South Africa", "ZAF"); ("South Sudan", "SSD");
    ("Spain", "ESP"); ("Sri Lanka", "LKA"); ("Sudan", "SDN");
    ("Suriname", "SUR"); ("Sweden", "SWE"); ("Switzerland", "CHE");
    ("Syria", "SYR"); ("Taiwan", "TWN"); ("Tajikistan", "TJK");
    ("Tanzania", "TZA"); ("Thailand", "THA"); ("Timor-Leste", "TLS");
    ("Togo", "TGO"); ("Tonga", "TON"); ("Trinidad and Tobago", "TTO");
    ("Tunisia", "TUN"); ("Turkey", "TUR"); ("Turkmenistan", "TKM");
    ("Tuvalu", "TUV"); ("Uganda", "UGA"); ("Ukraine", "UKR");
    ("United Arab Emirates", "ARE"); ("United Kingdom", "GBR");
    ("United States", "USA"); ("Uruguay", "URY"); ("Uzbekistan", "UZB");
    ("Vanuatu", "VUT"); ("Vatican City", "VAT"); ("Venezuela", "VEN");
    ("Vietnam", "VNM"); ("Yemen", "YEM"); ("Zambia", "ZMB");
    ("Zimbabwe", "ZWE") ].

(** Property lookup in an object used as a map: [o[k]], absent = [undefined]. *)
Fixpoint lookup {V : Type} (k : string) (o : list (string * V)) : option V :=
  match o with
  | [] => None
  | (k', v) :: r => if String.eqb k k' then Some v else lookup k r
  end.

(** [o[k] = v]: an existing key keeps its place, a new key goes last. *)
Fixpoint assign {V : Type} (k : string) (v : V) (o : list (string * V))
  : list (string * V) :=
  match o with
  | [] => [(k, v)]
  | (k', v') :: r =>
      if String.eqb k k' then (k, v) :: r else (k', v') :: assign k v r
  end.

(** ** The audit record and the measurements taken from it *)

Record NetworkRequest : Type := {
  resourceType : string;
  transferSize_of : number
}.

(** The part of the lighthouse result the script reads; every field is the
    number the script's arithmetic sees ([undefined] reads as [NaN]). *)
Record LHR : Type := {
  performance_score : number;      (* lhr.categories.performance.score *)
  seo_score : number;              (* lhr.categories.seo.score *)
  first_contentful_paint : number; (* audits['first-contentful-paint'].numericValue *)
  total_byte_weight : number;      (* audits['total-byte-weight'].numericValue *)
  network_requests : list NetworkRequest
}.

Record Scores : Type := {
  performance : number;
  seo : number;
  pageLoadTime : number;
  transferSize : number;
  transferSizeBreakdown : list (string * number)
}.

(** [!acc[resourceType]]: absent, [0] and [NaN] are falsy. *)
Definition falsy (v : option number) : bool :=
  match v with
  | None => true
  | Some NaN => true
  | Some (Fin q) => Qeq_bool q 0
  | Some _ => false
  end.

Definition reduce_request (acc : list (string * number)) (request : NetworkRequest)
  : list (string * number) :=
  let resourceType := resourceType request in
  let acc := if falsy (lookup resourceType acc)
             then assign resourceType (Fin 0) acc else acc in
  match lookup resourceType acc with
  | Some v =>
      assign resourceType (fadd v (fdiv (transferSize_of request) (lit 1024))) acc
  | None => acc
  end.

Definition getLighthouseScores (lhr : LHR) : Scores :=
  let networkRequests := network_requests lhr in
  let resourceBreakdown := fold_left reduce_request networkRequests [] in
  {| performance := fmul (performance_score lhr) (lit 100);
     seo := fmul (seo_score lhr) (lit 100);
     pageLoadTime := fdiv (first_contentful_paint lhr) (lit 1000);
     transferSize := fdiv (total_byte_weight lhr) (lit 1024);
     transferSizeBreakdown := resourceBreakdown |}.

(** ** The score aggregation (the arithmetic of [getEcoScore]) *)

Definition co2Score (co2 : number) : number :=
  if feq co2 (lit 0) then fmul CO2_WEIGHT (lit 100)
  else Math_min
         (Math_round (fmul (fmul (fdiv CO2_GOAL co2) (lit 100)) CO2_WEIGHT))
         (fmul CO2_WEIGHT (lit 100)).

Definition performanceScore (scores : Scores) : number :=
  Math_round (fmul (performance scores) PERFORMANCE_WEIGHT).

Definition seoScore (scores : Scores) : number :=
  Math_round (fmul (Math_min (fdiv (seo scores) SEO_GOAL) (lit 100)) SEO_WEIGHT).

Definition pageLoadTimeScore (scores : Scores) : number :=
  let pageLoadTime :=
    if isNaN (pageLoadTime scores) then lit 0 else pageLoadTime scores in
  if fle pageLoadTime PAGE_LOAD_TIME_GOAL_SECONDS then lit 100
  else Math_round (fmul (fdiv PAGE_LOAD_TIME_GOAL_SECONDS pageLoadTime) (lit 100)).

Definition weightedPageLoadTimeScore (scores : Scores) : number :=
  Math_round (fmul (pageLoadTimeScore scores) PAGE_LOAD_TIME_WEIGHT).

Definition ecoScore (scores : Scores) (co2 : number) : number :=
  fadd (fadd (fadd (performanceScore scores) (seoScore scores))
             (weightedPageLoadTimeScore scores))
       (co2Score co2).

(** The preconditions of the data model on the measurements. *)
Definition valid_measurements (scores : Scores) : Prop :=
  fle (Fin 0) (performance scores) = true /\
  fle (performance scores) (Fin 100) = true /\
  fle (Fin 0) (seo scores) = true /\
  fle (seo scores) (Fin 100) = true /\
  (isNaN (pageLoadTime scores) = true \/ fle (Fin 0) (pageLoadTime scores) = true).

(** Measurements with the given percentages and load time. *)
Definition scores_of (performancePct seoPct loadTimeSeconds : number) : Scores :=
  {| performance := performancePct; seo := seoPct; pageLoadTime := loadTimeSeconds;
     transferSize := Fin 0; transferSizeBreakdown := [] |}.

(** ** URL normalisation *)

Definition formatUrl (url : string) : string :=
  if negb (startsWith url "http://") && negb (startsWith url "https://")
  then "http://" ++ url
  else url.

(** ** Command line *)

Record Args : Type := { urls : option string; scoresfile : option string }.

(** [argv[i + 1]] is truthy when it exists and is not the empty string. *)
Fixpoint parseArgs_from (argv : list string) (args : Args) : Args :=
  match argv with
  | [] => args
  | a :: rest =>
      match rest with
      | v :: rest' =>
          if String.eqb a "--urls" && negb (is_empty v)
          then parseArgs_from rest' {| urls := Some v; scoresfile := scoresfile args |}
          else if String.eqb a "--scoresfile" && negb (is_empty v)
          then parseArgs_from rest' {| urls := urls args; scoresfile := Some v |}
          else parseArgs_from rest args
      | [] => args
      end
  end.

Definition parseArgs (argv : list string) : Args :=
  parseArgs_from argv {| urls := None; scoresfile := None |}.

(** ** Errors, collaborators and the program state *)

(** A value thrown by a collaborator is kept as the text that [`${error}`]
    prints for it; [JsError m] is the script's own [new Error(m)]. *)
Inductive error : Type :=
| External (shown : string)
| JsError (message : string).

Definition error_toString (e : error) : string :=
  match e with
  | External shown => shown
  | JsError message => "Error: " ++ message
  end.

Record LocationData : Type := {
  country_name : string;
  region_name : string;
  city_of : string
}.

Record ServerLocation : Type := {
  country : string;
  region : string;
  city : string
}.

Record TraceOptions : Type := {
  gridIntensity_dataCenter_country : option string
}.

Record CO2Trace : Type := { co2 : number }.

Record Report : Type := {
  Eco_Score : number;
  Page_Weight : number;
  Weight_Breakdown : list (string * number);
  Emissions_per_page : number;
  Server_Location : string;
  Green_Hosting : bool
}.

Section Program.

(** The world outside the process: network, browser, file system. *)
Variable World : Type.
Variable Browser : Type.

(** The libraries and services the script calls.  A call that touches the
    outside world takes and returns it; [inl] is a thrown value. *)
Record Collaborators : Type := {
  import_lighthouse : World -> (string + unit) * World;
  puppeteer_launch : World -> (string + Browser) * World;
  lighthouse : string -> Browser -> World -> (string + LHR) * World;
  browser_close : Browser -> World -> (string + unit) * World;
  URL_hostname : string -> string + string;
  hosting_check : string -> World -> (string + bool) * World;
  dns_resolve4 : string -> World -> (string + list string) * World;
  axios_get : string -> World -> (string + LocationData) * World;
  (* co2.perByteTrace(bytes, green, options); [None]: argument not passed *)
  perByteTrace : number -> bool -> option TraceOptions -> string + CO2Trace;
  JSON_stringify : Report -> string;
  readFileSync : string -> World -> (string + string) * World;
  (* fs.createWriteStream(path, { flags: 'a' }): the call itself does not
     throw; the file is opened for appending behind the script, and [Some t]
     is the 'error' event [t] of a stream whose file cannot be opened or
     written *)
  createWriteStream : string -> World -> option string * World;
  path_resolve : string -> string
}.

Variable C : Collaborators.

Record State : Type := {
  world : World;
  console : list (string * option error);  (* console.error lines *)
  written : list string;                   (* chunks handed to the output stream *)
  ended : bool;                            (* writeStream.end() was called *)
  stream_error : option error              (* 'error' event of the output stream *)
}.

(** Computations that read and change the state and may throw. *)
Definition M (A : Type) : Type := State -> (error + A) * State.

Definition ret {A : Type} (a : A) : M A := fun s => (inr a, s).

Definition throw {A : Type} (e : error) : M A := fun s => (inl e, s).

Definition bind {A B : Type} (m : M A) (k : A -> M B) : M B :=
  fun s => match m s with
           | (inl e, s') => (inl e, s')
           | (inr a, s') => k a s'
           end.

Notation "x <- m ;; k" := (bind m (fun x => k))
  (at level 61, m at next level, right associativity).

Definition try_catch {A : Type} (m : M A) (handler : error -> M A) : M A :=
  fun s => match m s with
           | (inl e, s') => handler e s'
           | (inr a, s') => (inr a, s')
           end.

Definition try_finally {A : Type} (m : M A) (final : M unit) : M A :=
  fun s => match m s with
           | (r, s') => match final s' with
                        | (inl e, s'') => (inl e, s'')
                        | (inr _, s'') => (r, s'')
                        end
           end.

Definition of_thrown {A : Type} (r : string + A) : error + A :=
  match r with inl t => inl (External t) | inr a => inr a end.

Definition call {A : Type} (f : World -> (string + A) * World) : M A :=
  fun s => match f (world s) with
           | (r, w) => (of_thrown r,
                        {| world := w; console := console s;
                           written := written s; ended := ended s;
                           stream_error := stream_error s |})
           end.

Definition call_pure {A : Type} (r : string + A) : M A :=
  fun s => (of_thrown r, s).

Definition console_error (message : string) (e : option error) : M unit :=
  fun s => (inr tt, {| world := world s;
                       console := console s ++ [(message, e)];
                       written := written s; ended := ended s;
                       stream_error := stream_error s |}).

Definition writeStream_write (chunk : string) : M unit :=
  fun s => (inr tt, {| world := world s; console := console s;
                       written := written s ++ [chunk]; ended := ended s;
                       stream_error := stream_error s |}).

Definition writeStream_end : M unit :=
  fun s => (inr tt, {| world := world s; console := console s;
                       written := written s; ended := true;
                       stream_error := stream_error s |}).

(** [writeStream = fs.createWriteStream(path, { flags: 'a' })]: a new stream,
    not ended; what was appended to the file before stays.  Nothing listens
    to the 'error' event of the stream. *)
Definition fs_createWriteStream (path : string) : M unit :=
  fun s => match createWriteStream C path (world s) with
           | (failure, w) =>
               (inr tt, {| world := w; console := console s;
                           written := written s; ended := false;
                           stream_error := option_map External failure |})
           end.

Fixpoint for_of {A : Type} (items : list A) (body : A -> M unit) : M unit :=
  match items with
  | [] => ret tt
  | x :: rest => _ <- body x ;; for_of rest body
  end.

(** ** The pipeline *)

Definition runLighthouse (url : string) : M LHR :=
  _ <- call (import_lighthouse C) ;;
  browser <- call (puppeteer_launch C) ;;
  lhr <- call (lighthouse C url browser) ;;
  _ <- call (browser_close C browser) ;;
  ret lhr.

Definition checkGreenHosting (domain : string) : M bool :=
  try_catch
    (call (hosting_check C domain))
    (fun error =>
       _ <- console_error ("Error checking green hosting for " ++ domain ++ ":")
                          (Some error) ;;
       ret false).

Definition calculateCO2 (pageWeight : number) (countryCode : option string)
                        (isGreenHost : bool) : M CO2Trace :=
  let optionsCalc := {| gridIntensity_dataCenter_country := countryCode |} in
  estimatedCO2 <- call_pure (perByteTrace C pageWeight isGreenHost None) ;;
  ret estimatedCO2.

Definition getServerLocation (domain : string) : M (option ServerLocation) :=
  try_catch
    (addresses <- call (dns_resolve4 C domain) ;;
     let ipAddress := nth 0 addresses "undefined" in
     locationData <- call (axios_get C ("https://freegeoip.app/json/" ++ ipAddress)) ;;
     ret (Some {| country := country_name locationData;
                  region := region_name locationData;
                  city := city_of locationData |}))
    (fun error =>
       _ <- console_error ("Error fetching server location for " ++ domain ++ ":")
                          (Some error) ;;
       ret None).

Definition getEcoScore (url : string) : M Report :=
  lhr <- runLighthouse url ;;
  let scores := getLighthouseScores lhr in
  let pageWeight := transferSize scores in
  hostname <- call_pure (URL_hostname C url) ;;
  serverLocation <- getServerLocation hostname ;;
  hostname <- call_pure (URL_hostname C url) ;;
  isGreenHost <- checkGreenHosting hostname ;;
  match serverLocation with
  | None => throw (JsError "Could not determine server location")
  | Some serverLocation =>
      let pageWeightBreakdown :=
        fold_left (fun o e => assign (fst e) (snd e) o)
                  (transferSizeBreakdown scores) [] in
      let countryCode := lookup (country serverLocation) countryNameToCode in
      co2Emissions <- calculateCO2 (fmul pageWeight (lit 1000)) countryCode isGreenHost ;;
      ret {| Eco_Score := Math_min (ecoScore scores (co2 co2Emissions)) (lit 100);
             Page_Weight := transferSize scores;
             Weight_Breakdown := pageWeightBreakdown;
             Emissions_per_page := co2 co2Emissions;
             Server_Location := country serverLocation;
             Green_Hosting := isGreenHost |}
  end.

(** The body of the loop over the domains. *)
Definition process_one (subdomain : string) : M unit :=
  let subdomain := formatUrl subdomain in
  try_catch
    (_ <- writeStream_write ("Calculate for " ++ subdomain ++ ":" ++ LF) ;;
     ecoScore <- getEcoScore subdomain ;;
     _ <- writeStream_write
            ("Little Forest Eco Score >> " ++ JSON_stringify C ecoScore ++ " <<" ++ LF) ;;
     writeStream_write ("----------------------------------" ++ LF))
    (fun error =>
       writeStream_write ("Error calculating Eco Score for " ++ subdomain ++ ": "
                            ++ error_toString error ++ LF)).

Definition subdomains_of (data : string) : list string :=
  filter (fun line => negb (is_empty line)) (map trim (split_lines data)).

Definition processSubdomains (filePath outputFilePath : string) : M unit :=
  _ <- fs_createWriteStream outputFilePath ;;
  try_finally
    (try_catch
       (data <- call (readFileSync C filePath) ;;
        for_of (subdomains_of data) process_one)
       (fun error => console_error "Error reading subdomains file:" (Some error)))
    writeStream_end.

(** The error that [getEcoScore] raises when no location was found. *)
Definition location_error : error := JsError "Could not determine server location".

(** Computations that leave the output stream alone. *)
Definition keeps_written {A : Type} (m : M A) : Prop :=
  forall s, written (snd (m s)) = written s.

(** What the loop appends for one domain, given how its pipeline ended. *)
Definition block (subdomain : string) (r : error + Report) : list string :=
  ("Calculate for " ++ subdomain ++ ":" ++ LF) ::
  match r with
  | inr ecoScore =>
      [ "Little Forest Eco Score >> " ++ JSON_stringify C ecoScore ++ " <<" ++ LF;
        "----------------------------------" ++ LF ]
  | inl error =>
      [ "Error calculating Eco Score for " ++ subdomain ++ ": "
          ++ error_toString error ++ LF ]
  end.

Definition block_of (p : string * (error + Report)) : list string :=
  block (fst p) (snd p).

(** The normalised domains of a run of the loop, each with the way its
    pipeline ended in the state in which the loop reached it. *)
Fixpoint outcomes (subdomains : list string) (s : State)
  : list (string * (error + Report)) :=
  match subdomains with
  | [] => []
  | d :: rest =>
      let u := formatUrl d in
      let started := snd (writeStream_write ("Calculate for " ++ u ++ ":" ++ LF) s) in
      (u, fst (getEcoScore u started)) :: outcomes rest (snd (process_one d s))
  end.

(** How the process ends.  [Exited]: the script called [process.exit], or ran
    to its end with nothing left to do, in the state given.  [Uncaught]: an
    error that nothing handles ends the process with status 1, wherever the
    script stands at that moment: the 'error' event of the output stream, to
    which the script never listens, or an error escaping [processSubdomains]. *)
Inductive Exit : Type :=
| Exited (status : Z) (s : State)
| Uncaught (e : error).

Definition exit_status (x : Exit) : Z :=
  match x with
  | Exited status _ => status
  | Uncaught _ => 1%Z
  end.

(** The top level of the script.  [process.exit(1)] ends the process with
    status 1; when the script runs to its end nothing sets a status, and the
    process ends with status 0 unless the output stream has failed. *)
Definition main (argv : list string) : State -> Exit :=
  fun s =>
    let args := parseArgs argv in
    match urls args, scoresfile args with
    | Some subdomainsFilePath, Some outputFilePath =>
        let resolvedSubdomainsPath := path_resolve C subdomainsFilePath in
        let resolvedOutputPath := path_resolve C outputFilePath in
        match processSubdomains resolvedSubdomainsPath resolvedOutputPath s with
        | (inr _, s') =>
            match stream_error s' with
            | Some e => Uncaught e
            | None => Exited 0%Z s'
            end
        | (inl e, _) => Uncaught e
        end
    | _, _ =>
        match console_error
                "Usage: node lf_ecoscore.js --urls <subdomains_file> --scoresfile <output_file>"
                None s with
        | (_, s') => Exited 1%Z s'
        end
    end.

End Program.

Arguments ret {World A} _ _.
Arguments throw {World A} _ _.
Arguments bind {World A B} _ _ _.
Arguments try_catch {World A} _ _ _.
Arguments try_finally {World A} _ _ _.
Arguments for_of {World A} _ _ _.
Arguments call {World A} _ _.
Arguments call_pure {World A} _ _.
Arguments console_error {World} _ _ _.
Arguments writeStream_write {World} _ _.
Arguments writeStream_end {World} _.
Arguments fs_createWriteStream {World Browser} C path _.
Arguments runLighthouse {World Browser} C url _.
Arguments checkGreenHosting {World Browser} C domain _.
Arguments calculateCO2 {World Browser} C pageWeight countryCode isGreenHost _.
Arguments getServerLocation {World Browser} C domain _.
Arguments getEcoScore {World Browser} C url _.
Arguments process_one {World Browser} C subdomain _.
Arguments processSubdomains {World Browser} C filePath outputFilePath _.
Arguments block {World Browser} C subdomain r.
Arguments block_of {World Browser} C p.
Arguments keeps_written {World A} m.
Arguments outcomes {World Browser} C subdomains s.
Arguments main {World Browser} C argv _.
Arguments Exited {World} status s.
Arguments Uncaught {World} e.
Arguments exit_status {World} x.
Arguments import_lighthouse {World Browser} _ _.
Arguments puppeteer_launch {World Browser} _ _.
Arguments lighthouse {World Browser} _ _ _ _.
Arguments browser_close {World Browser} _ _ _.
Arguments URL_hostname {World Browser} _ _.
Arguments hosting_check {World Browser} _ _ _.
Arguments dns_resolve4 {World Browser} _ _ _.
Arguments axios_get {World Browser} _ _ _.
Arguments perByteTrace {World Browser} _ _ _ _.
Arguments JSON_stringify {World Browser} _ _.
Arguments readFileSync {World Browser} _ _ _.
Arguments createWriteStream {World Browser} _ _ _.
Arguments path_resolve {World Browser} _ _.
Arguments world {World} _.
Arguments console {World} _.
Arguments written {World} _.
Arguments ended {World} _.
Arguments stream_error {World} _.

(** ** A concrete environment

    Stand-ins for the collaborators, used to run the script on examples: the
    audit of [http://bad.example] fails, [nowhere.example] does not resolve,
    [missing.txt] cannot be read, [/locked/scores.txt] cannot be opened, and
    the estimator answers with the byte count it was given. *)

Definition demo_hostname (url : string) : string :=
  if startsWith url "https://" then substring 8 (length url - 8) url
  else if startsWith url "http://" then substring 7 (length url - 7) url
  else url.

Definition demo (lhr : LHR) : Collaborators unit unit :=
  {| import_lighthouse := fun w => (inr tt, w);
     puppeteer_launch := fun w => (inr tt, w);
     lighthouse := fun url _ w =>
       if String.eqb url "http://bad.example"
       then (inl "Error: audit failed", w) else (inr lhr, w);
     browser_close := fun _ w => (inr tt, w);
     URL_hostname := fun url => inr (demo_hostname url);
     hosting_check := fun _ w => (inr true, w);
     dns_resolve4 := fun domain w =>
       if String.eqb domain "nowhere.example"
       then (inl "Error: queryA ENOTFOUND nowhere.example", w)
       else (inr ["192.0.2.1"], w);
     axios_get := fun _ w =>
       (inr {| country_name := "Portugal"; region_name := "Lisbon";
               city_of := "Lisbon" |}, w);
     perByteTrace := fun bytes _ _ => inr {| co2 := bytes |};
     JSON_stringify := fun _ => "{ ... }";
     readFileSync := fun path w =>
       if String.eqb path "missing.txt"
       then (inl "Error: ENOENT: no such file or directory", w)
       else (inr ("a.example" ++ LF ++ "  bad.example " ++ LF ++ LF
                  ++ "https://c.example" ++ LF), w);
     createWriteStream := fun path w =>
       if String.eqb path "/locked/scores.txt"
       then (Some "Error: EACCES: permission denied, open '/locked/scores.txt'", w)
       else (None, w);
     path_resolve := fun p => p |}.

Definition demo_lhr (performance_score total_byte_weight : number) : LHR :=
  {| performance_score := performance_score;
     seo_score := Fin 1;
     first_contentful_paint := Fin 1200;
     total_byte_weight := total_byte_weight;
     network_requests :=
       [ {| resourceType := "Script"; transferSize_of := Fin 512 |};
         {| resourceType := "Image"; transferSize_of := Fin 256 |};
         {| resourceType := "Script"; transferSize_of := Fin 256 |} ] |}.

Definition initial : State unit :=
  {| world := tt; console := []; written := []; ended := false;
     stream_error := None |}.

(** Two audits within the data model, and the reports the script produces
    for them: an ordinary one, and the best there is, with performance and
    SEO at 100 %, the first paint at 0 ms and nothing transferred, for which
    the estimator answers 0 g. *)
Definition demo_valid : Collaborators unit unit :=
  demo (demo_lhr (Fin (1 # 2)) (Fin 1024)).

Definition best_lhr : LHR :=
  {| performance_score := Fin 1;
     seo_score := Fin 1;
     first_contentful_paint := Fin 0;
     total_byte_weight := Fin 0;
     network_requests := [] |}.

Definition demo_best : Collaborators unit unit := demo best_lhr.

Definition best_report (ecoScore : number) : Report :=
  {| Eco_Score := ecoScore;
     Page_Weight := Fin 0;
     Weight_Breakdown := [];
     Emissions_per_page := Fin 0;
     Server_Location := "Portugal";
     Green_Hosting := true |}.

Definition demo_report (ecoScore pageWeight emissions : number) : Report :=
  {| Eco_Score := ecoScore;
     Page_Weight := pageWeight;
     Weight_Breakdown := [("Script", Fin (3 # 4)); ("Image", Fin (1 # 4))];
     Emissions_per_page := emissions;
     Server_Location := "Portugal";
     Green_Hosting := true |}.


Definition demo_argv (input : string) : list string :=
  ["--urls"; input; "--scoresfile"; "scores.txt"].

(** The same with an output file that cannot be opened. *)
Definition demo_argv_locked (input : string) : list string :=
  ["--urls"; input; "--scoresfile"; "/locked/scores.txt"].

(** ** Notions used to state further properties *)

(** [n] bytes in kilobytes, as the binary64 value of [n / 1024]. *)
Definition kilobytes (n : Z) : number := Fin (Qred (inject_Z n / 1024)).

(** Network requests with whole numbers of bytes, their total, and the bytes
    of one resource type. *)
Definition request_of (p : string * N) : NetworkRequest :=
  {| resourceType := fst p; transferSize_of := Fin (inject_Z (Z.of_N (snd p))) |}.

Fixpoint bytes_of_type (k : string) (l : list (string * N)) : Z :=
  match l with
  | [] => 0
  | (t, n) :: r => (if String.eqb k t then Z.of_N n else 0) + bytes_of_type k r
  end%Z.

Definition total_bytes (l : list (string * N)) : Z :=
  fold_right (fun p a => (Z.of_N (snd p) + a)%Z) 0%Z l.

Definition has_type (k : string) (l : list (string * N)) : bool :=
  existsb (String.eqb k) (map fst l).

(** The accumulator of the breakdown holds, for every type seen so far, the
    kilobytes of that type. *)
Definition totals_of (done : list (string * N)) (acc : list (string * number)) : Prop :=
  forall k, lookup k acc
            = if has_type k done then Some (kilobytes (bytes_of_type k done)) else None.

(** A state after a collaborator call, without and with a console line. *)
Definition with_world {World : Type} (s : State World) (w : World) : State World :=
  {| world := w; console := console s; written := written s; ended := ended s;
     stream_error := stream_error s |}.

Definition logged {World : Type} (s : State World) (w : World)
                  (message : string) (t : string) : State World :=
  {| world := w; console := console s ++ [(message, Some (External t))];
     written := written s; ended := ended s; stream_error := stream_error s |}.

(** Computations that neither write to the output stream nor end it, and
    leave its 'error' event as it is. *)
Definition keeps_stream {World A : Type} (m : M World A) : Prop :=
  forall s, written (snd (m s)) = written s /\ ended (snd (m s)) = ended s /\
            stream_error (snd (m s)) = stream_error s.

(** Shapes of strings.  [skip_white_space s] is [s] without the white-space
    character it starts with, if it starts with one. *)
Definition skip_white_space (s : string) : option string :=
  match s with
  | EmptyString => None
  | String a r1 =>
      if is_white_space (String a EmptyString) then Some r1 else
      match r1 with
      | EmptyString => None
      | String b r2 =>
          if is_white_space (String a (String b EmptyString)) then Some r2 else
          match r2 with
          | EmptyString => None
          | String c r3 =>
              if is_white_space (String a (String b (String c EmptyString))) then Some r3
              else None
          end
      end
  end.

(** [s] starts with none of the white-space characters. *)
Definition starts_clean (s : string) : bool :=
  forallb (fun c => negb (startsWith s c)) white_space.

(** [s] is a sequence of white-space characters. *)
Fixpoint all_white (s : string) : bool :=
  match s with
  | EmptyString => true
  | String a r1 =>
      if is_white_space (String a EmptyString) then all_white r1 else
      match r1 with
      | EmptyString => false
      | String b r2 =>
          if is_white_space (String a (String b EmptyString)) then all_white r2 else
          match r2 with
          | EmptyString => false
          | String c r3 =>
              is_white_space (String a (String b (String c EmptyString))) && all_white r3
          end
      end
  end.

(** No non-empty end of [s] is a sequence of white-space characters. *)
Fixpoint ends_clean (s : string) : bool :=
  match s with
  | EmptyString => true
  | String _ r => negb (all_white s) && ends_clean r
  end.

(** A byte-order mark and a no-break space, both white space. *)
Definition BOM : string := utf8 [239; 187; 191]%nat.

Definition NBSP : string := utf8 [194; 160]%nat.

(** [s] has a line feed somewhere. *)
Fixpoint has_LF (s : string) : bool :=
  match s with
  | EmptyString => false
  | String c r => Ascii.eqb c (ascii_of_nat 10) || has_LF r
  end.

(** [v] is the argument right after [flag]. *)
Definition follows_flag (flag v : string) (argv : list string) : Prop :=
  exists before after, argv = (before ++ flag :: v :: after)%list.

(** Three capital letters, the shape of an ISO alpha-3 code. *)
Definition is_capital (c : ascii) : bool :=
  let n := nat_of_ascii c in ((65 <=? n) && (n <=? 90))%nat.

Definition is_alpha3 (code : string) : bool :=
  match code with
  | String a (String b (String c EmptyString)) =>
      is_capital a && is_capital b && is_capital c
  | _ => false
  end.

(** Every code of a table has that shape and belongs to one name only. *)
Definition table_consistent (table : list (string * string)) : bool :=
  forallb (fun p =>
    is_alpha3 (snd p) &&
    forallb (fun q => negb (String.eqb (snd p) (snd q)) || String.eqb (fst p) (fst q))
            table)
    table.

(** ** An environment that records its calls

    The outside world is the list of the calls made so far; the outcome of
    each collaborator is given. *)
Definition traced {A : Type} (name : string) (r : string + A) (w : list string)
  : (string + A) * list string :=
  (r, (w ++ [name])%list).

Definition traced_env (audit : string + LHR) (close : string + unit)
                      (hosting : string + bool) (addresses : string + list string)
                      (geo : string + LocationData) (estimate : string + CO2Trace)
                      (file : string + string)
  : Collaborators (list string) unit :=
  {| import_lighthouse := traced "import" (inr tt);
     puppeteer_launch := traced "launch" (inr tt);
     lighthouse := fun _ _ => traced "lighthouse" audit;
     browser_close := fun _ => traced "close" close;
     URL_hostname := fun url =>
       if is_empty url then inl "TypeError: Invalid URL" else inr (demo_hostname url);
     hosting_check := fun _ => traced "hosting" hosting;
     dns_resolve4 := fun _ => traced "dns" addresses;
     axios_get := fun url => traced ("get " ++ url) geo;
     perByteTrace := fun _ _ _ => estimate;
     JSON_stringify := fun _ => "{ ... }";
     readFileSync := fun _ => traced "read" file;
     createWriteStream := fun _ w => (None, (w ++ ["open"])%list);
     path_resolve := fun p => p |}.

Definition start : State (list string) :=
  {| world := []; console := []; written := []; ended := false;
     stream_error := None |}.

Definition audit_ok : string + LHR := inr (demo_lhr (Fin (1 # 2)) (Fin 1024)).

Definition audit_ok_result : error + LHR := inr (demo_lhr (Fin (1 # 2)) (Fin 1024)).

Definition atlantis : LocationData :=
  {| country_name := "Atlantis"; region_name := "Ocean"; city_of := "Poseidonis" |}.

(** All collaborators succeed; the location is a country the table lacks. *)
Definition env_ok : Collaborators (list string) unit :=
  traced_env audit_ok (inr tt) (inr true) (inr ["192.0.2.1"]) (inr atlantis)
             (inr {| co2 := Fin (1 # 4) |})
             (inr (BOM ++ " " ++ LF ++ NBSP ++ LF)).

(** One collaborator fails at a time. *)
Definition env_audit_fails : Collaborators (list string) unit :=
  traced_env (inl "Error: navigation failed") (inr tt) (inr true) (inr ["192.0.2.1"])
             (inr atlantis) (inr {| co2 := Fin (1 # 4) |}) (inr "a.example").

Definition env_close_fails : Collaborators (list string) unit :=
  traced_env audit_ok (inl "Error: browser has gone") (inr true) (inr ["192.0.2.1"])
             (inr atlantis) (inr {| co2 := Fin (1 # 4) |}) (inr "a.example").

Definition env_hosting_down : Collaborators (list string) unit :=
  traced_env audit_ok (inr tt) (inl "Error: directory unreachable") (inr ["192.0.2.1"])
             (inr atlantis) (inr {| co2 := Fin (1 # 4) |}) (inr "a.example").

Definition env_dns_down : Collaborators (list string) unit :=
  traced_env audit_ok (inr tt) (inr true) (inl "Error: queryA ENOTFOUND a.example")
             (inr atlantis) (inr {| co2 := Fin (1 # 4) |}) (inr "a.example").

Definition env_geo_down : Collaborators (list string) unit :=
  traced_env audit_ok (inr tt) (inr true) (inr [])
             (inl "Error: Request failed with status code 503")
             (inr {| co2 := Fin (1 # 4) |}) (inr "a.example").

Definition env_estimator_fails : Collaborators (list string) unit :=
  traced_env audit_ok (inr tt) (inr true) (inr ["192.0.2.1"]) (inr atlantis)
             (inl "TypeError: co2Emission.perByteTrace is not a function")
             (inr "a.example").

Definition demo_sizes : list (string * N) :=
  [("Script", 512%N); ("Image", 256%N); ("Script", 256%N)].

(** * Properties *)

Local Close Scope string_scope.
Local Close Scope Qc_scope.
Local Open Scope Q_scope.

(** ** Rounding to binary64 is monotone, and exact on small integers *)

Module NumFacts.

Lemma pow2_pos e : 0 < pow2 e.
Proof. apply Qpower_0_lt. reflexivity. Qed.

Lemma pow2_add a b : pow2 (a + b) == pow2 a * pow2 b.
Proof. apply Qpower_plus. discriminate. Qed.

Lemma pow2_le a b : (a <= b)%Z -> pow2 a <= pow2 b.
Proof. intros H. apply Qpower_le_compat_l; [exact H | discriminate]. Qed.

Lemma pow2_lt a b : (a < b)%Z -> pow2 a < pow2 b.
Proof. intros H. apply Qpower_lt_compat_l; [exact H | reflexivity]. Qed.

Lemma pow2_Z n : (0 <= n)%Z -> pow2 n == inject_Z (2 ^ n).
Proof.
  intros H. unfold pow2. rewrite Zpower_Qpower by exact H. reflexivity.
Qed.

Lemma pow2_sub a b : pow2 (a - b) == pow2 a / pow2 b.
Proof.
  assert (H := pow2_add (a - b) b). replace (a - b + b)%Z with a in H by lia.
  pose proof (pow2_pos b). rewrite H. field. lra.
Qed.

Lemma ilog2_spec q : 0 < q -> pow2 (ilog2 q) <= q /\ q < pow2 (ilog2 q + 1).
Proof.
  intros Hq. unfold ilog2.
  destruct q as [n d]. cbn [Qnum Qden].
  assert (Hn : (0 < n)%Z) by (unfold Qlt in Hq; cbn in Hq; lia).
  set (ln := Z.log2 n). set (ld := Z.log2 (Z.pos d)).
  destruct (Z.log2_spec n Hn) as [Hn1 Hn2]. fold ln in Hn1, Hn2.
  destruct (Z.log2_spec (Z.pos d) eq_refl) as [Hd1 Hd2]. fold ld in Hd1, Hd2.
  assert (Lln : (0 <= ln)%Z) by apply Z.log2_nonneg.
  assert (Lld : (0 <= ld)%Z) by apply Z.log2_nonneg.
  assert (Eq : n # d == inject_Z n / inject_Z (Z.pos d)) by apply Qmake_Qdiv.
  assert (Dpos : 0 < inject_Z (Z.pos d)) by (unfold Qlt; cbn; lia).
  assert (A1 : pow2 ln <= inject_Z n) by (rewrite pow2_Z by lia; rewrite <- Zle_Qle; exact Hn1).
  assert (A2 : inject_Z n < pow2 (ln + 1)).
  { rewrite pow2_Z by lia. rewrite <- Zlt_Qlt. replace (ln + 1)%Z with (Z.succ ln) by lia. exact Hn2. }
  assert (B1 : pow2 ld <= inject_Z (Z.pos d)) by (rewrite pow2_Z by lia; rewrite <- Zle_Qle; exact Hd1).
  assert (B2 : inject_Z (Z.pos d) < pow2 (ld + 1)).
  { rewrite pow2_Z by lia. rewrite <- Zlt_Qlt. replace (ld + 1)%Z with (Z.succ ld) by lia. exact Hd2. }
  set (t := inject_Z n / inject_Z (Z.pos d)) in *.
  assert (T : t * inject_Z (Z.pos d) == inject_Z n) by (unfold t; field; lra).
  assert (T0 : 0 < t).
  { unfold t. apply Qlt_shift_div_l; [exact Dpos|]. rewrite Qmult_0_l.
    apply Qlt_le_trans with (pow2 ln); [apply pow2_pos | exact A1]. }
  assert (U : n # d < pow2 (ln - ld + 1)).
  { rewrite Eq. replace (ln - ld + 1)%Z with ((ln + 1) - ld)%Z by lia.
    rewrite pow2_sub. pose proof (pow2_pos ld).
    apply Qlt_shift_div_l; [assumption|].
    apply Qle_lt_trans with (t * inject_Z (Z.pos d)); [|rewrite T; exact A2].
    apply Qmult_le_l; [exact T0 | exact B1]. }
  assert (L : pow2 (ln - ld - 1) <= n # d).
  { rewrite Eq. replace (ln - ld - 1)%Z with (ln - (ld + 1))%Z by lia.
    rewrite pow2_sub. pose proof (pow2_pos (ld + 1)).
    apply Qle_shift_div_r; [assumption|].
    apply Qle_trans with (t * inject_Z (Z.pos d)); [rewrite T; exact A1|].
    apply Qmult_le_l; [exact T0 | apply Qlt_le_weak; exact B2]. }
  destruct (Qle_bool (pow2 (ln - ld)) (n # d)) eqn:E.
  - apply Qle_bool_iff in E. split; assumption.
  - split; [exact L|]. replace (ln - ld - 1 + 1)%Z with (ln - ld)%Z by lia.
    apply Qnot_le_lt. intro C. apply Qle_bool_iff in C. congruence.
Qed.

Lemma ilog2_unique q e : 0 < q -> pow2 e <= q -> q < pow2 (e + 1) -> ilog2 q = e.
Proof.
  intros Hq L U. destruct (ilog2_spec q Hq) as [L' U'].
  assert (A : (e < ilog2 q + 1)%Z).
  { apply (Qpower_lt_compat_l_inv 2); [|reflexivity].
    eapply Qle_lt_trans; [exact L | exact U']. }
  assert (B : (ilog2 q < e + 1)%Z).
  { apply (Qpower_lt_compat_l_inv 2); [|reflexivity].
    eapply Qle_lt_trans; [exact L' | exact U]. }
  lia.
Qed.

Lemma ilog2_comp q1 q2 : 0 < q1 -> q1 == q2 -> ilog2 q1 = ilog2 q2.
Proof.
  intros H E. symmetry. assert (H2 : 0 < q2) by (rewrite <- E; exact H).
  destruct (ilog2_spec q1 H) as [L U].
  apply ilog2_unique; [exact H2 | rewrite <- E; exact L | rewrite <- E; exact U].
Qed.

Lemma ilog2_mono q1 q2 : 0 < q1 -> q1 <= q2 -> (ilog2 q1 <= ilog2 q2)%Z.
Proof.
  intros H1 H.
  assert (H2 : 0 < q2) by (eapply Qlt_le_trans; eassumption).
  destruct (ilog2_spec q1 H1) as [L1 _]. destruct (ilog2_spec q2 H2) as [_ U2].
  assert (A : (ilog2 q1 < ilog2 q2 + 1)%Z).
  { apply (Qpower_lt_compat_l_inv 2); [|reflexivity].
    eapply Qle_lt_trans; [exact L1|]. eapply Qle_lt_trans; [exact H | exact U2]. }
  lia.
Qed.

Lemma rne_comp x y : x == y -> rne x = rne y.
Proof.
  intros E. unfold rne. rewrite (Qfloor_comp _ _ E).
  assert (E' : x - inject_Z (Qfloor y) == y - inject_Z (Qfloor y)) by (rewrite E; reflexivity).
  rewrite E'. reflexivity.
Qed.

Lemma rne_bounds x : (Qfloor x <= rne x <= Qfloor x + 1)%Z.
Proof.
  unfold rne. destruct (Qcompare _ _); [destruct (Z.even _)| |]; lia.
Qed.

Lemma rne_Z z : rne (inject_Z z) = z.
Proof.
  unfold rne. rewrite Qfloor_Z.
  assert (E : inject_Z z - inject_Z z == 0) by ring.
  rewrite E. reflexivity.
Qed.

Lemma rne_mono x y : x <= y -> (rne x <= rne y)%Z.
Proof.
  intros H. assert (F := Qfloor_resp_le _ _ H).
  destruct (Z.eq_dec (Qfloor x) (Qfloor y)) as [E|N].
  - unfold rne. rewrite E.
    destruct (Qcompare_spec (x - inject_Z (Qfloor y)) (1#2)) as [Cx|Cx|Cx];
    destruct (Qcompare_spec (y - inject_Z (Qfloor y)) (1#2)) as [Cy|Cy|Cy];
    try (destruct (Z.even (Qfloor y))); try lia; exfalso; lra.
  - pose proof (rne_bounds x). pose proof (rne_bounds y). lia.
Qed.

Lemma round_at_mono ex q1 q2 : q1 <= q2 -> round_at ex q1 <= round_at ex q2.
Proof.
  intros H. unfold round_at. pose proof (pow2_pos ex).
  apply Qmult_le_compat_r; [|lra].
  rewrite <- Zle_Qle. apply rne_mono.
  apply Qmult_le_compat_r; [exact H|]. apply Qlt_le_weak, Qinv_lt_0_compat. assumption.
Qed.

Lemma round_at_pow2 ex k : (0 <= k)%Z -> round_at ex (pow2 (ex + k)) == pow2 (ex + k).
Proof.
  intros Hk. unfold round_at. pose proof (pow2_pos ex).
  assert (E : pow2 (ex + k) / pow2 ex == inject_Z (2 ^ k)).
  { rewrite <- pow2_Z by exact Hk. rewrite pow2_add. field. lra. }
  rewrite (rne_comp _ _ E), rne_Z. rewrite <- pow2_Z by exact Hk.
  rewrite pow2_add. ring.
Qed.

Lemma round_pos_mono q1 q2 : 0 < q1 -> q1 <= q2 -> round_pos q1 <= round_pos q2.
Proof.
  intros H1 H.
  assert (H2 : 0 < q2) by (eapply Qlt_le_trans; eassumption).
  pose proof (ilog2_mono q1 q2 H1 H) as He.
  destruct (ilog2_spec q1 H1) as [L1 U1]. destruct (ilog2_spec q2 H2) as [L2 U2].
  change (round_at (ulp_exp q1) q1 <= round_at (ulp_exp q2) q2).
  destruct (Z.eq_dec (ulp_exp q1) (ulp_exp q2)) as [E|N].
  - rewrite E. apply round_at_mono. exact H.
  - unfold ulp_exp in *.
    set (e1 := ilog2 q1) in *. set (e2 := ilog2 q2) in *.
    assert (Lt : (e1 < e2)%Z) by lia.
    apply Qle_trans with (pow2 e2).
    + set (ex := Z.max (e1 - 52) (-1074)).
      replace e2 with (ex + (e2 - ex))%Z by lia.
      rewrite <- (round_at_pow2 ex (e2 - ex)) by lia.
      apply round_at_mono. replace (ex + (e2 - ex))%Z with e2 by lia.
      apply Qle_trans with (pow2 (e1 + 1)); [apply Qlt_le_weak; exact U1|].
      apply pow2_le. lia.
    + set (ex := Z.max (e2 - 52) (-1074)).
      replace e2 with (ex + (e2 - ex))%Z at 1 by lia.
      rewrite <- (round_at_pow2 ex (e2 - ex)) by lia.
      apply round_at_mono. replace (ex + (e2 - ex))%Z with e2 by lia. exact L2.
Qed.

Lemma round_pos_comp q1 q2 : 0 < q1 -> q1 == q2 -> round_pos q1 == round_pos q2.
Proof.
  intros H E. unfold round_pos, ulp_exp. rewrite (ilog2_comp q1 q2 H E).
  set (ex := Z.max _ _).
  assert (E' : q1 / pow2 ex == q2 / pow2 ex) by (rewrite E; reflexivity).
  rewrite (rne_comp _ _ E'). reflexivity.
Qed.

Lemma round_pos_nonneg q : 0 < q -> 0 <= round_pos q.
Proof.
  intros H. unfold round_pos. set (ex := ulp_exp q). pose proof (pow2_pos ex).
  apply Qmult_le_0_compat; [|lra].
  change 0 with (inject_Z 0). rewrite <- Zle_Qle.
  rewrite <- (rne_Z 0). apply rne_mono. 
  apply Qle_shift_div_l; [assumption|]. change (inject_Z 0) with 0. lra.
Qed.

Lemma round64_comp q1 q2 : q1 == q2 -> round64 q1 = round64 q2.
Proof.
  intros E. unfold round64. rewrite <- E.
  destruct (Qcompare_spec q1 0) as [C|C|C]; [reflexivity| |].
  - assert (P : 0 < - q1) by lra.
    assert (E' : - q1 == - q2) by (rewrite E; reflexivity).
    pose proof (round_pos_comp _ _ P E') as R.
    assert (B : Qle_bool (pow2 1024) (round_pos (- q1)) = Qle_bool (pow2 1024) (round_pos (- q2))).
    { apply eq_true_iff_eq. rewrite !Qle_bool_iff, R. reflexivity. }
    rewrite <- B. destruct (Qle_bool _ _); [reflexivity|].
    f_equal. apply Qred_complete. rewrite R. reflexivity.
  - pose proof (round_pos_comp _ _ C E) as R.
    assert (B : Qle_bool (pow2 1024) (round_pos q1) = Qle_bool (pow2 1024) (round_pos q2)).
    { apply eq_true_iff_eq. rewrite !Qle_bool_iff, R. reflexivity. }
    rewrite <- B. destruct (Qle_bool _ _); [reflexivity|].
    f_equal. apply Qred_complete. exact R.
Qed.

Lemma round64_zero q : q == 0 -> round64 q = Fin 0.
Proof. intros E. rewrite (round64_comp _ _ E). reflexivity. Qed.

Lemma round64_pos_cases q : 0 < q ->
  (round64 q = PInf /\ pow2 1024 <= round_pos q) \/
  (exists r, round64 q = Fin r /\ r == round_pos q /\ round_pos q < pow2 1024).
Proof.
  intros H. unfold round64. destruct (Qcompare_spec q 0) as [C|C|C]; try lra.
  destruct (Qle_bool (pow2 1024) (round_pos q)) eqn:B.
  - left. split; [reflexivity|]. apply Qle_bool_iff. exact B.
  - right. exists (Qred (round_pos q)). split; [reflexivity|]. split; [apply Qred_correct|].
    apply Qnot_le_lt. intro X. apply Qle_bool_iff in X. congruence.
Qed.

Lemma round64_mono q1 q2 : 0 <= q1 -> q1 <= q2 -> fle (round64 q1) (round64 q2) = true.
Proof.
  intros H1 H.
  destruct (Qeq_dec q1 0) as [Z1|N1].
  - rewrite (round64_zero _ Z1).
    destruct (Qeq_dec q2 0) as [Z2|N2].
    + rewrite (round64_zero _ Z2). reflexivity.
    + assert (P2 : 0 < q2) by (destruct (Qlt_le_dec 0 q2); [assumption|exfalso; apply N2; lra]).
      pose proof (round_pos_nonneg _ P2).
      destruct (round64_pos_cases _ P2) as [[-> _]|[r [-> [E _]]]]; [reflexivity|].
      cbn. apply Qle_bool_iff. rewrite E. assumption.
  - assert (P1 : 0 < q1) by (destruct (Qlt_le_dec 0 q1); [assumption|exfalso; apply N1; lra]).
    assert (P2 : 0 < q2) by lra.
    pose proof (round_pos_mono _ _ P1 H) as M.
    destruct (round64_pos_cases _ P1) as [[-> B1]|[r1 [-> [E1 B1]]]];
    destruct (round64_pos_cases _ P2) as [[-> B2]|[r2 [-> [E2 B2]]]]; try reflexivity.
    + exfalso. lra.
    + cbn. apply Qle_bool_iff. rewrite E1, E2. exact M.
Qed.

Lemma round64_nonneg q : 0 <= q -> nonneg (round64 q).
Proof.
  intros H. unfold nonneg. change (Fin 0) with (round64 0).
  apply round64_mono; [lra | exact H].
Qed.

Lemma round_pos_exact q : 0 < q ->
  (exists z : Z, q / pow2 (ulp_exp q) == inject_Z z) -> round_pos q == q.
Proof.
  intros H [z E]. unfold round_pos. rewrite (rne_comp _ _ E), rne_Z, <- E.
  pose proof (pow2_pos (ulp_exp q)). field. lra.
Qed.

Lemma round64_exact q : 0 < q -> round_pos q == q -> q < pow2 1024 -> round64 q = Fin (Qred q).
Proof.
  intros P E B. unfold round64.
  destruct (Qcompare_spec q 0) as [C|C|C]; try lra.
  destruct (Qle_bool (pow2 1024) (round_pos q)) eqn:O.
  - apply Qle_bool_iff in O. exfalso. lra.
  - f_equal. apply Qred_complete. exact E.
Qed.

Lemma round64_int n : (0 <= n <= 2 ^ 53)%Z -> round64 (inject_Z n) = Fin (inject_Z n).
Proof.
  intros [L U]. destruct (Z.eq_dec n 0) as [->|N]; [reflexivity|].
  assert (P : 0 < inject_Z n) by (change 0 with (inject_Z 0); rewrite <- Zlt_Qlt; lia).
  assert (E : round_pos (inject_Z n) == inject_Z n).
  { apply round_pos_exact; [exact P|]. unfold ulp_exp.
    destruct (ilog2_spec _ P) as [A B]. set (e := ilog2 (inject_Z n)) in *.
    assert (He : (e <= 53)%Z).
    { assert (X : (e < 53 + 1)%Z); [|lia].
      apply (Qpower_lt_compat_l_inv 2); [|reflexivity].
      eapply Qle_lt_trans; [exact A|]. eapply Qle_lt_trans with (pow2 53).
      - rewrite (pow2_Z 53) by lia. rewrite <- Zle_Qle. exact U.
      - apply pow2_lt. lia. }
    destruct (Z.eq_dec e 53) as [E53|N53].
    - (* n = 2^53 *)
      exists (n / 2)%Z. replace (Z.max (e - 52) (-1074)) with 1%Z by lia.
      assert (n = 2 ^ 53)%Z.
      { apply Z.le_antisymm; [exact U|]. rewrite Zle_Qle, <- pow2_Z by lia. rewrite <- E53. exact A. }
      subst n. vm_compute. reflexivity.
    - assert (He0 : (-1 <= e)%Z).
      { assert (X : (0 < e + 1 + 1)%Z); [|lia].
        apply (Qpower_lt_compat_l_inv 2); [|reflexivity].
        eapply Qle_lt_trans with (inject_Z n); [|eapply Qlt_le_trans; [exact B|apply pow2_le; lia]].
        change (inject_Z 1 <= inject_Z n). rewrite <- Zle_Qle. lia. }
      replace (Z.max (e - 52) (-1074)) with (e - 52)%Z by lia.
      exists (n * 2 ^ (52 - e))%Z. rewrite inject_Z_mult, <- pow2_Z by lia.
      assert (K : pow2 (52 - e) * pow2 (e - 52) == 1).
      { rewrite <- pow2_add. replace (52 - e + (e - 52))%Z with 0%Z by lia. reflexivity. }
      pose proof (pow2_pos (e - 52)).
      set (a := pow2 (e - 52)) in *. set (b := pow2 (52 - e)) in *.
      rewrite <- (Qmult_1_r (inject_Z n)) at 1. rewrite <- K. field. lra. }
  rewrite (round64_exact _ P E).
  - f_equal. apply Qred_identity. cbn. apply Z.gcd_1_r.
  - apply Qle_lt_trans with (pow2 53); [|apply pow2_lt; lia].
    rewrite (pow2_Z 53) by lia. rewrite <- Zle_Qle. exact U.
Qed.

(** ** Order and monotonicity of the operations *)

Lemma fle_Fin p q : fle (Fin p) (Fin q) = true <-> p <= q.
Proof. cbn. apply Qle_bool_iff. Qed.

Lemma flt_Fin p q : flt (Fin p) (Fin q) = true <-> p < q.
Proof.
  cbn. rewrite negb_true_iff. split.
  - intros H. apply Qnot_le_lt. intro X. apply Qle_bool_iff in X. congruence.
  - intros H. destruct (Qle_bool q p) eqn:E; [|reflexivity].
    apply Qle_bool_iff in E. exfalso. lra.
Qed.

Lemma fle_trans a b c : fle a b = true -> fle b c = true -> fle a c = true.
Proof.
  destruct a, b, c; cbn; try discriminate; try reflexivity.
  rewrite !Qle_bool_iff. intros. lra.
Qed.

Lemma flt_fle a b : flt a b = true -> fle a b = true.
Proof.
  destruct a, b; cbn; try discriminate; try reflexivity.
  intros H. apply (flt_Fin q q0) in H. apply Qle_bool_iff. lra.
Qed.

Lemma between_Fin a b x :
  fle (Fin a) x = true -> fle x (Fin b) = true -> exists q, x = Fin q /\ a <= q <= b.
Proof.
  destruct x; cbn; try discriminate.
  rewrite !Qle_bool_iff. intros. exists q. auto.
Qed.

Lemma nonneg_cases a : nonneg a -> a = PInf \/ exists q, a = Fin q /\ 0 <= q.
Proof.
  unfold nonneg. destruct a; cbn; try discriminate; [left; reflexivity|].
  rewrite Qle_bool_iff. intros. right. exists q. auto.
Qed.

Lemma Qcompare_Gt p : 0 < p -> Qcompare p 0 = Gt.
Proof. intros H. destruct (Qcompare_spec p 0); [lra|lra|reflexivity]. Qed.

Lemma fmul_mono a b c :
  nonneg a -> fle a b = true -> 0 < c -> fle (fmul a (Fin c)) (fmul b (Fin c)) = true.
Proof.
  intros Ha Hab Hc.
  destruct (nonneg_cases a Ha) as [->|[p [-> Hp]]].
  - destruct b; try discriminate. cbn. rewrite (Qcompare_Gt c Hc). reflexivity.
  - destruct b as [| | |q]; try discriminate.
    + cbn [fmul]. rewrite (Qcompare_Gt c Hc). cbn.
      destruct (round64 (p * c)) eqn:E; try reflexivity.
      pose proof (round64_nonneg (p * c)) as N. unfold nonneg in N. rewrite E in N.
      apply N. apply Qmult_le_0_compat; lra.
    + apply fle_Fin in Hab. cbn [fmul]. apply round64_mono.
      * apply Qmult_le_0_compat; lra.
      * apply Qmult_le_compat_r; lra.
Qed.

Lemma fmul_nonneg a c : nonneg a -> 0 < c -> nonneg (fmul a (Fin c)).
Proof.
  intros Ha Hc. unfold nonneg.
  assert (E : Fin 0 = fmul (Fin 0) (Fin c)).
  { cbn [fmul]. symmetry. apply round64_zero. ring. }
  rewrite E. apply fmul_mono; [reflexivity | exact Ha | exact Hc].
Qed.

Lemma fdiv_mono a b c :
  nonneg a -> fle a b = true -> 0 < c -> fle (fdiv a (Fin c)) (fdiv b (Fin c)) = true.
Proof.
  intros Ha Hab Hc.
  destruct (nonneg_cases a Ha) as [->|[p [-> Hp]]].
  - destruct b; try discriminate. cbn. rewrite (Qcompare_Gt c Hc). reflexivity.
  - destruct b as [| | |q]; try discriminate.
    + cbn [fdiv]. rewrite (Qcompare_Gt c Hc).
      destruct (round64 (p / c)) eqn:E; try reflexivity.
      pose proof (round64_nonneg (p / c)) as N. unfold nonneg in N. rewrite E in N.
      apply N. apply Qle_shift_div_l; lra.
    + apply fle_Fin in Hab. cbn [fdiv]. rewrite (Qcompare_Gt c Hc). apply round64_mono.
      * apply Qle_shift_div_l; lra.
      * apply Qmult_le_compat_r; [lra|]. apply Qlt_le_weak, Qinv_lt_0_compat. exact Hc.
Qed.

Lemma fdiv_nonneg g a : 0 <= g -> flt (Fin 0) a = true -> nonneg (fdiv (Fin g) a).
Proof.
  intros Hg Ha. destruct a as [| | |p]; try discriminate.
  - reflexivity.
  - apply flt_Fin in Ha. cbn [fdiv]. rewrite (Qcompare_Gt p Ha).
    apply round64_nonneg. apply Qle_shift_div_l; lra.
Qed.

Lemma fdiv_anti g a b :
  0 <= g -> flt (Fin 0) a = true -> fle a b = true ->
  fle (fdiv (Fin g) b) (fdiv (Fin g) a) = true.
Proof.
  intros Hg Ha Hab.
  destruct a as [| | |p]; try discriminate.
  - destruct b; try discriminate. reflexivity.
  - apply flt_Fin in Ha. destruct b as [| | |q]; try discriminate.
    + change (fdiv (Fin g) PInf) with (Fin 0).
      apply (fdiv_nonneg g (Fin p) Hg). apply flt_Fin. exact Ha.
    + apply fle_Fin in Hab. assert (Hq : 0 < q) by lra.
      cbn [fdiv]. rewrite (Qcompare_Gt p Ha), (Qcompare_Gt q Hq).
      apply round64_mono.
      * apply Qle_shift_div_l; lra.
      * apply Qle_shift_div_l; [lra|].
        assert (T : g / q * q == g) by (field; lra).
        assert (T0 : 0 <= g / q) by (apply Qle_shift_div_l; lra).
        rewrite <- T at 2. rewrite !(Qmult_comm (g / q)).
        apply Qmult_le_compat_r; assumption.
Qed.

Lemma Math_round_mono a b : fle a b = true -> fle (Math_round a) (Math_round b) = true.
Proof.
  destruct a as [| | |p], b as [| | |q]; cbn [fle Math_round]; try discriminate; try reflexivity.
  rewrite !Qle_bool_iff. intros H. rewrite <- Zle_Qle.
  apply Qfloor_resp_le. lra.
Qed.

Lemma Math_min_mono a b c :
  fle a b = true -> fle c c = true -> fle (Math_min a c) (Math_min b c) = true.
Proof.
  intros Hab Hc.
  destruct a as [| | |p], b as [| | |q], c as [| | |r]; try discriminate; try reflexivity;
    cbn in *; repeat match goal with |- context [Qle_bool ?x ?y] => destruct (Qle_bool x y) eqn:? end;
    cbn; try reflexivity; try congruence;
    repeat match goal with H : Qle_bool _ _ = true |- _ => apply Qle_bool_iff in H end;
    repeat match goal with H : Qle_bool ?x ?y = false |- _ =>
       assert (y < x) by (apply Qnot_le_lt; intro X; apply Qle_bool_iff in X; congruence); clear H end;
    try (apply Qle_bool_iff; lra); try (exfalso; lra).
Qed.

End NumFacts.

Import NumFacts.

(** ** The sub-scores *)

(** The values of the constants. *)
Lemma CO2_GOAL_eq : CO2_GOAL = Fin q06.
Proof. vm_compute. reflexivity. Qed.
Lemma PLG_eq : PAGE_LOAD_TIME_GOAL_SECONDS = Fin q34.
Proof. vm_compute. reflexivity. Qed.
Lemma SEO_GOAL_eq : SEO_GOAL = Fin 85.
Proof. vm_compute. reflexivity. Qed.
Lemma PW_eq : PERFORMANCE_WEIGHT = Fin q02.
Proof. vm_compute. reflexivity. Qed.
Lemma SW_eq : SEO_WEIGHT = Fin q02.
Proof. vm_compute. reflexivity. Qed.
Lemma CW_eq : CO2_WEIGHT = Fin q04.
Proof. vm_compute. reflexivity. Qed.
Lemma PLW_eq : PAGE_LOAD_TIME_WEIGHT = Fin q02.
Proof. vm_compute. reflexivity. Qed.
Lemma lit_int_eq : lit 0 = Fin 0 /\ lit 100 = Fin 100 /\ lit 1000 = Fin 1000 /\ lit 1024 = Fin 1024.
Proof. vm_compute. repeat split; reflexivity. Qed.
Lemma full_weights : fmul (Fin q04) (Fin 100) = Fin 40 /\ fmul (Fin 100) (Fin q02) = Fin 20.
Proof. vm_compute. split; reflexivity. Qed.

Lemma Math_round_between a b x :
  fle (Fin a) x = true -> fle x (Fin b) = true ->
  exists z, Math_round x = Fin (inject_Z z) /\
            (Qfloor (a + (1 # 2)) <= z <= Qfloor (b + (1 # 2)))%Z.
Proof.
  intros Ha Hb. destruct (between_Fin a b x Ha Hb) as [q [-> [L U]]].
  eexists. split; [reflexivity|]. split; apply Qfloor_resp_le; lra.
Qed.

Lemma co2_term_anti a b :
  flt (Fin 0) a = true -> fle a b = true ->
  fle (Math_round (fmul (fmul (fdiv CO2_GOAL b) (lit 100)) CO2_WEIGHT))
      (Math_round (fmul (fmul (fdiv CO2_GOAL a) (lit 100)) CO2_WEIGHT)) = true.
Proof.
  intros Ha Hab.
  destruct lit_int_eq as [_ [-> _]]. rewrite CO2_GOAL_eq, CW_eq.
  assert (Hb : flt (Fin 0) b = true).
  { destruct a, b; try discriminate; try reflexivity.
    apply flt_Fin in Ha. apply fle_Fin in Hab. apply flt_Fin. lra. }
  assert (G : 0 <= q06) by (unfold q06; unfold Qle; cbn; lia).
  apply Math_round_mono. apply fmul_mono; [| |reflexivity].
  - apply fmul_nonneg; [|reflexivity]. apply fdiv_nonneg; assumption.
  - apply fmul_mono; [| |reflexivity].
    + apply fdiv_nonneg; assumption.
    + apply fdiv_anti; assumption.
Qed.

Lemma positive_not_zero a : flt (Fin 0) a = true -> feq a (lit 0) = false.
Proof.
  destruct lit_int_eq as [-> _].
  destruct a; try discriminate; try reflexivity.
  intros H. apply flt_Fin in H. cbn. destruct (Qeq_bool q 0) eqn:E; [|reflexivity].
  apply Qeq_bool_iff in E. lra.
Qed.

(** C8: for emissions [0 < a <= b] the CO2 sub-score of [b] is at most the
    CO2 sub-score of [a]: the sub-score never increases with the emissions. *)
Theorem co2Score_antitone a b :
  flt (Fin 0) a = true -> fle a b = true -> fle (co2Score b) (co2Score a) = true.
Proof.
  intros Ha Hab.
  assert (Hb : flt (Fin 0) b = true).
  { destruct a, b; try discriminate; try reflexivity.
    apply flt_Fin in Ha. apply fle_Fin in Hab. apply flt_Fin. lra. }
  unfold co2Score. rewrite (positive_not_zero a Ha), (positive_not_zero b Hb).
  apply Math_min_mono.
  - apply co2_term_anti; assumption.
  - rewrite CW_eq. destruct lit_int_eq as [_ [-> _]].
    destruct full_weights as [-> _]. reflexivity.
Qed.

Lemma q34_pos : 0 < q34.
Proof. reflexivity. Qed.

Lemma pageLoadTimeScore_slow scores :
  flt PAGE_LOAD_TIME_GOAL_SECONDS (pageLoadTime scores) = true ->
  pageLoadTimeScore scores =
    Math_round (fmul (fdiv PAGE_LOAD_TIME_GOAL_SECONDS (pageLoadTime scores)) (lit 100)).
Proof.
  intros H. unfold pageLoadTimeScore. rewrite PLG_eq in *.
  destruct (pageLoadTime scores) as [| | |t]; try discriminate.
  - reflexivity.
  - cbn [isNaN]. apply flt_Fin in H.
    destruct (fle (Fin t) (Fin q34)) eqn:E; [|reflexivity].
    apply fle_Fin in E. exfalso. lra.
Qed.

Lemma pageLoadTimeScore_fast scores :
  isNaN (pageLoadTime scores) = true \/
  fle (pageLoadTime scores) PAGE_LOAD_TIME_GOAL_SECONDS = true ->
  pageLoadTimeScore scores = Fin 100.
Proof.
  destruct lit_int_eq as [E0 [E100 _]].
  intros [H|H]; unfold pageLoadTimeScore.
  - rewrite H, E0, E100, PLG_eq. reflexivity.
  - assert (N : isNaN (pageLoadTime scores) = false).
    { rewrite PLG_eq in H. destruct (pageLoadTime scores); try discriminate H; reflexivity. }
    rewrite N, H. exact E100.
Qed.

Lemma weighted_of_100 scores :
  pageLoadTimeScore scores = Fin 100 -> weightedPageLoadTimeScore scores = Fin 20.
Proof.
  intros H. unfold weightedPageLoadTimeScore. rewrite H, PLW_eq.
  destruct full_weights as [_ ->]. reflexivity.
Qed.

Lemma Math_round_nonneg x : nonneg x -> nonneg (Math_round x).
Proof.
  intros H. unfold nonneg. change (Fin 0) with (Math_round (Fin 0)).
  apply Math_round_mono. exact H.
Qed.

Lemma slow_term_bounds t u :
  flt (Fin 0) u = true -> fle u t = true ->
  let term x := Math_round (fmul (Math_round (fmul (fdiv (Fin q34) x) (Fin 100))) (Fin q02)) in
  fle (Fin 0) (term t) = true /\ fle (term t) (term u) = true.
Proof.
  intros Hu Hut term.
  assert (Ht : flt (Fin 0) t = true).
  { destruct u, t; try discriminate; try reflexivity.
    apply flt_Fin in Hu. apply fle_Fin in Hut. apply flt_Fin. lra. }
  assert (G : 0 <= q34) by (apply Qlt_le_weak, q34_pos).
  assert (N : forall x, flt (Fin 0) x = true ->
                        nonneg (Math_round (fmul (fdiv (Fin q34) x) (Fin 100)))).
  { intros x Hx. apply Math_round_nonneg.
    apply fmul_nonneg; [|reflexivity]. apply fdiv_nonneg; assumption. }
  split.
  - unfold term. apply Math_round_nonneg.
    apply fmul_nonneg; [|reflexivity]. apply N. exact Ht.
  - unfold term. apply Math_round_mono. apply fmul_mono; [apply N; exact Ht| |reflexivity].
    apply Math_round_mono. apply fmul_mono; [| |reflexivity].
    + apply fdiv_nonneg; assumption.
    + apply fdiv_anti; assumption.
Qed.

Lemma weighted_slow scores :
  flt PAGE_LOAD_TIME_GOAL_SECONDS (pageLoadTime scores) = true ->
  weightedPageLoadTimeScore scores =
    Math_round (fmul (Math_round (fmul (fdiv (Fin q34) (pageLoadTime scores)) (Fin 100))) (Fin q02)).
Proof.
  intros H. unfold weightedPageLoadTimeScore. rewrite (pageLoadTimeScore_slow _ H).
  rewrite PLG_eq, PLW_eq. destruct lit_int_eq as [_ [-> _]]. reflexivity.
Qed.

(** C3, as amended: the weighted page-load sub-score is 20 for every load time
    up to 3.4 seconds, at most 20 for every load time above 3.4 seconds, and
    strictly less than 20 for every load time of 3.5 seconds or more. *)
Theorem page_load_score_bounds scores :
  (fle (pageLoadTime scores) PAGE_LOAD_TIME_GOAL_SECONDS = true ->
     weightedPageLoadTimeScore scores = Fin 20) /\
  (flt PAGE_LOAD_TIME_GOAL_SECONDS (pageLoadTime scores) = true ->
     fle (weightedPageLoadTimeScore scores) (Fin 20) = true) /\
  (fle (lit (35 # 10)) (pageLoadTime scores) = true ->
     flt (weightedPageLoadTimeScore scores) (Fin 20) = true).
Proof.
  split; [|split].
  - intros H. apply weighted_of_100, pageLoadTimeScore_fast. right. exact H.
  - intros H. rewrite (weighted_slow _ H).
    assert (H' := H). rewrite PLG_eq in H'. apply flt_fle in H'.
    destruct (slow_term_bounds (pageLoadTime scores) (Fin q34) eq_refl H') as [_ U].
    eapply fle_trans; [exact U|]. vm_compute. reflexivity.
  - intros H.
    assert (E35 : lit (35 # 10) = Fin (7 # 2)) by (vm_compute; reflexivity).
    rewrite E35 in H.
    assert (S : flt PAGE_LOAD_TIME_GOAL_SECONDS (pageLoadTime scores) = true).
    { rewrite PLG_eq. destruct (pageLoadTime scores); try discriminate H; try reflexivity.
      apply fle_Fin in H. apply flt_Fin. unfold q34 in *. 
      eapply Qlt_le_trans; [|exact H]. reflexivity. }
    rewrite (weighted_slow _ S).
    destruct (slow_term_bounds (pageLoadTime scores) (Fin (7 # 2)) eq_refl H) as [L U].
    assert (V : Math_round (fmul (Math_round (fmul (fdiv (Fin q34) (Fin (7 # 2))) (Fin 100))) (Fin q02))
                = Fin 19) by (vm_compute; reflexivity).
    cbv zeta in U. rewrite V in U.
    destruct (between_Fin _ _ _ L U) as [q [-> [_ Hq]]].
    apply flt_Fin. eapply Qle_lt_trans; [exact Hq|]. reflexivity.
Qed.

Lemma fadd_int x y lo hi lo' hi' :
  int_between lo hi x -> int_between lo' hi' y ->
  (0 <= lo + lo')%Z -> (hi + hi' <= 2 ^ 53)%Z ->
  int_between (lo + lo') (hi + hi') (fadd x y).
Proof.
  intros [z [-> Hz]] [z' [-> Hz']] L U. exists (z + z')%Z. split; [|lia].
  cbn [fadd]. rewrite (round64_comp _ (inject_Z (z + z'))).
  - apply round64_int. lia.
  - rewrite inject_Z_plus. reflexivity.
Qed.

Lemma performanceScore_range scores :
  fle (Fin 0) (performance scores) = true -> fle (performance scores) (Fin 100) = true ->
  int_between 0 20 (performanceScore scores).
Proof.
  intros L U. unfold performanceScore. rewrite PW_eq.
  assert (A : fle (Fin 0) (fmul (performance scores) (Fin q02)) = true).
  { apply (fmul_nonneg _ q02 L). reflexivity. }
  assert (B : fle (fmul (performance scores) (Fin q02)) (Fin 20) = true).
  { destruct full_weights as [_ <-]. apply fmul_mono; [exact L | exact U | reflexivity]. }
  destruct (Math_round_between _ _ _ A B) as [z [-> Hz]]. exists z. split; [reflexivity|].
  vm_compute in Hz. exact Hz.
Qed.

Lemma seo_upper_value :
  exists q, fmul (Math_min (fdiv (Fin 100) (Fin 85)) (Fin 100)) (Fin q02) = Fin q
            /\ Qfloor (q + (1 # 2)) = 0%Z.
Proof. eexists. split; vm_compute; reflexivity. Qed.

Lemma seoScore_zero scores :
  fle (Fin 0) (seo scores) = true -> fle (seo scores) (Fin 100) = true ->
  seoScore scores = Fin 0.
Proof.
  intros L U. unfold seoScore. rewrite SEO_GOAL_eq, SW_eq.
  destruct lit_int_eq as [_ [-> _]].
  set (r := fdiv (seo scores) (Fin 85)).
  assert (R0 : nonneg r).
  { unfold nonneg. change (Fin 0) with (fdiv (Fin 0) (Fin 85)).
    apply fdiv_mono; [reflexivity | exact L | reflexivity]. }
  assert (R1 : fle r (fdiv (Fin 100) (Fin 85)) = true).
  { apply fdiv_mono; [exact L | exact U | reflexivity]. }
  set (m := Math_min r (Fin 100)).
  assert (M0 : nonneg m).
  { unfold nonneg. change (Fin 0) with (Math_min (Fin 0) (Fin 100)).
    apply Math_min_mono; [exact R0 | reflexivity]. }
  assert (M1 : fle m (Math_min (fdiv (Fin 100) (Fin 85)) (Fin 100)) = true).
  { apply Math_min_mono; [exact R1 | reflexivity]. }
  assert (A : fle (Fin 0) (fmul m (Fin q02)) = true).
  { apply (fmul_nonneg _ q02 M0). reflexivity. }
  assert (B : fle (fmul m (Fin q02))
                  (fmul (Math_min (fdiv (Fin 100) (Fin 85)) (Fin 100)) (Fin q02)) = true).
  { apply fmul_mono; [exact M0 | exact M1 | reflexivity]. }
  destruct seo_upper_value as [c [V Vc]]. rewrite V in B.
  destruct (Math_round_between _ _ _ A B) as [z [-> Hz]].
  rewrite Vc in Hz. change (Qfloor (0 + (1 # 2))) with 0%Z in Hz.
  assert (z = 0%Z) by lia. subst z. reflexivity.
Qed.

Lemma not_fle_flt a b : isNaN a = false -> isNaN b = false -> fle a b = false -> flt b a = true.
Proof.
  destruct a, b; cbn; try discriminate; try reflexivity.
  intros _ _ H. rewrite H. reflexivity.
Qed.

Lemma weightedPageLoadTimeScore_range scores :
  isNaN (pageLoadTime scores) = true \/ fle (Fin 0) (pageLoadTime scores) = true ->
  int_between 0 20 (weightedPageLoadTimeScore scores).
Proof.
  intros V.
  assert (D : (isNaN (pageLoadTime scores) = true \/
               fle (pageLoadTime scores) PAGE_LOAD_TIME_GOAL_SECONDS = true) \/
              flt PAGE_LOAD_TIME_GOAL_SECONDS (pageLoadTime scores) = true).
  { destruct V as [V|V]; [left; left; exact V|].
    destruct (fle (pageLoadTime scores) PAGE_LOAD_TIME_GOAL_SECONDS) eqn:E;
      [left; right; reflexivity|right].
    apply not_fle_flt; [|rewrite PLG_eq; reflexivity|exact E].
    destruct (pageLoadTime scores); try discriminate V; reflexivity. }
  destruct D as [F|S].
  - rewrite (weighted_of_100 _ (pageLoadTimeScore_fast _ F)). exists 20%Z. split; [reflexivity|lia].
  - rewrite (weighted_slow _ S).
    assert (S' := S). rewrite PLG_eq in S'. apply flt_fle in S'.
    destruct (slow_term_bounds (pageLoadTime scores) (Fin q34) eq_refl S') as [L U].
    cbv zeta in L, U.
    set (raw := Math_round (fmul (fdiv (Fin q34) (pageLoadTime scores)) (Fin 100))) in *.
    assert (EV : Math_round (fmul (Math_round (fmul (fdiv (Fin q34) (Fin q34)) (Fin 100))) (Fin q02))
                 = Fin 20) by (vm_compute; reflexivity).
    rewrite EV in U.
    destruct (between_Fin _ _ _ L U) as [q [Eq [Lq Uq]]].
    clear EV. destruct (fmul raw (Fin q02)) as [| | |y] eqn:Ey; try discriminate Eq.
    exists (Qfloor (y + (1 # 2))). split; [reflexivity|].
    clear Eq Lq Uq. cbn [Math_round] in L, U. apply fle_Fin in L, U.
    change 0 with (inject_Z 0) in L. change 20 with (inject_Z 20) in U.
    rewrite <- Zle_Qle in L, U. lia.
Qed.

Lemma co2Score_range co2 :
  fle (Fin 0) co2 = true -> int_between 0 40 (co2Score co2).
Proof.
  intros H. unfold co2Score.
  assert (W : fmul CO2_WEIGHT (lit 100) = Fin 40).
  { rewrite CW_eq. destruct lit_int_eq as [_ [-> _]]. apply full_weights. }
  rewrite W.
  destruct (feq co2 (lit 0)) eqn:E.
  - exists 40%Z. split; [reflexivity|lia].
  - assert (P : flt (Fin 0) co2 = true).
    { destruct lit_int_eq as [E0 _]. rewrite E0 in E.
      destruct co2; try discriminate H; try reflexivity.
      apply fle_Fin in H. apply flt_Fin. cbn in E.
      destruct (Qlt_le_dec 0 q); [assumption|].
      assert (X : Qeq_bool q 0 = true) by (apply Qeq_bool_iff; lra). congruence. }
    assert (N : nonneg (fmul (fmul (fdiv CO2_GOAL co2) (lit 100)) CO2_WEIGHT)).
    { rewrite CO2_GOAL_eq, CW_eq. destruct lit_int_eq as [_ [-> _]].
      apply fmul_nonneg; [|reflexivity]. apply fmul_nonneg; [|reflexivity].
      apply fdiv_nonneg; [|exact P]. unfold q06, Qle; cbn; lia. }
    destruct (nonneg_cases _ N) as [->|[y [-> Hy]]].
    + exists 40%Z. split; [reflexivity|lia].
    + cbn [Math_round Math_min fle].
      assert (F : (0 <= Qfloor (y + (1 # 2)))%Z).
      { change 0%Z with (Qfloor 0). apply Qfloor_resp_le. lra. }
      destruct (Qle_bool (inject_Z (Qfloor (y + (1 # 2)))) 40) eqn:B.
      * eexists. split; [reflexivity|]. split; [exact F|].
        apply Qle_bool_iff in B. change 40 with (inject_Z 40) in B.
        rewrite <- Zle_Qle in B. exact B.
      * exists 40%Z. split; [reflexivity|lia].
Qed.

Lemma ecoScore_range scores co2 :
  valid_measurements scores -> fle (Fin 0) co2 = true ->
  int_between 0 80 (ecoScore scores co2).
Proof.
  intros [P0 [P1 [S0 [S1 T]]]] Hc. unfold ecoScore.
  rewrite (seoScore_zero _ S0 S1).
  assert (Z0 : int_between 0 0 (Fin 0)) by (exists 0%Z; split; [reflexivity|lia]).
  pose proof (fadd_int _ _ _ _ _ _ (performanceScore_range _ P0 P1) Z0) as A.
  specialize (A ltac:(lia) ltac:(lia)).
  pose proof (fadd_int _ _ _ _ _ _ A (weightedPageLoadTimeScore_range _ T)) as B.
  specialize (B ltac:(lia) ltac:(lia)).
  pose proof (fadd_int _ _ _ _ _ _ B (co2Score_range _ Hc)) as D.
  specialize (D ltac:(lia) ltac:(lia)). exact D.
Qed.

Lemma capped_range scores co2 :
  valid_measurements scores -> fle (Fin 0) co2 = true ->
  int_between 0 80 (Math_min (ecoScore scores co2) (lit 100)).
Proof.
  intros V Hc. destruct (ecoScore_range _ _ V Hc) as [z [-> Hz]].
  destruct lit_int_eq as [_ [-> _]]. exists z. split; [|lia].
  cbn [Math_min fle].
  assert (B : Qle_bool (inject_Z z) 100 = true).
  { apply Qle_bool_iff. change 100 with (inject_Z 100). rewrite <- Zle_Qle. lia. }
  rewrite B. reflexivity.
Qed.

(** ** The pipeline and the batch runner *)

Local Open Scope string_scope.

Section ProgramFacts.
Context {World Browser : Type} (C : Collaborators World Browser).

Lemma getServerLocation_total domain (s : State World) :
  exists loc s', getServerLocation C domain s = (inr loc, s').
Proof.
  unfold getServerLocation, try_catch, bind, call, console_error, ret, of_thrown.
  destruct (dns_resolve4 C domain (world s)) as [[t|addresses] w]; cbn.
  - eexists _, _. reflexivity.
  - destruct (axios_get C _ w) as [[t|d] w']; cbn; eexists _, _; reflexivity.
Qed.

Lemma checkGreenHosting_total domain (s : State World) :
  exists g s', checkGreenHosting C domain s = (inr g, s').
Proof.
  unfold checkGreenHosting, try_catch, bind, call, console_error, ret, of_thrown.
  destruct (hosting_check C domain (world s)) as [[t|g] w]; cbn; eexists _, _; reflexivity.
Qed.

Lemma getEcoScore_success url (s : State World) report s' :
  getEcoScore C url s = (inr report, s') ->
  exists lhr s1 trace g,
    runLighthouse C url s = (inr lhr, s1) /\
    perByteTrace C (fmul (fdiv (total_byte_weight lhr) (lit 1024)) (lit 1000)) g None
      = inr trace /\
    Emissions_per_page report = co2 trace /\
    Eco_Score report
      = Math_min (ecoScore (getLighthouseScores lhr) (co2 trace)) (lit 100).
Proof.
  unfold getEcoScore. unfold bind at 1.
  destruct (runLighthouse C url s) as [[e|lhr] s1]; [discriminate|].
  unfold bind at 1. unfold call_pure at 1.
  destruct (URL_hostname C url) as [t|h]; [discriminate|]. cbn [of_thrown].
  unfold bind at 1.
  destruct (getServerLocation_total h s1) as [loc [s2 ->]].
  unfold bind at 1. unfold call_pure at 1. cbn [of_thrown].
  unfold bind at 1.
  destruct (checkGreenHosting_total h s2) as [g [s3 ->]].
  destruct loc as [loc|]; [|discriminate].
  unfold calculateCO2, bind, call_pure, ret.
  destruct (perByteTrace C _ g None) as [t|trace] eqn:E; [discriminate|].
  cbn [of_thrown]. intros H. injection H as <- <-.
  exists lhr, s1, trace, g. repeat split. exact E.
Qed.

(** C9: once the audit has succeeded, [getEcoScore] raises the
    location-unavailable error when [getServerLocation] returned nothing, and
    does not raise it when a location was returned. *)
Theorem location_unavailable url (s : State World) lhr s1 h loc s2 :
  runLighthouse C url s = (inr lhr, s1) ->
  URL_hostname C url = inr h ->
  getServerLocation C h s1 = (inr loc, s2) ->
  (loc = None -> fst (getEcoScore C url s) = inl location_error) /\
  (loc <> None -> fst (getEcoScore C url s) <> inl location_error).
Proof.
  intros HL HU HS.
  destruct (checkGreenHosting_total h s2) as [g [s3 HG]].
  assert (E : getEcoScore C url s =
              match loc with
              | None => (inl location_error, s3)
              | Some l =>
                  match perByteTrace C (fmul (transferSize (getLighthouseScores lhr))
                                             (lit 1000)) g None with
                  | inl t => (inl (External t), s3)
                  | inr trace =>
                      (inr {| Eco_Score :=
                                Math_min (ecoScore (getLighthouseScores lhr) (co2 trace))
                                         (lit 100);
                              Page_Weight := transferSize (getLighthouseScores lhr);
                              Weight_Breakdown :=
                                fold_left (fun o e => assign (fst e) (snd e) o)
                                  (transferSizeBreakdown (getLighthouseScores lhr)) [];
                              Emissions_per_page := co2 trace;
                              Server_Location := country l;
                              Green_Hosting := g |}, s3)
                  end
              end).
  { unfold getEcoScore. unfold bind at 1. rewrite HL.
    unfold bind at 1. unfold call_pure at 1. rewrite HU. cbn [of_thrown].
    unfold bind at 1. rewrite HS.
    unfold bind at 1. unfold call_pure at 1. cbn [of_thrown].
    unfold bind at 1. rewrite HG.
    destruct loc as [l|]; [|reflexivity].
    unfold calculateCO2, bind, call_pure, ret.
    destruct (perByteTrace C _ g None) as [t|trace]; reflexivity. }
  rewrite E. split.
  - intros ->. reflexivity.
  - intros N. destruct loc as [l|]; [|congruence].
    destruct (perByteTrace C _ g None) as [t|trace]; cbn; discriminate.
Qed.

(** C4: the estimate of [calculateCO2] is the same for every country code:
    the options that carry the code are built and never handed to the
    estimator. *)
Theorem calculateCO2_ignores_country pageWeight countryCode countryCode' isGreenHost
  (s : State World) :
  calculateCO2 C pageWeight countryCode isGreenHost s
  = calculateCO2 C pageWeight countryCode' isGreenHost s.
Proof. reflexivity. Qed.

(** The loop over the domains. *)

Lemma process_one_run subdomain (s : State World) :
  let u := formatUrl subdomain in
  let started := snd (writeStream_write ("Calculate for " ++ u ++ ":" ++ LF) s) in
  let r := getEcoScore C u started in
  fst (process_one C subdomain s) = inr tt /\
  written (snd (process_one C subdomain s))
    = (written (snd r) ++ tl (block C u (fst r)))%list /\
  world (snd (process_one C subdomain s)) = world (snd r) /\
  console (snd (process_one C subdomain s)) = console (snd r) /\
  ended (snd (process_one C subdomain s)) = ended (snd r) /\
  stream_error (snd (process_one C subdomain s)) = stream_error (snd r).
Proof.
  intros u started r. subst r started u.
  unfold process_one, try_catch, bind, writeStream_write. cbv beta iota. cbn [snd].
  destruct (getEcoScore C (formatUrl subdomain) _) as [[e|report] s1];
    cbn [fst snd block tl written world console ended stream_error].
  - repeat split.
  - rewrite <- app_assoc. repeat split.
Qed.

Lemma keeps_ret A (a : A) : keeps_written (@ret World A a).
Proof. intros s. reflexivity. Qed.

Lemma keeps_throw A e : keeps_written (@throw World A e).
Proof. intros s. reflexivity. Qed.

Lemma keeps_call A (f : World -> (string + A) * World) : keeps_written (call f).
Proof. intros s. unfold call. destruct (f (world s)). reflexivity. Qed.

Lemma keeps_call_pure A (r : string + A) : keeps_written (@call_pure World A r).
Proof. intros s. reflexivity. Qed.

Lemma keeps_console_error message e : keeps_written (@console_error World message e).
Proof. intros s. reflexivity. Qed.

Lemma keeps_bind A B (m : M World A) (k : A -> M World B) :
  keeps_written m -> (forall a, keeps_written (k a)) -> keeps_written (bind m k).
Proof.
  intros Hm Hk s. unfold bind. specialize (Hm s).
  destruct (m s) as [[e|a] s1]; cbn in *; [exact Hm|].
  rewrite (Hk a s1). exact Hm.
Qed.

Lemma keeps_try_catch A (m : M World A) (h : error -> M World A) :
  keeps_written m -> (forall e, keeps_written (h e)) -> keeps_written (try_catch m h).
Proof.
  intros Hm Hh s. unfold try_catch. specialize (Hm s).
  destruct (m s) as [[e|a] s1]; cbn in *; [|exact Hm].
  rewrite (Hh e s1). exact Hm.
Qed.

Create HintDb keeps.
#[local] Hint Resolve keeps_ret keeps_throw keeps_call keeps_call_pure keeps_console_error : keeps.

Ltac keeps :=
  repeat first
    [ apply keeps_bind; [|intros ?]
    | apply keeps_try_catch; [|intros ?]
    | solve [auto with keeps] ].

Lemma getEcoScore_keeps_written url : keeps_written (getEcoScore C url).
Proof.
  unfold getEcoScore, runLighthouse, getServerLocation, checkGreenHosting, calculateCO2.
  keeps.
  match goal with |- keeps_written (match ?x with _ => _ end) => destruct x end; keeps.
Qed.

Lemma process_one_written subdomain (s : State World) :
  fst (process_one C subdomain s) = inr tt /\
  written (snd (process_one C subdomain s))
    = (written s ++ block_of C (formatUrl subdomain,
          fst (getEcoScore C (formatUrl subdomain)
                 (snd (writeStream_write
                         ("Calculate for " ++ formatUrl subdomain ++ ":" ++ LF) s)))))%list.
Proof.
  destruct (process_one_run subdomain s) as [R [W _]]. split; [exact R|].
  cbv zeta in W. rewrite W, getEcoScore_keeps_written.
  unfold block_of. cbn [fst snd block tl writeStream_write written].
  rewrite <- app_assoc. reflexivity.
Qed.

Lemma for_of_run l : forall s : State World,
  fst (for_of l (process_one C) s) = inr tt /\
  written (snd (for_of l (process_one C) s))
    = (written s ++ flat_map (block_of C) (outcomes C l s))%list.
Proof.
  induction l as [|d rest IH]; intros s.
  - cbn. rewrite app_nil_r. split; reflexivity.
  - destruct (process_one_written d s) as [R W].
    cbn [for_of outcomes flat_map]. unfold bind.
    destruct (process_one C d s) as [[e|[]] s1]; [discriminate R|].
    cbn [snd] in *. destruct (IH s1) as [R' W']. split; [exact R'|].
    rewrite W', W, <- app_assoc. reflexivity.
Qed.


Lemma processSubdomains_run
    filePath outputFilePath (s : State World) failure w0 data w :
  createWriteStream C outputFilePath (world s) = (failure, w0) ->
  readFileSync C filePath w0 = (inr data, w) ->
  let s0 := {| world := w; console := console s; written := written s;
               ended := false; stream_error := option_map External failure |} in
  let s1 := snd (for_of (subdomains_of data) (process_one C) s0) in
  processSubdomains C filePath outputFilePath s
  = (inr tt, {| world := world s1; console := console s1;
                written := written s1; ended := true;
                stream_error := stream_error s1 |}).
Proof.
  intros HC H s0 s1. subst s1.
  destruct (for_of_run (subdomains_of data) s0) as [R _].
  unfold processSubdomains. unfold bind at 1. unfold fs_createWriteStream.
  rewrite HC. unfold try_finally, try_catch.
  unfold bind at 1. unfold call. cbn [world]. rewrite H. cbn [of_thrown].
  cbn [console written ended stream_error]. fold s0.
  destruct (for_of (subdomains_of data) (process_one C) s0) as [[e|[]] s1];
    [discriminate R|]. reflexivity.
Qed.


Lemma processSubdomains_unreadable
    filePath outputFilePath (s : State World) failure w0 t w :
  createWriteStream C outputFilePath (world s) = (failure, w0) ->
  readFileSync C filePath w0 = (inl t, w) ->
  processSubdomains C filePath outputFilePath s
  = (inr tt, {| world := w;
                console := (console s ++
                  [("Error reading subdomains file:", Some (External t))])%list;
                written := written s; ended := true;
                stream_error := option_map External failure |}).
Proof.
  intros HC H. unfold processSubdomains. unfold bind at 1.
  unfold fs_createWriteStream. rewrite HC. unfold try_finally, try_catch.
  unfold bind at 1. unfold call. cbn [world]. rewrite H. reflexivity.
Qed.

(** C7, as amended: when the input file cannot be read, [processSubdomains]
    returns without a block appended to the output, with the error reported
    on the console and the output stream closed; the process then ends with
    status 0 when the output stream is sound, and with status 1 only when the
    output stream has failed. *)
Theorem unreadable_input
    argv (s : State World) subdomainsFilePath outputFilePath failure w0 t w :
  urls (parseArgs argv) = Some subdomainsFilePath ->
  scoresfile (parseArgs argv) = Some outputFilePath ->
  createWriteStream C (path_resolve C outputFilePath) (world s) = (failure, w0) ->
  readFileSync C (path_resolve C subdomainsFilePath) w0 = (inl t, w) ->
  let run := processSubdomains C (path_resolve C subdomainsFilePath)
                               (path_resolve C outputFilePath) s in
  fst run = inr tt /\
  written (snd run) = written s /\
  ended (snd run) = true /\
  console (snd run)
    = (console s ++ [("Error reading subdomains file:", Some (External t))])%list /\
  (failure = None -> main C argv s = Exited 0%Z (snd run)) /\
  (forall e, failure = Some e -> main C argv s = Uncaught (External e)) /\
  exit_status (main C argv s) = match failure with None => 0%Z | Some _ => 1%Z end.
Proof.
  intros HU HO HC HR run. subst run. unfold main. rewrite HU, HO.
  rewrite (processSubdomains_unreadable _ _ _ _ _ _ _ HC HR).
  cbn [fst snd written ended console stream_error].
  repeat split.
  - intros ->. reflexivity.
  - intros e ->. reflexivity.
  - destruct failure; reflexivity.
Qed.



(** C1: the range holds, the top of it is never reached.  When the
    measurements satisfy the preconditions of the data model and the
    emissions are not negative, the eco score of the report is an integer
    between 0 and 80, hence between 0 and 100; the sum of the sub-scores is
    itself between 0 and 80, so the cap at 100 never acts.  The best audit
    the data model allows (performance 100 %, SEO 100 %, first paint at 0 s,
    emissions 0 g) is reported with an eco score of 80, not 100: the
    performance, page-load and CO2 sub-scores are at their full 20, 20 and
    40, and the SEO sub-score is 0. *)
Theorem eco_score_range :
  (forall url (s : State World) report s' lhr s1,
     getEcoScore C url s = (inr report, s') ->
     runLighthouse C url s = (inr lhr, s1) ->
     valid_measurements (getLighthouseScores lhr) ->
     fle (Fin 0) (Emissions_per_page report) = true ->
     int_between 0 80 (Eco_Score report)) /\
  (forall scores co2,
     valid_measurements scores -> fle (Fin 0) co2 = true ->
     int_between 0 80 (ecoScore scores co2)) /\
  (valid_measurements (getLighthouseScores best_lhr) /\
   performance (getLighthouseScores best_lhr) = Fin 100 /\
   seo (getLighthouseScores best_lhr) = Fin 100 /\
   pageLoadTime (getLighthouseScores best_lhr) = Fin 0 /\
   performanceScore (getLighthouseScores best_lhr) = Fin 20 /\
   seoScore (getLighthouseScores best_lhr) = Fin 0 /\
   weightedPageLoadTimeScore (getLighthouseScores best_lhr) = Fin 20 /\
   co2Score (Fin 0) = Fin 40 /\
   getEcoScore demo_best "http://a.example" initial
     = (inr (best_report (Fin 80)), initial)).
Proof.
  split.
  - intros url s report s' lhr s1 HG HL V P.
    destruct (getEcoScore_success url s report s' HG)
      as [lhr' [s1' [trace [g [HL' [_ [HE HS]]]]]]].
    rewrite HL in HL'. injection HL' as <- <-.
    rewrite HS. rewrite HE in P. apply capped_range; assumption.
  - split; [exact ecoScore_range|].
    assert (V : valid_measurements (getLighthouseScores best_lhr))
      by (vm_compute; repeat split; right; reflexivity).
    split; [exact V|]. vm_compute. repeat split.
Qed.

End ProgramFacts.

(** ** URL normalisation *)

Lemma startsWith_append p url : startsWith (p ++ url) p = true.
Proof.
  unfold startsWith. induction p as [|c p IH]; cbn.
  - destruct url; reflexivity.
  - destruct (ascii_dec c c) as [_|N]; [exact IH | congruence].
Qed.

(** C10: a line that starts with neither [http://] nor [https://] gets
    [http://] put in front of it, whatever other scheme it starts with, so
    [ftp://example.com] becomes [http://ftp://example.com]; and normalising
    twice is the same as normalising once. *)
Theorem formatUrl_other_scheme :
  (forall url,
     startsWith url "http://" = false -> startsWith url "https://" = false ->
     formatUrl url = "http://" ++ url) /\
  formatUrl "ftp://example.com" = "http://ftp://example.com" /\
  (forall url, formatUrl (formatUrl url) = formatUrl url).
Proof.
  split; [|split].
  - intros url H1 H2. unfold formatUrl. rewrite H1, H2. reflexivity.
  - reflexivity.
  - intros url. unfold formatUrl at 2.
    destruct (negb (startsWith url "http://") && negb (startsWith url "https://")) eqn:E.
    + unfold formatUrl. rewrite (startsWith_append "http://" url), E. reflexivity.
    + reflexivity.
Qed.

(** ** The script on examples *)

(** C2: as the code stands, the SEO sub-score is 0 for an SEO percentage of
    85 and 2 for an SEO percentage of 1000: the ratio to the goal is weighted
    without being scaled to a percentage first. *)
Theorem seo_sub_score_values :
  seoScore (scores_of (Fin 0) (Fin 85) (Fin 0)) = Fin 0 /\
  seoScore (scores_of (Fin 0) (Fin 1000) (Fin 0)) = Fin 2.
Proof. vm_compute. split; reflexivity. Qed.

(** C5: for a page of 1024 bytes the estimator is handed 1000 bytes: the
    weight is divided by 1024 and then multiplied by 1000. *)
Theorem estimator_receives_1000_bytes :
  fmul (transferSize (getLighthouseScores (demo_lhr (Fin (1 # 2)) (Fin 1024))))
       (lit 1000) = Fin 1000 /\
  getEcoScore demo_valid "http://a.example" initial
  = (inr (demo_report (Fin 30) (Fin 1) (Fin 1000)), initial).
Proof. vm_compute. split; reflexivity. Qed.

(** C3, as stated, fails: 3.4375 seconds is above the goal of 3.4 seconds and
    the weighted page-load sub-score is still 20. *)
Lemma page_load_not_strictly_less :
  lit (55 # 16) = Fin (55 # 16) /\
  ~ (forall scores,
       flt PAGE_LOAD_TIME_GOAL_SECONDS (pageLoadTime scores) = true ->
       flt (weightedPageLoadTimeScore scores) (Fin 20) = true).
Proof.
  split; [vm_compute; reflexivity|].
  intros H. specialize (H (scores_of (Fin 0) (Fin 0) (Fin (55 # 16)))).
  vm_compute in H. discriminate (H eq_refl).
Qed.

(** C7, as stated, fails: with an input file that cannot be read and an
    output file that can be opened, the process ends with status 0. *)
Lemma unreadable_input_exit_status :
  ~ (forall (World Browser : Type) (C : Collaborators World Browser)
            argv (s : State World) subdomainsFilePath outputFilePath failure w0 t w,
       urls (parseArgs argv) = Some subdomainsFilePath ->
       scoresfile (parseArgs argv) = Some outputFilePath ->
       createWriteStream C (path_resolve C outputFilePath) (world s) = (failure, w0) ->
       readFileSync C (path_resolve C subdomainsFilePath) w0 = (inl t, w) ->
       exit_status (main C argv s) <> 0%Z).
Proof.
  intros H.
  apply (H unit unit demo_valid (demo_argv "missing.txt") initial
           "missing.txt" "scores.txt" None tt
           "Error: ENOENT: no such file or directory" tt
           eq_refl eq_refl eq_refl eq_refl).
  vm_compute. reflexivity.
Qed.

(** C1 on the two audits: the ordinary one is reported with 30, the best
    one with 80. *)
Lemma eco_score_range_witness :
  (getEcoScore demo_valid "http://a.example" initial
     = (inr (demo_report (Fin 30) (Fin 1) (Fin 1000)), initial) /\
   valid_measurements (getLighthouseScores (demo_lhr (Fin (1 # 2)) (Fin 1024))) /\
   int_between 0 80 (Eco_Score (demo_report (Fin 30) (Fin 1) (Fin 1000)))) /\
  (getEcoScore demo_best "http://a.example" initial
     = (inr (best_report (Fin 80)), initial) /\
   valid_measurements (getLighthouseScores best_lhr) /\
   int_between 0 80 (Eco_Score (best_report (Fin 80)))).
Proof.
  assert (G1 : getEcoScore demo_valid "http://a.example" initial
               = (inr (demo_report (Fin 30) (Fin 1) (Fin 1000)), initial))
    by (vm_compute; reflexivity).
  assert (L1 : runLighthouse demo_valid "http://a.example" initial
               = (inr (demo_lhr (Fin (1 # 2)) (Fin 1024)), initial))
    by (vm_compute; reflexivity).
  assert (V1 : valid_measurements (getLighthouseScores (demo_lhr (Fin (1 # 2)) (Fin 1024))))
    by (vm_compute; repeat split; right; reflexivity).
  assert (L2 : runLighthouse demo_best "http://a.example" initial
               = (inr best_lhr, initial))
    by (vm_compute; reflexivity).
  destruct (proj2 (proj2 (eco_score_range demo_best)))
    as [V2 [_ [_ [_ [_ [_ [_ [_ G2]]]]]]]].
  split.
  - split; [exact G1|]. split; [exact V1|].
    apply (proj1 (eco_score_range demo_valid) _ _ _ _ _ _ G1 L1 V1).
    vm_compute. reflexivity.
  - split; [exact G2|]. split; [exact V2|].
    apply (proj1 (eco_score_range demo_best) _ _ _ _ _ _ G2 L2 V2).
    vm_compute. reflexivity.
Defined.

(** C3 at load times of 2, 3.4375 and 4 seconds. *)
Lemma page_load_score_bounds_witness :
  (fle (Fin 2) PAGE_LOAD_TIME_GOAL_SECONDS = true /\
   weightedPageLoadTimeScore (scores_of (Fin 0) (Fin 0) (Fin 2)) = Fin 20) /\
  (flt PAGE_LOAD_TIME_GOAL_SECONDS (Fin (55 # 16)) = true /\
   fle (weightedPageLoadTimeScore (scores_of (Fin 0) (Fin 0) (Fin (55 # 16))))
       (Fin 20) = true) /\
  (fle (lit (35 # 10)) (Fin 4) = true /\
   flt (weightedPageLoadTimeScore (scores_of (Fin 0) (Fin 0) (Fin 4))) (Fin 20) = true).
Proof.
  assert (H1 : fle (Fin 2) PAGE_LOAD_TIME_GOAL_SECONDS = true) by (vm_compute; reflexivity).
  assert (H2 : flt PAGE_LOAD_TIME_GOAL_SECONDS (Fin (55 # 16)) = true)
    by (vm_compute; reflexivity).
  assert (H3 : fle (lit (35 # 10)) (Fin 4) = true) by (vm_compute; reflexivity).
  split; [|split].
  - split; [exact H1|].
    exact (proj1 (page_load_score_bounds (scores_of (Fin 0) (Fin 0) (Fin 2))) H1).
  - split; [exact H2|].
    exact (proj1 (proj2 (page_load_score_bounds
                           (scores_of (Fin 0) (Fin 0) (Fin (55 # 16))))) H2).
  - split; [exact H3|].
    exact (proj2 (proj2 (page_load_score_bounds (scores_of (Fin 0) (Fin 0) (Fin 4)))) H3).
Defined.

(** C8 at emissions of 1 and 2 grams. *)
Lemma co2Score_antitone_witness :
  flt (Fin 0) (Fin 1) = true /\ fle (Fin 1) (Fin 2) = true /\
  fle (co2Score (Fin 2)) (co2Score (Fin 1)) = true.
Proof.
  split; [reflexivity|]. split; [reflexivity|].
  apply (co2Score_antitone (Fin 1) (Fin 2)); reflexivity.
Defined.


(** C7 on an input file that does not exist, with an output file that can be
    opened and with one that cannot. *)
Lemma unreadable_input_witness :
  (urls (parseArgs (demo_argv "missing.txt")) = Some "missing.txt" /\
   scoresfile (parseArgs (demo_argv "missing.txt")) = Some "scores.txt" /\
   main demo_valid (demo_argv "missing.txt") initial
   = Exited 0%Z
       {| world := tt;
          console := [("Error reading subdomains file:",
                       Some (External "Error: ENOENT: no such file or directory"))];
          written := []; ended := true; stream_error := None |}) /\
  (scoresfile (parseArgs (demo_argv_locked "missing.txt")) = Some "/locked/scores.txt" /\
   main demo_valid (demo_argv_locked "missing.txt") initial
   = Uncaught (External "Error: EACCES: permission denied, open '/locked/scores.txt'") /\
   exit_status (main demo_valid (demo_argv_locked "missing.txt") initial) = 1%Z).
Proof.
  split.
  - split; [reflexivity|]. split; [reflexivity|].
    destruct (unreadable_input demo_valid (demo_argv "missing.txt") initial
                "missing.txt" "scores.txt" None tt
                "Error: ENOENT: no such file or directory" tt
                eq_refl eq_refl eq_refl eq_refl) as [_ [_ [_ [_ [E _]]]]].
    rewrite (E eq_refl). vm_compute. reflexivity.
  - split; [reflexivity|].
    destruct (unreadable_input demo_valid (demo_argv_locked "missing.txt") initial
                "missing.txt" "/locked/scores.txt"
                (Some "Error: EACCES: permission denied, open '/locked/scores.txt'") tt
                "Error: ENOENT: no such file or directory" tt
                eq_refl eq_refl eq_refl eq_refl) as [_ [_ [_ [_ [_ [U X]]]]]].
    split; [exact (U _ eq_refl) | exact X].
Defined.

(** C9 on a domain that does not resolve and on one that does. *)
Lemma location_unavailable_witness :
  getServerLocation demo_valid "nowhere.example" initial
    = (inr None,
       {| world := tt;
          console := [("Error fetching server location for nowhere.example:",
                       Some (External "Error: queryA ENOTFOUND nowhere.example"))];
          written := []; ended := false; stream_error := None |}) /\
  fst (getEcoScore demo_valid "http://nowhere.example" initial) = inl location_error /\
  fst (getEcoScore demo_valid "http://a.example" initial) <> inl location_error.
Proof.
  split; [vm_compute; reflexivity|]. split.
  - refine (proj1 (location_unavailable demo_valid "http://nowhere.example" initial
                     (demo_lhr (Fin (1 # 2)) (Fin 1024)) initial "nowhere.example" None
                     _ _ _ _) eq_refl); vm_compute; reflexivity.
  - refine (proj2 (location_unavailable demo_valid "http://a.example" initial
                     (demo_lhr (Fin (1 # 2)) (Fin 1024)) initial "a.example"
                     (Some {| country := "Portugal"; region := "Lisbon";
                              city := "Lisbon" |})
                     initial _ _ _) _); try (vm_compute; reflexivity).
    discriminate.
Defined.

(** C10 on [ftp://example.com]. *)
Lemma formatUrl_other_scheme_witness :
  startsWith "ftp://example.com" "http://" = false /\
  startsWith "ftp://example.com" "https://" = false /\
  formatUrl "ftp://example.com" = "http://" ++ "ftp://example.com".
Proof.
  split; [reflexivity|]. split; [reflexivity|].
  apply (proj1 formatUrl_other_scheme); reflexivity.
Defined.

(** * Further properties *)

Local Close Scope string_scope.
Local Open Scope Q_scope.

(** ** The sub-scores and the eco score *)

Lemma co2_full_weight : fmul CO2_WEIGHT (lit 100) = Fin 40.
Proof. vm_compute. reflexivity. Qed.

Lemma co2_term_at_goal :
  Math_round (fmul (fmul (fdiv CO2_GOAL CO2_GOAL) (lit 100)) CO2_WEIGHT) = Fin 40.
Proof. vm_compute. reflexivity. Qed.

Lemma nonneg_zero_or_positive a :
  fle (Fin 0) a = true -> feq a (lit 0) = true \/ flt (Fin 0) a = true.
Proof.
  destruct lit_int_eq as [-> _].
  destruct a as [| | |q]; intros H; try discriminate H.
  - right. reflexivity.
  - apply fle_Fin in H. cbn [feq]. destruct (Qeq_bool q 0) eqn:E; [left; reflexivity|right].
    apply flt_Fin. destruct (Qlt_le_dec 0 q); [assumption|].
    assert (X : Qeq_bool q 0 = true) by (apply Qeq_bool_iff; lra). congruence.
Qed.

Lemma fle_antisym_int z x :
  fle (Fin (inject_Z z)) (Math_round x) = true ->
  fle (Math_round x) (Fin (inject_Z z)) = true ->
  Math_round x = Fin (inject_Z z).
Proof.
  destruct x as [| | |q]; cbn [Math_round]; intros A B; try discriminate A; try discriminate B.
  apply fle_Fin in A, B. rewrite <- Zle_Qle in A, B. f_equal. f_equal. lia.
Qed.

Lemma co2Score_at_goal_or_below co2 :
  fle (Fin 0) co2 = true -> fle co2 CO2_GOAL = true -> co2Score co2 = Fin 40.
Proof.
  intros H0 HG. unfold co2Score. rewrite co2_full_weight.
  destruct (nonneg_zero_or_positive co2 H0) as [Z|P]; [rewrite Z; reflexivity|].
  rewrite (positive_not_zero co2 P).
  pose proof (co2_term_anti co2 CO2_GOAL P HG) as A. rewrite co2_term_at_goal in A.
  set (x := fmul (fmul (fdiv CO2_GOAL co2) (lit 100)) CO2_WEIGHT) in *.
  destruct (fle (Math_round x) (Fin 40)) eqn:B.
  - rewrite (fle_antisym_int 40 x A B). reflexivity.
  - destruct (Math_round x) as [| | |q]; try discriminate A; cbn [Math_min]; rewrite ?B; reflexivity.
Qed.

Lemma co2Score_anti a b :
  fle (Fin 0) a = true -> fle a b = true -> fle (co2Score b) (co2Score a) = true.
Proof.
  intros H0 Hab.
  assert (Hb : fle (Fin 0) b = true) by (eapply fle_trans; eassumption).
  destruct (nonneg_zero_or_positive a H0) as [Z|P].
  - destruct (co2Score_range b Hb) as [z [-> Hz]].
    unfold co2Score. rewrite Z, co2_full_weight.
    apply fle_Fin. change 40 with (inject_Z 40). rewrite <- Zle_Qle. lia.
  - assert (Pb : flt (Fin 0) b = true).
    { destruct a, b; try discriminate; try reflexivity.
      apply flt_Fin in P. apply fle_Fin in Hab. apply flt_Fin. lra. }
    unfold co2Score. rewrite (positive_not_zero a P), (positive_not_zero b Pb).
    apply Math_min_mono; [apply co2_term_anti; assumption|].
    rewrite co2_full_weight. reflexivity.
Qed.

Lemma performanceScore_mono s1 s2 :
  fle (Fin 0) (performance s1) = true ->
  fle (performance s1) (performance s2) = true ->
  fle (performanceScore s1) (performanceScore s2) = true.
Proof.
  intros H0 H. unfold performanceScore. rewrite PW_eq.
  apply Math_round_mono. apply fmul_mono; [exact H0 | exact H | reflexivity].
Qed.

Lemma weighted_at_most_20 s :
  isNaN (pageLoadTime s) = false ->
  fle (weightedPageLoadTimeScore s) (Fin 20) = true.
Proof.
  intros N.
  destruct (fle (pageLoadTime s) PAGE_LOAD_TIME_GOAL_SECONDS) eqn:E.
  - rewrite (weighted_of_100 _ (pageLoadTimeScore_fast _ (or_intror E))). reflexivity.
  - assert (S : flt PAGE_LOAD_TIME_GOAL_SECONDS (pageLoadTime s) = true).
    { apply not_fle_flt; [exact N | rewrite PLG_eq; reflexivity | exact E]. }
    rewrite (weighted_slow _ S).
    assert (S' := S). rewrite PLG_eq in S'. apply flt_fle in S'.
    destruct (slow_term_bounds (pageLoadTime s) (Fin q34) eq_refl S') as [_ U].
    eapply fle_trans; [exact U|]. vm_compute. reflexivity.
Qed.

Lemma weighted_slow_anti s1 s2 :
  flt PAGE_LOAD_TIME_GOAL_SECONDS (pageLoadTime s2) = true ->
  fle (pageLoadTime s2) (pageLoadTime s1) = true ->
  fle (weightedPageLoadTimeScore s1) (weightedPageLoadTimeScore s2) = true.
Proof.
  intros S2 H.
  assert (S1 : flt PAGE_LOAD_TIME_GOAL_SECONDS (pageLoadTime s1) = true).
  { rewrite PLG_eq in *.
    destruct (pageLoadTime s1) as [| | |t1], (pageLoadTime s2) as [| | |t2];
      try discriminate H; try discriminate S2; try reflexivity.
    apply flt_Fin in S2. apply fle_Fin in H. apply flt_Fin. lra. }
  rewrite (weighted_slow _ S1), (weighted_slow _ S2).
  assert (P2 : flt (Fin 0) (pageLoadTime s2) = true).
  { rewrite PLG_eq in S2.
    destruct (pageLoadTime s2) as [| | |t2]; try discriminate S2; try reflexivity.
    apply flt_Fin in S2. apply flt_Fin. pose proof q34_pos. lra. }
  exact (proj2 (slow_term_bounds (pageLoadTime s1) (pageLoadTime s2) P2 H)).
Qed.

Lemma weighted_anti s1 s2 :
  isNaN (pageLoadTime s1) = false ->
  isNaN (pageLoadTime s2) = true \/ fle (pageLoadTime s2) (pageLoadTime s1) = true ->
  fle (weightedPageLoadTimeScore s1) (weightedPageLoadTimeScore s2) = true.
Proof.
  intros N1 [N2|H].
  - rewrite (weighted_of_100 s2 (pageLoadTimeScore_fast _ (or_introl N2))).
    apply weighted_at_most_20. exact N1.
  - destruct (fle (pageLoadTime s2) PAGE_LOAD_TIME_GOAL_SECONDS) eqn:E2.
    + rewrite (weighted_of_100 s2 (pageLoadTimeScore_fast _ (or_intror E2))).
      apply weighted_at_most_20. exact N1.
    + apply weighted_slow_anti; [|exact H].
      apply not_fle_flt; [|rewrite PLG_eq; reflexivity|exact E2].
      destruct (pageLoadTime s2); try discriminate H; reflexivity.
Qed.

Lemma fadd_int_eq a b :
  (0 <= a + b <= 2 ^ 53)%Z ->
  fadd (Fin (inject_Z a)) (Fin (inject_Z b)) = Fin (inject_Z (a + b)).
Proof.
  intros H. cbn [fadd]. rewrite (round64_comp _ (inject_Z (a + b))).
  - apply round64_int. exact H.
  - rewrite inject_Z_plus. reflexivity.
Qed.

Lemma int_le a b : fle (Fin (inject_Z a)) (Fin (inject_Z b)) = true -> (a <= b)%Z.
Proof. intros H. apply fle_Fin in H. rewrite <- Zle_Qle in H. exact H. Qed.

Lemma eco_score_value scores co2 :
  valid_measurements scores -> fle (Fin 0) co2 = true ->
  exists p w k,
    performanceScore scores = Fin (inject_Z p) /\
    weightedPageLoadTimeScore scores = Fin (inject_Z w) /\
    co2Score co2 = Fin (inject_Z k) /\
    (0 <= p <= 20)%Z /\ (0 <= w <= 20)%Z /\ (0 <= k <= 40)%Z /\
    Math_min (ecoScore scores co2) (lit 100) = Fin (inject_Z (p + w + k)).
Proof.
  intros [P0 [P1 [S0 [S1 T]]]] Hc.
  destruct (performanceScore_range _ P0 P1) as [p [Ep Hp]].
  destruct (weightedPageLoadTimeScore_range _ T) as [w [Ew Hw]].
  destruct (co2Score_range _ Hc) as [k [Ek Hk]].
  exists p, w, k. repeat (split; [assumption|]).
  unfold ecoScore. rewrite (seoScore_zero _ S0 S1), Ep, Ew, Ek.
  change (Fin 0) with (Fin (inject_Z 0)).
  rewrite (fadd_int_eq p 0) by lia. rewrite (fadd_int_eq (p + 0) w) by lia.
  rewrite (fadd_int_eq (p + 0 + w) k) by lia.
  replace (p + 0 + w + k)%Z with (p + w + k)%Z by lia.
  destruct lit_int_eq as [_ [-> _]]. cbn [Math_min fle].
  assert (B : Qle_bool (inject_Z (p + w + k)) 100 = true).
  { apply Qle_bool_iff. change 100 with (inject_Z 100). rewrite <- Zle_Qle. lia. }
  rewrite B. reflexivity.
Qed.

(** X4: on measurements within the data model, an audit that is no worse in
    any signal (performance not lower, load time not higher, emissions not
    higher) never gets a lower eco score. *)
Theorem eco_score_monotone s1 s2 c1 c2 :
  valid_measurements s1 -> valid_measurements s2 ->
  fle (performance s1) (performance s2) = true ->
  (isNaN (pageLoadTime s2) = true \/
   fle (pageLoadTime s2) (pageLoadTime s1) = true) ->
  fle (Fin 0) c2 = true -> fle c2 c1 = true ->
  fle (Math_min (ecoScore s1 c1) (lit 100))
      (Math_min (ecoScore s2 c2) (lit 100)) = true.
Proof.
  intros V1 V2 HP HT H0 HC.
  assert (H1 : fle (Fin 0) c1 = true) by (eapply fle_trans; eassumption).
  destruct (eco_score_value s1 c1 V1 H1) as [p1 [w1 [k1 [Ep1 [Ew1 [Ek1 [Bp1 [Bw1 [Bk1 E1]]]]]]]]].
  destruct (eco_score_value s2 c2 V2 H0) as [p2 [w2 [k2 [Ep2 [Ew2 [Ek2 [Bp2 [Bw2 [Bk2 E2]]]]]]]]].
  rewrite E1, E2. apply fle_Fin. rewrite <- Zle_Qle.
  assert (Lp : (p1 <= p2)%Z).
  { apply int_le. rewrite <- Ep1, <- Ep2. apply performanceScore_mono; [apply V1 | exact HP]. }
  assert (Lk : (k1 <= k2)%Z).
  { apply int_le. rewrite <- Ek1, <- Ek2. apply co2Score_anti; assumption. }
  assert (Lw : (w1 <= w2)%Z).
  { apply int_le. rewrite <- Ew1, <- Ew2.
    destruct (isNaN (pageLoadTime s1)) eqn:N1.
    - assert (N2 : isNaN (pageLoadTime s2) = true).
      { destruct HT as [N2|HT]; [exact N2|].
        destruct (pageLoadTime s1); try discriminate N1.
        destruct (pageLoadTime s2); discriminate HT. }
      rewrite (weighted_of_100 s1 (pageLoadTimeScore_fast _ (or_introl N1))).
      rewrite (weighted_of_100 s2 (pageLoadTimeScore_fast _ (or_introl N2))). reflexivity.
    - apply weighted_anti; assumption. }
  lia.
Qed.

(** X5: on measurements within the data model the eco score is an integer
    between 0 and 80, and it is exactly 80 when the performance is 100, the
    load time is within its goal (or unknown) and the emissions are within
    theirs. *)
Theorem eco_score_ceiling scores co2 :
  valid_measurements scores -> fle (Fin 0) co2 = true ->
  int_between 0 80 (Math_min (ecoScore scores co2) (lit 100)) /\
  (performance scores = Fin 100 ->
   isNaN (pageLoadTime scores) = true \/
     fle (pageLoadTime scores) PAGE_LOAD_TIME_GOAL_SECONDS = true ->
   fle co2 CO2_GOAL = true ->
   Math_min (ecoScore scores co2) (lit 100) = Fin 80).
Proof.
  intros V Hc.
  destruct (eco_score_value scores co2 V Hc) as [p [w [k [Ep [Ew [Ek [Bp [Bw [Bk E]]]]]]]]].
  rewrite E. split.
  - exists (p + w + k)%Z. split; [reflexivity|lia].
  - intros HP HT HG.
    assert (p = 20%Z).
    { unfold performanceScore in Ep. rewrite HP, PW_eq in Ep.
      destruct full_weights as [_ F]. rewrite F in Ep.
      cbn [Math_round] in Ep. injection Ep as Ep. vm_compute in Ep.
      change 20 with (inject_Z 20) in Ep. apply eq_sym in Ep.
      assert (X : inject_Z p == inject_Z 20) by (rewrite Ep; reflexivity).
      rewrite inject_Z_injective in X. exact X. }
    assert (w = 20%Z).
    { rewrite (weighted_of_100 _ (pageLoadTimeScore_fast _ HT)) in Ew.
      assert (X : inject_Z w == inject_Z 20) by (injection Ew as Ew; rewrite <- Ew; reflexivity).
      rewrite inject_Z_injective in X. exact X. }
    assert (k = 40%Z).
    { rewrite (co2Score_at_goal_or_below co2 Hc HG) in Ek.
      assert (X : inject_Z k == inject_Z 40) by (injection Ek as Ek; rewrite <- Ek; reflexivity).
      rewrite inject_Z_injective in X. exact X. }
    subst. reflexivity.
Qed.

(** X6: only the load time is guarded against [NaN]: when the performance,
    the SEO percentage or the emissions are [NaN], so is the eco score. *)
Theorem nan_measurement_gives_nan_score scores co2 :
  performance scores = NaN \/ seo scores = NaN \/ co2 = NaN ->
  Math_min (ecoScore scores co2) (lit 100) = NaN.
Proof.
  assert (L : forall x, fadd NaN x = NaN) by (intros []; reflexivity).
  assert (R : forall x, fadd x NaN = NaN) by (intros []; reflexivity).
  intros [H|[H|H]]; unfold ecoScore.
  - unfold performanceScore. rewrite H. cbn [fmul Math_round]. rewrite !L. reflexivity.
  - unfold seoScore. rewrite H. cbn [fdiv Math_min fmul Math_round]. rewrite R, !L. reflexivity.
  - subst co2. unfold co2Score.
    assert (E : feq NaN (lit 0) = false) by reflexivity. rewrite E.
    assert (D : fdiv CO2_GOAL NaN = NaN) by (rewrite CO2_GOAL_eq; reflexivity). rewrite D.
    cbn [fmul Math_round Math_min]. rewrite R. reflexivity.
Qed.

(** X1: emissions from 0 up to the goal of 0.6 grams all get the full CO2
    sub-score of 40. *)
Theorem co2Score_saturates co2 :
  fle (Fin 0) co2 = true -> fle co2 CO2_GOAL = true -> co2Score co2 = Fin 40.
Proof.
  intros H0 HG. unfold co2Score. rewrite co2_full_weight.
  destruct (nonneg_zero_or_positive co2 H0) as [Z|P]; [rewrite Z; reflexivity|].
  rewrite (positive_not_zero co2 P).
  pose proof (co2_term_anti co2 CO2_GOAL P HG) as A. rewrite co2_term_at_goal in A.
  destruct (fle (Math_round (fmul (fmul (fdiv CO2_GOAL co2) (lit 100)) CO2_WEIGHT))
                (Fin 40)) eqn:B.
  - rewrite (fle_antisym_int 40 _ A B). reflexivity.
  - destruct (Math_round (fmul (fmul (fdiv CO2_GOAL co2) (lit 100)) CO2_WEIGHT));
      try discriminate A; cbn [Math_min]; rewrite ?B; reflexivity.
Qed.

(** X2: the weighted page-load sub-score never increases with the load time. *)
Theorem page_load_score_antitone s1 s2 :
  isNaN (pageLoadTime s1) = false ->
  fle (pageLoadTime s2) (pageLoadTime s1) = true ->
  fle (weightedPageLoadTimeScore s1) (weightedPageLoadTimeScore s2) = true.
Proof.
  intros N1 H.
  assert (N2 : isNaN (pageLoadTime s2) = false).
  { destruct (pageLoadTime s2); try discriminate H; reflexivity. }
  destruct (fle (pageLoadTime s2) PAGE_LOAD_TIME_GOAL_SECONDS) eqn:E2.
  - (* [s2] is within the goal: its sub-score is the full 20 *)
    rewrite (weighted_of_100 s2 (pageLoadTimeScore_fast _ (or_intror E2))).
    apply weighted_at_most_20. exact N1.
  - (* both load times are above the goal *)
    apply weighted_slow_anti; [|exact H].
    apply not_fle_flt; [exact N2 | rewrite PLG_eq; reflexivity | exact E2].
Qed.

(** X3: a load time that is [NaN] counts as 0 seconds: the raw page-load
    score is 100 and the weighted one is 20. *)
Theorem nan_load_time_is_best_case scores :
  isNaN (pageLoadTime scores) = true ->
  pageLoadTimeScore scores = Fin 100 /\ weightedPageLoadTimeScore scores = Fin 20.
Proof.
  intros H. pose proof (pageLoadTimeScore_fast scores (or_introl H)) as E.
  split; [exact E | exact (weighted_of_100 scores E)].
Qed.

(** ** The measurements taken from the audit *)

Section ObjectFacts.
Context {V : Type}.
Implicit Types (o : list (string * V)) (k : string) (v : V).

Lemma lookup_assign_same k v o : lookup k (assign k v o) = Some v.
Proof.
  induction o as [|[k' v'] o IH]; cbn.
  - rewrite String.eqb_refl. reflexivity.
  - destruct (String.eqb k k') eqn:E; cbn; [rewrite String.eqb_refl; reflexivity|].
    rewrite E. exact IH.
Qed.

Lemma lookup_assign_other k k' v o : k <> k' -> lookup k' (assign k v o) = lookup k' o.
Proof.
  intros N. induction o as [|[k0 v0] o IH]; cbn.
  - destruct (String.eqb k' k) eqn:E; [|reflexivity].
    apply String.eqb_eq in E. congruence.
  - destruct (String.eqb k k0) eqn:E; cbn.
    + apply String.eqb_eq in E. subst k0.
      destruct (String.eqb k' k) eqn:E'; [|reflexivity].
      apply String.eqb_eq in E'. congruence.
    + rewrite IH. reflexivity.
Qed.

Lemma lookup_None_iff k o : lookup k o = None <-> ~ In k (map fst o).
Proof.
  induction o as [|[k' v'] o IH]; cbn; [tauto|].
  destruct (String.eqb k k') eqn:E.
  - apply String.eqb_eq in E. subst. split; [discriminate | intros H; exfalso; apply H; left; reflexivity].
  - apply String.eqb_neq in E. rewrite IH. split; [intros H [X|X]; [congruence|tauto] | tauto].
Qed.

Lemma keys_assign_present k v o : In k (map fst o) -> map fst (assign k v o) = map fst o.
Proof.
  induction o as [|[k' v'] o IH]; cbn; [tauto|].
  intros H. destruct (String.eqb k k') eqn:E; cbn.
  - apply String.eqb_eq in E. subst. reflexivity.
  - apply String.eqb_neq in E. f_equal. apply IH. destruct H; [congruence|assumption].
Qed.

Lemma assign_absent k v o : ~ In k (map fst o) -> assign k v o = (o ++ [(k, v)])%list.
Proof.
  induction o as [|[k' v'] o IH]; cbn; [reflexivity|].
  intros H. destruct (String.eqb k k') eqn:E.
  - apply String.eqb_eq in E. subst. exfalso. apply H. left. reflexivity.
  - f_equal. apply IH. tauto.
Qed.

Lemma keys_assign_In k k' v o :
  In k' (map fst (assign k v o)) <-> k' = k \/ In k' (map fst o).
Proof.
  destruct (in_dec string_dec k (map fst o)) as [I|N].
  - rewrite (keys_assign_present k v o I). split; [tauto|]. intros [->|H]; assumption.
  - rewrite (assign_absent k v o N), map_app, in_app_iff. cbn. intuition.
Qed.

Lemma keys_assign_NoDup k v o : NoDup (map fst o) -> NoDup (map fst (assign k v o)).
Proof.
  intros H. destruct (in_dec string_dec k (map fst o)) as [I|N].
  - rewrite (keys_assign_present k v o I). exact H.
  - rewrite (assign_absent k v o N), map_app. cbn.
    apply NoDup_app. repeat split.
    + exact H.
    + constructor; [intros []|constructor].
    + intros x Hx [<-|[]]. exact (N Hx).
Qed.

(** Copying the entries of an object one by one gives the same object. *)
Lemma copy_entries o : forall acc,
  NoDup (map fst (acc ++ o)) ->
  fold_left (fun a e => assign (fst e) (snd e) a) o acc = (acc ++ o)%list.
Proof.
  induction o as [|[k v] o IH]; intros acc H; cbn [fold_left].
  - rewrite app_nil_r. reflexivity.
  - cbn [fst snd].
    assert (N : ~ In k (map fst acc)).
    { rewrite map_app in H. cbn in H. apply NoDup_remove_2 in H.
      intros X. apply H. apply in_or_app. left. exact X. }
    rewrite (assign_absent k v acc N), IH.
    + rewrite <- app_assoc. reflexivity.
    + rewrite <- app_assoc. exact H.
Qed.
End ObjectFacts.

Lemma reduce_request_keys_In acc r k :
  In k (map fst (reduce_request acc r)) <-> k = resourceType r \/ In k (map fst acc).
Proof.
  unfold reduce_request.
  set (t := resourceType r).
  set (acc' := if falsy (lookup t acc) then assign t (Fin 0) acc else acc).
  assert (K : forall x, In x (map fst acc') <-> x = t \/ In x (map fst acc)).
  { intros x. unfold acc'. destruct (falsy (lookup t acc)) eqn:F; [apply keys_assign_In|].
    split; [tauto|]. intros [->|H]; [|exact H].
    destruct (in_dec string_dec t (map fst acc)) as [I|N]; [exact I|].
    apply lookup_None_iff in N. rewrite N in F. discriminate F. }
  assert (P : In t (map fst acc')) by (apply K; left; reflexivity).
  destruct (lookup t acc') eqn:L.
  - rewrite keys_assign_In, K. tauto.
  - apply lookup_None_iff in L. contradiction.
Qed.

Lemma reduce_request_keys_NoDup acc r :
  NoDup (map fst acc) -> NoDup (map fst (reduce_request acc r)).
Proof.
  intros H. unfold reduce_request.
  set (t := resourceType r).
  set (acc' := if falsy (lookup t acc) then assign t (Fin 0) acc else acc).
  assert (H' : NoDup (map fst acc')).
  { unfold acc'. destruct (falsy (lookup t acc)); [apply keys_assign_NoDup|]; exact H. }
  destruct (lookup t acc'); [apply keys_assign_NoDup|]; exact H'.
Qed.

Lemma breakdown_keys_from requests : forall acc,
  NoDup (map fst acc) ->
  NoDup (map fst (fold_left reduce_request requests acc)) /\
  forall k, In k (map fst (fold_left reduce_request requests acc)) <->
            In k (map fst acc) \/ In k (map resourceType requests).
Proof.
  induction requests as [|r rest IH]; intros acc H; cbn [fold_left map].
  - split; [exact H|]. intros k. cbn. tauto.
  - destruct (IH (reduce_request acc r) (reduce_request_keys_NoDup acc r H)) as [N I].
    split; [exact N|]. intros k. rewrite I, reduce_request_keys_In. cbn. intuition.
Qed.

(** X7: the breakdown by resource type has one entry per resource type that
    occurs among the network requests, and no other entry. *)
Theorem breakdown_keys lhr :
  NoDup (map fst (transferSizeBreakdown (getLighthouseScores lhr))) /\
  forall k, In k (map fst (transferSizeBreakdown (getLighthouseScores lhr))) <->
            In k (map resourceType (network_requests lhr)).
Proof.
  cbn [getLighthouseScores transferSizeBreakdown].
  destruct (breakdown_keys_from (network_requests lhr) [] (NoDup_nil _)) as [N I].
  split; [exact N|]. intros k. rewrite I. cbn. tauto.
Qed.

(** X8: a running total that is [NaN] is restarted from 0 by the next request
    of the same type: a request without a numeric transfer size is forgotten
    as soon as another request of its type follows. *)
Theorem nan_size_is_forgotten acc r1 r2 :
  resourceType r1 = resourceType r2 ->
  transferSize_of r1 = NaN ->
  lookup (resourceType r2) (reduce_request (reduce_request acc r1) r2)
  = Some (fadd (Fin 0) (fdiv (transferSize_of r2) (lit 1024))).
Proof.
  intros T S.
  assert (A : lookup (resourceType r1) (reduce_request acc r1) = Some NaN).
  { unfold reduce_request. rewrite S.
    set (t := resourceType r1).
    set (acc' := if falsy (lookup t acc) then assign t (Fin 0) acc else acc).
    destruct (lookup t acc') as [v|] eqn:L.
    - rewrite lookup_assign_same. f_equal. destruct v; reflexivity.
    - exfalso. unfold acc' in L. destruct (falsy (lookup t acc)) eqn:F.
      + rewrite lookup_assign_same in L. discriminate L.
      + rewrite L in F. discriminate F. }
  rewrite T in A. unfold reduce_request at 1. rewrite A. cbn [falsy].
  rewrite lookup_assign_same, lookup_assign_same. reflexivity.
Qed.

(** Multiples of a power of two with at most 53 bits are binary64 values. *)
Lemma round64_dyadic n k :
  (0 <= n <= 2 ^ 53)%Z -> (-1074 <= k <= 970)%Z ->
  round64 (inject_Z n * pow2 k) = Fin (Qred (inject_Z n * pow2 k)).
Proof.
  intros [L U] Hk. destruct (Z.eq_dec n 0) as [->|N0].
  - rewrite (round64_zero (inject_Z 0 * pow2 k)) by ring.
    apply f_equal. change 0 with (Qred 0) at 1. apply Qred_complete. ring.
  - assert (Pn : 0 < inject_Z n) by (change 0 with (inject_Z 0); rewrite <- Zlt_Qlt; lia).
    pose proof (pow2_pos k) as Pk.
    assert (P : 0 < inject_Z n * pow2 k) by (apply Qmult_lt_0_compat; assumption).
    destruct (ilog2_spec _ Pn) as [A B]. set (ln := ilog2 (inject_Z n)) in *.
    assert (Hln : (0 <= ln <= 53)%Z).
    { split.
      - assert (X : (0 < ln + 1)%Z); [|lia].
        apply (Qpower_lt_compat_l_inv 2); [|reflexivity].
        eapply Qle_lt_trans; [|exact B]. change (inject_Z 1 <= inject_Z n).
        rewrite <- Zle_Qle. lia.
      - assert (X : (ln < 53 + 1)%Z); [|lia].
        apply (Qpower_lt_compat_l_inv 2); [|reflexivity].
        eapply Qle_lt_trans; [exact A|]. eapply Qle_lt_trans with (pow2 53).
        + rewrite (pow2_Z 53) by lia. rewrite <- Zle_Qle. exact U.
        + apply pow2_lt. lia. }
    assert (E : ilog2 (inject_Z n * pow2 k) = (ln + k)%Z).
    { apply ilog2_unique; [exact P| |].
      - rewrite pow2_add. apply Qmult_le_compat_r; [exact A | lra].
      - replace (ln + k + 1)%Z with ((ln + 1) + k)%Z by lia. rewrite pow2_add.
        apply Qmult_lt_compat_r; [exact Pk | exact B]. }
    apply round64_exact; [exact P| |].
    + apply round_pos_exact; [exact P|]. unfold ulp_exp. rewrite E.
      destruct (Z.eq_dec ln 53) as [E53|N53].
      * assert (n = 2 ^ 53)%Z.
        { apply Z.le_antisymm; [exact U|]. rewrite Zle_Qle, <- pow2_Z by lia.
          rewrite <- E53. exact A. }
        subst n. exists (2 ^ 52)%Z.
        replace (Z.max (ln + k - 52) (-1074)) with (k + 1)%Z by lia.
        rewrite <- !pow2_Z by lia. rewrite (pow2_add k 1).
        replace 53%Z with (52 + 1)%Z by lia. rewrite (pow2_add 52 1).
        pose proof (pow2_pos 1). field. split; lra.
      * set (ex := Z.max (ln + k - 52) (-1074)).
        exists (n * 2 ^ (k - ex))%Z. rewrite inject_Z_mult, <- pow2_Z by lia.
        rewrite pow2_sub. pose proof (pow2_pos ex). field. lra.
    + apply Qlt_le_trans with (pow2 (ln + 1 + k)).
      * rewrite pow2_add. apply Qmult_lt_compat_r; [exact Pk | exact B].
      * apply pow2_le. lia.
Qed.

Lemma round64_kilobytes x n :
  x == inject_Z n / 1024 -> (0 <= n <= 2 ^ 53)%Z -> round64 x = kilobytes n.
Proof.
  intros E H.
  assert (E' : x == inject_Z n * pow2 (-10)).
  { rewrite E; reflexivity. }
  rewrite (round64_comp _ _ E'), (round64_dyadic n (-10) H) by lia.
  unfold kilobytes. apply f_equal, Qred_complete. reflexivity.
Qed.

Lemma bytes_of_type_app k l1 l2 :
  bytes_of_type k (l1 ++ l2) = (bytes_of_type k l1 + bytes_of_type k l2)%Z.
Proof.
  induction l1 as [|[t n] l1 IH]; cbn [app bytes_of_type]; [reflexivity|].
  rewrite IH. lia.
Qed.

Lemma total_bytes_app l1 l2 : total_bytes (l1 ++ l2) = (total_bytes l1 + total_bytes l2)%Z.
Proof.
  induction l1 as [|p l1 IH]; cbn [app total_bytes fold_right]; [reflexivity|].
  fold (total_bytes (l1 ++ l2)). fold (total_bytes l1). rewrite IH. lia.
Qed.

Lemma bytes_of_type_bounds k l : (0 <= bytes_of_type k l <= total_bytes l)%Z.
Proof.
  induction l as [|[t n] l IH]; cbn [bytes_of_type total_bytes fold_right snd]; [lia|].
  fold (total_bytes l). destruct (String.eqb k t); lia.
Qed.

Lemma has_type_app k l1 l2 : has_type k (l1 ++ l2) = has_type k l1 || has_type k l2.
Proof. unfold has_type. rewrite map_app, existsb_app. reflexivity. Qed.

Lemma bytes_of_absent_type k l : has_type k l = false -> bytes_of_type k l = 0%Z.
Proof.
  unfold has_type. induction l as [|[t n] l IH]; cbn; [reflexivity|].
  destruct (String.eqb k t); cbn; [discriminate|]. intros H. rewrite (IH H). reflexivity.
Qed.

Lemma fdiv_kilobytes n :
  (0 <= n <= 2 ^ 53)%Z -> fdiv (Fin (inject_Z n)) (lit 1024) = kilobytes n.
Proof.
  intros H. destruct lit_int_eq as [_ [_ [_ ->]]]. cbn [fdiv].
  change (Qcompare 1024 0) with Gt. cbv iota.
  apply round64_kilobytes; [reflexivity | exact H].
Qed.

Lemma fadd_kilobytes qv m n :
  qv == inject_Z m / 1024 -> (0 <= m)%Z -> (0 <= n)%Z -> (m + n <= 2 ^ 53)%Z ->
  fadd (Fin qv) (fdiv (Fin (inject_Z n)) (lit 1024)) = kilobytes (m + n).
Proof.
  intros E Hm Hn H. rewrite fdiv_kilobytes by lia. unfold kilobytes at 1. cbn [fadd].
  apply round64_kilobytes; [|lia].
  rewrite E, Qred_correct, inject_Z_plus. field.
Qed.

Lemma reduce_request_totals done acc p :
  totals_of done acc -> (total_bytes (done ++ [p]) <= 2 ^ 53)%Z ->
  totals_of (done ++ [p]) (reduce_request acc (request_of p)).
Proof.
  intros Inv B k. destruct p as [t n].
  unfold reduce_request. cbn [request_of resourceType transferSize_of fst snd].
  rewrite has_type_app, bytes_of_type_app. cbn [bytes_of_type].
  assert (Ht : has_type k [(t, n)] = String.eqb k t).
  { unfold has_type. cbn. apply orb_false_r. }
  rewrite Ht.
  pose proof (bytes_of_type_bounds t done) as Bt.
  rewrite total_bytes_app in B. cbn [total_bytes fold_right snd] in B.
  set (acc' := if falsy (lookup t acc) then assign t (Fin 0) acc else acc).
  assert (V : exists qv, lookup t acc' = Some (Fin qv) /\
                         qv == inject_Z (bytes_of_type t done) / 1024).
  { unfold acc'. rewrite (Inv t). destruct (has_type t done) eqn:D.
    - unfold kilobytes. cbn [falsy].
      destruct (Qeq_bool (Qred (inject_Z (bytes_of_type t done) / 1024)) 0) eqn:Z.
      + exists 0. rewrite lookup_assign_same. split; [reflexivity|].
        apply Qeq_bool_iff in Z. rewrite Qred_correct in Z. rewrite Z. reflexivity.
      + eexists. rewrite (Inv t), D. split; [reflexivity|]. apply Qred_correct.
    - cbn [falsy]. exists 0. rewrite lookup_assign_same. split; [reflexivity|].
      rewrite (bytes_of_absent_type t done D). reflexivity. }
  destruct V as [qv [L E]]. rewrite L.
  destruct (String.eqb k t) eqn:K.
  - apply String.eqb_eq in K. subst k. rewrite lookup_assign_same, orb_true_r.
    f_equal. replace (Z.of_N n + 0)%Z with (Z.of_N n) by lia.
    apply fadd_kilobytes; [exact E | lia | lia |].
    pose proof (bytes_of_type_bounds t done). lia.
  - apply String.eqb_neq in K. rewrite orb_false_r.
    rewrite lookup_assign_other by congruence.
    replace (bytes_of_type k done + (0 + 0))%Z with (bytes_of_type k done) by lia.
    unfold acc'. destruct (falsy (lookup t acc));
      [rewrite lookup_assign_other by congruence|]; apply Inv.
Qed.

Lemma fold_requests_totals rest : forall done acc,
  totals_of done acc -> (total_bytes (done ++ rest) <= 2 ^ 53)%Z ->
  totals_of (done ++ rest) (fold_left reduce_request (map request_of rest) acc).
Proof.
  induction rest as [|p rest IH]; intros done acc Inv B.
  - rewrite app_nil_r. exact Inv.
  - cbn [map fold_left].
    replace (done ++ p :: rest)%list with ((done ++ [p]) ++ rest)%list in *
      by (rewrite <- app_assoc; reflexivity).
    apply IH; [|exact B].
    apply reduce_request_totals; [exact Inv|].
    rewrite total_bytes_app in B.
    assert (X : (0 <= total_bytes rest)%Z).
    { clear. induction rest as [|q r IHr]; cbn [total_bytes fold_right]; [lia|].
      fold (total_bytes r). lia. }
    lia.
Qed.

(** X9: when the transfer sizes are whole numbers of bytes (2^53 at most in
    total), every entry of the breakdown is exactly the bytes of its type
    divided by 1024: the running sums lose nothing to rounding. *)
Theorem breakdown_exact_totals lhr (sizes : list (string * N)) :
  network_requests lhr = map request_of sizes ->
  (total_bytes sizes <= 2 ^ 53)%Z ->
  forall k,
    lookup k (transferSizeBreakdown (getLighthouseScores lhr))
    = if has_type k sizes then Some (kilobytes (bytes_of_type k sizes)) else None.
Proof.
  intros E B k. cbn [getLighthouseScores transferSizeBreakdown]. rewrite E.
  apply (fold_requests_totals sizes [] []); [|exact B].
  intros k'. reflexivity.
Qed.

(** X10: for a whole number of bytes up to 2^53 the page weight is exactly
    that number divided by 1024. *)
Theorem page_weight_exact lhr n :
  total_byte_weight lhr = Fin (inject_Z n) -> (0 <= n <= 2 ^ 53)%Z ->
  transferSize (getLighthouseScores lhr) = kilobytes n.
Proof.
  intros E H. cbn [getLighthouseScores transferSize]. rewrite E.
  apply fdiv_kilobytes. exact H.
Qed.

(** X11: for a whole number [n] of bytes up to 2^46, the byte count handed to
    the estimator is exactly [n * 1000 / 1024]. *)
Theorem estimator_bytes_exact lhr n :
  total_byte_weight lhr = Fin (inject_Z n) -> (0 <= n <= 2 ^ 46)%Z ->
  fmul (transferSize (getLighthouseScores lhr)) (lit 1000)
  = Fin (Qred (inject_Z n * (1000 # 1024))).
Proof.
  intros E H. cbn [getLighthouseScores transferSize]. rewrite E.
  rewrite fdiv_kilobytes by lia. destruct lit_int_eq as [_ [_ [-> _]]].
  unfold kilobytes. cbn [fmul].
  assert (X : Qred (inject_Z n / 1024) * 1000 == inject_Z (125 * n) * pow2 (-7)).
  { rewrite Qred_correct, inject_Z_mult. change (pow2 (-7)) with (/ 128). field. }
  rewrite (round64_comp _ _ X), round64_dyadic by lia.
  apply f_equal, Qred_complete.
  rewrite inject_Z_mult. change (pow2 (-7)) with (/ 128).
  change (1000 # 1024) with (1000 / 1024). field.
Qed.

(** ** The collaborators and the pipeline *)

Local Open Scope string_scope.

Section PipelineFacts.
Context {World Browser : Type} (C : Collaborators World Browser).

(** X12: [checkGreenHosting] never throws: when the directory lookup fails it
    answers [false] and reports the error on the console; otherwise it
    answers what the directory said and reports nothing. *)
Theorem checkGreenHosting_fail_open domain (s : State World) :
  (forall t w, hosting_check C domain (world s) = (inl t, w) ->
     checkGreenHosting C domain s
     = (inr false, logged s w ("Error checking green hosting for " ++ domain ++ ":") t)) /\
  (forall g w, hosting_check C domain (world s) = (inr g, w) ->
     checkGreenHosting C domain s = (inr g, with_world s w)).
Proof.
  split; intros x w H;
    unfold checkGreenHosting, try_catch, call, bind, console_error, ret;
    rewrite H; reflexivity.
Qed.

(** X13: [getServerLocation] never throws.  When the DNS lookup fails it
    returns nothing, reports the error and does not query the geolocation
    service; when that service fails it returns nothing and reports the
    error; otherwise it returns the country, region and city of the answer
    for the first address ([undefined] when there is none). *)
Theorem getServerLocation_outcomes domain (s : State World) :
  (forall t w, dns_resolve4 C domain (world s) = (inl t, w) ->
     getServerLocation C domain s
     = (inr None, logged s w ("Error fetching server location for " ++ domain ++ ":") t)) /\
  (forall addresses w t w',
     dns_resolve4 C domain (world s) = (inr addresses, w) ->
     axios_get C ("https://freegeoip.app/json/" ++ nth 0 addresses "undefined") w
       = (inl t, w') ->
     getServerLocation C domain s
     = (inr None, logged s w' ("Error fetching server location for " ++ domain ++ ":") t)) /\
  (forall addresses w d w',
     dns_resolve4 C domain (world s) = (inr addresses, w) ->
     axios_get C ("https://freegeoip.app/json/" ++ nth 0 addresses "undefined") w
       = (inr d, w') ->
     getServerLocation C domain s
     = (inr (Some {| country := country_name d; region := region_name d;
                     city := city_of d |}), with_world s w')).
Proof.
  split; [|split].
  - intros t w H. unfold getServerLocation, try_catch, call, bind, console_error, ret.
    rewrite H. reflexivity.
  - intros addresses w t w' H G.
    unfold getServerLocation, try_catch, call, bind, console_error, ret.
    rewrite H. cbn [of_thrown world]. rewrite G. reflexivity.
  - intros addresses w d w' H G.
    unfold getServerLocation, try_catch, call, bind, console_error, ret.
    rewrite H. cbn [of_thrown world]. rewrite G. reflexivity.
Qed.

(** X14: with the browser launched, [runLighthouse] returns the audit after
    closing the browser; when the audit throws, the error is passed on and
    the browser is not closed; when closing throws, the audit is lost. *)
Theorem runLighthouse_outcomes url (s : State World) w0 browser w1 :
  import_lighthouse C (world s) = (inr tt, w0) ->
  puppeteer_launch C w0 = (inr browser, w1) ->
  (forall t w2, lighthouse C url browser w1 = (inl t, w2) ->
     runLighthouse C url s = (inl (External t), with_world s w2)) /\
  (forall lhr w2 w3, lighthouse C url browser w1 = (inr lhr, w2) ->
     browser_close C browser w2 = (inr tt, w3) ->
     runLighthouse C url s = (inr lhr, with_world s w3)) /\
  (forall lhr w2 t w3, lighthouse C url browser w1 = (inr lhr, w2) ->
     browser_close C browser w2 = (inl t, w3) ->
     runLighthouse C url s = (inl (External t), with_world s w3)).
Proof.
  intros HI HL. split; [|split].
  - intros t w2 H. unfold runLighthouse, call, bind, ret.
    rewrite HI. cbn [of_thrown world]. rewrite HL. cbn [of_thrown world]. rewrite H. reflexivity.
  - intros lhr w2 w3 H HC. unfold runLighthouse, call, bind, ret.
    rewrite HI. cbn [of_thrown world]. rewrite HL. cbn [of_thrown world]. rewrite H.
    cbn [of_thrown world]. rewrite HC. reflexivity.
  - intros lhr w2 t w3 H HC. unfold runLighthouse, call, bind, ret.
    rewrite HI. cbn [of_thrown world]. rewrite HL. cbn [of_thrown world]. rewrite H.
    cbn [of_thrown world]. rewrite HC. reflexivity.
Qed.

Lemma getEcoScore_run url (s : State World) lhr s1 h loc s2 g s3 :
  runLighthouse C url s = (inr lhr, s1) ->
  URL_hostname C url = inr h ->
  getServerLocation C h s1 = (inr loc, s2) ->
  checkGreenHosting C h s2 = (inr g, s3) ->
  getEcoScore C url s =
    match loc with
    | None => (inl location_error, s3)
    | Some l =>
        match perByteTrace C (fmul (transferSize (getLighthouseScores lhr)) (lit 1000))
                           g None with
        | inl t => (inl (External t), s3)
        | inr trace =>
            (inr {| Eco_Score :=
                      Math_min (ecoScore (getLighthouseScores lhr) (co2 trace)) (lit 100);
                    Page_Weight := transferSize (getLighthouseScores lhr);
                    Weight_Breakdown :=
                      fold_left (fun o e => assign (fst e) (snd e) o)
                        (transferSizeBreakdown (getLighthouseScores lhr)) [];
                    Emissions_per_page := co2 trace;
                    Server_Location := country l;
                    Green_Hosting := g |}, s3)
        end
    end.
Proof.
  intros HL HU HS HG.
  unfold getEcoScore. unfold bind at 1. rewrite HL.
  unfold bind at 1. unfold call_pure at 1. rewrite HU. cbn [of_thrown].
  unfold bind at 1. rewrite HS.
  unfold bind at 1. unfold call_pure at 1. cbn [of_thrown].
  unfold bind at 1. rewrite HG.
  destruct loc as [l|]; [|reflexivity].
  unfold calculateCO2, bind, call_pure, ret.
  destruct (perByteTrace C _ g None) as [t|trace]; reflexivity.
Qed.

(** X15: when the audit, the location lookup and the estimator succeed,
    [getEcoScore] returns the report whose page weight, breakdown, emissions,
    country and hosting flag are the values of the collaborators, unchanged,
    whether or not the country has a code in the table. *)
Theorem getEcoScore_report url (s : State World) lhr s1 h l s2 g s3 trace :
  runLighthouse C url s = (inr lhr, s1) ->
  URL_hostname C url = inr h ->
  getServerLocation C h s1 = (inr (Some l), s2) ->
  checkGreenHosting C h s2 = (inr g, s3) ->
  perByteTrace C (fmul (transferSize (getLighthouseScores lhr)) (lit 1000)) g None
    = inr trace ->
  getEcoScore C url s
  = (inr {| Eco_Score :=
              Math_min (ecoScore (getLighthouseScores lhr) (co2 trace)) (lit 100);
            Page_Weight := transferSize (getLighthouseScores lhr);
            Weight_Breakdown := transferSizeBreakdown (getLighthouseScores lhr);
            Emissions_per_page := co2 trace;
            Server_Location := country l;
            Green_Hosting := g |}, s3).
Proof.
  intros HL HU HS HG HP. rewrite (getEcoScore_run url s lhr s1 h (Some l) s2 g s3 HL HU HS HG).
  rewrite HP. do 2 f_equal.
  rewrite copy_entries; [reflexivity|]. cbn [app getLighthouseScores transferSizeBreakdown].
  apply (breakdown_keys_from (network_requests lhr) [] (NoDup_nil _)).
Qed.

(** X16: an error of the audit or of the URL parser ends [getEcoScore] before
    any lookup is made, and an error of the estimator ends it with that
    error, after both lookups. *)
Theorem getEcoScore_short_circuits url (s : State World) :
  (forall e s1, runLighthouse C url s = (inl e, s1) ->
     getEcoScore C url s = (inl e, s1)) /\
  (forall lhr s1 t, runLighthouse C url s = (inr lhr, s1) ->
     URL_hostname C url = inl t ->
     getEcoScore C url s = (inl (External t), s1)) /\
  (forall lhr s1 h l s2 g s3 t,
     runLighthouse C url s = (inr lhr, s1) ->
     URL_hostname C url = inr h ->
     getServerLocation C h s1 = (inr (Some l), s2) ->
     checkGreenHosting C h s2 = (inr g, s3) ->
     perByteTrace C (fmul (transferSize (getLighthouseScores lhr)) (lit 1000)) g None
       = inl t ->
     getEcoScore C url s = (inl (External t), s3)).
Proof.
  split; [|split].
  - intros e s1 H. unfold getEcoScore. unfold bind at 1. rewrite H. reflexivity.
  - intros lhr s1 t H HU. unfold getEcoScore. unfold bind at 1. rewrite H.
    unfold bind at 1. unfold call_pure at 1. rewrite HU. reflexivity.
  - intros lhr s1 h l s2 g s3 t HL HU HS HG HP.
    rewrite (getEcoScore_run url s lhr s1 h (Some l) s2 g s3 HL HU HS HG), HP. reflexivity.
Qed.

Lemma stream_ret A (a : A) : keeps_stream (@ret World A a).
Proof. intros s. repeat split. Qed.

Lemma stream_throw A e : keeps_stream (@throw World A e).
Proof. intros s. repeat split. Qed.

Lemma stream_call A (f : World -> (string + A) * World) : keeps_stream (call f).
Proof. intros s. unfold call. destruct (f (world s)). repeat split. Qed.

Lemma stream_call_pure A (r : string + A) : keeps_stream (@call_pure World A r).
Proof. intros s. repeat split. Qed.

Lemma stream_console_error message e : keeps_stream (@console_error World message e).
Proof. intros s. repeat split. Qed.

Lemma stream_bind A B (m : M World A) (k : A -> M World B) :
  keeps_stream m -> (forall a, keeps_stream (k a)) -> keeps_stream (bind m k).
Proof.
  intros Hm Hk s. unfold bind. specialize (Hm s).
  destruct (m s) as [[e|a] s1]; cbn [snd] in *; [exact Hm|].
  destruct (Hk a s1) as [W [E F]]. destruct Hm as [W' [E' F']]. repeat split; congruence.
Qed.

Lemma stream_try_catch A (m : M World A) (h : error -> M World A) :
  keeps_stream m -> (forall e, keeps_stream (h e)) -> keeps_stream (try_catch m h).
Proof.
  intros Hm Hh s. unfold try_catch. specialize (Hm s).
  destruct (m s) as [[e|a] s1]; cbn [snd] in *; [|exact Hm].
  destruct (Hh e s1) as [W [E F]]. destruct Hm as [W' [E' F']]. repeat split; congruence.
Qed.

Ltac stream_steps :=
  repeat first
    [ apply stream_bind; [|intros ?]
    | apply stream_try_catch; [|intros ?]
    | apply stream_ret | apply stream_throw | apply stream_call
    | apply stream_call_pure | apply stream_console_error ].

(** X17: [getEcoScore] never writes to the output stream and never ends it,
    however it turns out. *)
Theorem getEcoScore_leaves_stream url : keeps_stream (getEcoScore C url).
Proof.
  unfold getEcoScore, runLighthouse, getServerLocation, checkGreenHosting, calculateCO2.
  stream_steps.
  match goal with |- keeps_stream (match ?x with _ => _ end) => destruct x end;
  stream_steps.
Qed.







End PipelineFacts.

(** ** Input lines, URLs, arguments and the country table *)

Lemma is_white_space_In c : is_white_space c = true <-> In c white_space.
Proof.
  unfold is_white_space. rewrite existsb_exists. split.
  - intros [x [I E]]. apply String.eqb_eq in E. subst. exact I.
  - intros I. exists c. split; [exact I | apply String.eqb_refl].
Qed.

Ltac each_white_space H :=
  apply is_white_space_In in H; cbn in H;
  repeat (destruct H as [H|H]; [symmetry in H|]); [..|contradiction].

Lemma skip_white_space_app c r :
  is_white_space c = true -> skip_white_space (c ++ r) = Some r.
Proof. intros H. each_white_space H; subst c; reflexivity. Qed.

Lemma skip_white_space_Some s r :
  skip_white_space s = Some r ->
  exists c, is_white_space c = true /\ s = c ++ r.
Proof.
  destruct s as [|a [|b [|c r3]]]; cbn [skip_white_space]; intros H.
  - discriminate H.
  - destruct (is_white_space (String a EmptyString)) eqn:E1; [|discriminate H].
    injection H as <-. exists (String a EmptyString). split; [exact E1 | reflexivity].
  - destruct (is_white_space (String a EmptyString)) eqn:E1.
    { injection H as <-. exists (String a EmptyString). split; [exact E1 | reflexivity]. }
    destruct (is_white_space (String a (String b EmptyString))) eqn:E2; [|discriminate H].
    injection H as <-. exists (String a (String b EmptyString)). split; [exact E2 | reflexivity].
  - destruct (is_white_space (String a EmptyString)) eqn:E1.
    { injection H as <-. exists (String a EmptyString). split; [exact E1 | reflexivity]. }
    destruct (is_white_space (String a (String b EmptyString))) eqn:E2.
    { injection H as <-. exists (String a (String b EmptyString)). split; [exact E2 | reflexivity]. }
    destruct (is_white_space (String a (String b (String c EmptyString)))) eqn:E3; [|discriminate H].
    injection H as <-. exists (String a (String b (String c EmptyString))).
    split; [exact E3 | reflexivity].
Qed.

Lemma trimStart_step s :
  trimStart s = match skip_white_space s with Some r => trimStart r | None => s end.
Proof.
  destruct s as [|a [|b [|c r3]]]; cbn [trimStart skip_white_space]; try reflexivity.
  - destruct (is_white_space (String a EmptyString)); reflexivity.
  - destruct (is_white_space (String a EmptyString)); [reflexivity|].
    destruct (is_white_space (String a (String b EmptyString))); reflexivity.
  - destruct (is_white_space (String a EmptyString)); [reflexivity|].
    destruct (is_white_space (String a (String b EmptyString))); [reflexivity|].
    destruct (is_white_space (String a (String b (String c EmptyString)))); reflexivity.
Qed.

Lemma all_white_step s :
  all_white s = match s with
                | EmptyString => true
                | _ => match skip_white_space s with
                       | Some r => all_white r
                       | None => false
                       end
                end.
Proof.
  destruct s as [|a [|b [|c r3]]]; cbn [all_white skip_white_space]; try reflexivity.
  - destruct (is_white_space (String a EmptyString)); reflexivity.
  - destruct (is_white_space (String a EmptyString)); [reflexivity|].
    destruct (is_white_space (String a (String b EmptyString))); reflexivity.
  - destruct (is_white_space (String a EmptyString)); [reflexivity|].
    destruct (is_white_space (String a (String b EmptyString))); [reflexivity|].
    destruct (is_white_space (String a (String b (String c EmptyString)))); reflexivity.
Qed.

Lemma length_append (s t : string) : length (s ++ t) = (length s + length t)%nat.
Proof. induction s as [|c s IH]; cbn; [reflexivity | rewrite IH; reflexivity]. Qed.

Lemma white_space_not_empty c : is_white_space c = true -> (0 < length c)%nat.
Proof. intros H. each_white_space H; subst c; cbn; lia. Qed.

Lemma skip_white_space_shorter s r :
  skip_white_space s = Some r -> (length r < length s)%nat.
Proof.
  intros H. destruct (skip_white_space_Some s r H) as [c [W ->]].
  rewrite length_append. pose proof (white_space_not_empty c W). lia.
Qed.

(** Induction along the white space in front of a string. *)
Lemma white_space_ind (P : string -> Prop) :
  (forall s, skip_white_space s = None -> P s) ->
  (forall s r, skip_white_space s = Some r -> P r -> P s) ->
  forall s, P s.
Proof.
  intros H0 H1 s. remember (length s) as n eqn:L.
  revert s L. induction n as [n IH] using lt_wf_ind. intros s L.
  destruct (skip_white_space s) as [r|] eqn:E; [|exact (H0 s E)].
  apply (H1 s r E). apply (IH (length r)); [|reflexivity].
  subst n. exact (skip_white_space_shorter s r E).
Qed.

Lemma prefix_append c r : String.prefix c (c ++ r) = true.
Proof.
  induction c as [|a c IH]; cbn; [destruct r; reflexivity|].
  destruct (ascii_dec a a) as [_|N]; [exact IH | congruence].
Qed.

Lemma prefix_split c : forall s, String.prefix c s = true -> exists r, s = c ++ r.
Proof.
  induction c as [|a c IH]; intros s H.
  - exists s. reflexivity.
  - destruct s as [|b s]; [discriminate H|]. cbn in H.
    destruct (ascii_dec a b) as [<-|N]; [|discriminate H].
    destruct (IH s H) as [r ->]. exists r. reflexivity.
Qed.

Lemma prefix_trans p : forall q s,
  String.prefix p q = true -> String.prefix q s = true -> String.prefix p s = true.
Proof.
  induction p as [|a p IH]; intros q s H1 H2; [destruct s; reflexivity|].
  destruct q as [|b q]; [discriminate H1|]. destruct s as [|c s]; [discriminate H2|].
  cbn in *. destruct (ascii_dec a b) as [<-|]; [|discriminate H1].
  destruct (ascii_dec a c) as [<-|]; [|discriminate H2].
  destruct (ascii_dec a a) as [_|N]; [|congruence]. exact (IH q s H1 H2).
Qed.

Lemma starts_clean_iff s : starts_clean s = true <-> skip_white_space s = None.
Proof.
  unfold starts_clean. rewrite forallb_forall. split.
  - intros H. destruct (skip_white_space s) as [r|] eqn:E; [|reflexivity].
    destruct (skip_white_space_Some s r E) as [c [W ->]].
    specialize (H c (proj1 (is_white_space_In c) W)).
    unfold startsWith in H. rewrite prefix_append in H. discriminate H.
  - intros E c I. apply negb_true_iff. unfold startsWith.
    destruct (String.prefix c s) eqn:P; [|reflexivity].
    destruct (prefix_split c s P) as [r ->].
    rewrite (skip_white_space_app c r (proj2 (is_white_space_In c) I)) in E.
    discriminate E.
Qed.

Lemma trimStart_starts_clean s : starts_clean (trimStart s) = true.
Proof.
  induction s as [s E|s r E IH] using white_space_ind; rewrite trimStart_step, E.
  - apply starts_clean_iff. exact E.
  - exact IH.
Qed.

Lemma trimStart_clean s : starts_clean s = true -> trimStart s = s.
Proof. intros H. apply starts_clean_iff in H. rewrite trimStart_step, H. reflexivity. Qed.

Lemma all_white_trimStart s : all_white s = is_empty (trimStart s).
Proof.
  induction s as [s E|s r E IH] using white_space_ind;
    rewrite all_white_step, trimStart_step, E.
  - destruct s; reflexivity.
  - rewrite <- IH. destruct s; [discriminate E | reflexivity].
Qed.

Lemma trimEnd_step c r :
  trimEnd (String c r)
  = if all_white (String c r) then EmptyString else String c (trimEnd r).
Proof. rewrite all_white_trimStart. reflexivity. Qed.

Lemma all_white_skip c r : is_white_space c = true -> all_white (c ++ r) = all_white r.
Proof.
  intros W. rewrite all_white_step, (skip_white_space_app c r W).
  destruct (c ++ r) eqn:E; [|reflexivity].
  pose proof (white_space_not_empty c W) as L.
  destruct c; [cbn in L; lia | discriminate E].
Qed.

Lemma append_assoc (a b c : string) : (a ++ b) ++ c = a ++ (b ++ c).
Proof. induction a as [|x a IH]; cbn; [reflexivity | rewrite IH; reflexivity]. Qed.

Lemma append_empty (a : string) : a ++ EmptyString = a.
Proof. induction a as [|x a IH]; cbn; [reflexivity | rewrite IH; reflexivity]. Qed.

Lemma all_white_append s t :
  all_white s = true -> all_white t = true -> all_white (s ++ t) = true.
Proof.
  intros Hs Ht. induction s as [s E|s r E IH] using white_space_ind.
  - rewrite all_white_step, E in Hs. destruct s; [exact Ht | discriminate Hs].
  - destruct (skip_white_space_Some s r E) as [c [W ->]].
    rewrite (all_white_skip c r W) in Hs.
    rewrite append_assoc, (all_white_skip c _ W). exact (IH Hs).
Qed.

Lemma trimEnd_split s : exists t, s = trimEnd s ++ t /\ all_white t = true.
Proof.
  induction s as [|c r [t [E W]]]; [exists EmptyString; split; reflexivity|].
  rewrite trimEnd_step. destruct (all_white (String c r)) eqn:A.
  - exists (String c r). split; [reflexivity | exact A].
  - exists t. split; [cbn; rewrite <- E; reflexivity | exact W].
Qed.

Lemma trimEnd_prefix s : String.prefix (trimEnd s) s = true.
Proof.
  destruct (trimEnd_split s) as [t [E _]]. rewrite E at 2. apply prefix_append.
Qed.

Lemma trimEnd_starts_clean s : starts_clean s = true -> starts_clean (trimEnd s) = true.
Proof.
  unfold starts_clean, startsWith. rewrite !forallb_forall. intros H c I.
  specialize (H c I). apply negb_true_iff in H. apply negb_true_iff.
  destruct (String.prefix c (trimEnd s)) eqn:P; [|reflexivity].
  rewrite (prefix_trans c (trimEnd s) s P (trimEnd_prefix s)) in H. discriminate H.
Qed.

Lemma trimEnd_ends_clean s : ends_clean (trimEnd s) = true.
Proof.
  induction s as [|c r IH]; [reflexivity|].
  rewrite trimEnd_step. destruct (all_white (String c r)) eqn:A; [reflexivity|].
  cbn [ends_clean]. rewrite IH, andb_true_r. apply negb_true_iff.
  destruct (all_white (String c (trimEnd r))) eqn:B; [|reflexivity].
  destruct (trimEnd_split r) as [t [E W]].
  pose proof (all_white_append _ t B W) as X. cbn [append] in X.
  rewrite <- E, A in X. discriminate X.
Qed.

Lemma trimEnd_clean s : ends_clean s = true -> trimEnd s = s.
Proof.
  induction s as [|c r IH]; [reflexivity|]. intros H.
  cbn [ends_clean] in H. apply andb_true_iff in H. destruct H as [H1 H2].
  apply negb_true_iff in H1. rewrite trimEnd_step, H1, (IH H2). reflexivity.
Qed.

Lemma has_LF_append s t : has_LF (s ++ t) = has_LF s || has_LF t.
Proof.
  induction s as [|c s IH]; cbn [append has_LF]; [reflexivity|].
  rewrite IH, orb_assoc. reflexivity.
Qed.

Lemma trimStart_no_LF s : has_LF s = false -> has_LF (trimStart s) = false.
Proof.
  induction s as [s E|s r E IH] using white_space_ind; rewrite trimStart_step, E;
    [trivial|].
  intros H. apply IH. destruct (skip_white_space_Some s r E) as [c [_ ->]].
  rewrite has_LF_append in H. apply orb_false_iff in H. exact (proj2 H).
Qed.

Lemma trimEnd_no_LF s : has_LF s = false -> has_LF (trimEnd s) = false.
Proof.
  intros H. destruct (trimEnd_split s) as [t [E _]]. rewrite E, has_LF_append in H.
  apply orb_false_iff in H. exact (proj1 H).
Qed.

Lemma split_lines_no_LF s : Forall (fun l => has_LF l = false) (split_lines s).
Proof.
  induction s as [|c r IH]; cbn [split_lines]; [repeat constructor|].
  destruct (Ascii.eqb c (ascii_of_nat 10)) eqn:E; [constructor; [reflexivity | exact IH]|].
  destruct (split_lines r) as [|h t];
    [constructor; [cbn [has_LF]; rewrite E; reflexivity | constructor]|].
  inversion IH as [|? ? Hh Ht]; subst. constructor; [|exact Ht].
  cbn [has_LF]. rewrite E, Hh. reflexivity.
Qed.

(** X21: every domain taken from the input is a non-empty line without a
    line feed and without white space at either end; trimming it again
    changes nothing. *)
Theorem subdomains_clean data d :
  In d (subdomains_of data) ->
  is_empty d = false /\ starts_clean d = true /\ ends_clean d = true /\
  has_LF d = false /\ trim d = d.
Proof.
  unfold subdomains_of. intros H. apply filter_In in H. destruct H as [H N].
  apply negb_true_iff in N. apply in_map_iff in H. destruct H as [l [<- Hl]].
  assert (S : starts_clean (trim l) = true)
    by (apply trimEnd_starts_clean, trimStart_starts_clean).
  assert (E : ends_clean (trim l) = true) by apply trimEnd_ends_clean.
  repeat split; try assumption.
  - apply trimEnd_no_LF, trimStart_no_LF.
    exact (proj1 (Forall_forall _ _) (split_lines_no_LF data) l Hl).
  - unfold trim at 1. rewrite (trimStart_clean _ S). apply trimEnd_clean. exact E.
Qed.

Lemma trimStart_all_white s : all_white s = true -> trimStart s = EmptyString.
Proof.
  rewrite all_white_trimStart. destruct (trimStart s); [reflexivity | discriminate].
Qed.

Lemma split_lines_append c : forall r,
  has_LF c = false ->
  split_lines (c ++ r) = (c ++ hd EmptyString (split_lines r)) :: tl (split_lines r).
Proof.
  induction c as [|a c IH]; intros r H.
  - cbn [append]. destruct r as [|b r]; [reflexivity|]. cbn [split_lines].
    destruct (Ascii.eqb b (ascii_of_nat 10)); [reflexivity|].
    destruct (split_lines r); reflexivity.
  - cbn [has_LF] in H. apply orb_false_iff in H. destruct H as [H1 H2].
    cbn [append split_lines]. rewrite H1, (IH r H2). reflexivity.
Qed.

Lemma white_space_LF c : is_white_space c = true -> c = LF \/ has_LF c = false.
Proof. intros H. each_white_space H; subst c; [right|left|right..]; reflexivity. Qed.

Lemma white_space_all_white c : is_white_space c = true -> all_white c = true.
Proof. intros H. rewrite <- (append_empty c), (all_white_skip c EmptyString H). reflexivity. Qed.

Lemma split_lines_all_white s :
  all_white s = true -> Forall (fun l => all_white l = true) (split_lines s).
Proof.
  induction s as [s E|s r E IH] using white_space_ind; intros H.
  - rewrite all_white_step, E in H. destruct s; [repeat constructor | discriminate H].
  - destruct (skip_white_space_Some s r E) as [c [W ->]].
    rewrite (all_white_skip c r W) in H. specialize (IH H).
    destruct (white_space_LF c W) as [->|N].
    + cbn [LF append split_lines]. constructor; [reflexivity | exact IH].
    + rewrite (split_lines_append c r N).
      destruct (split_lines r) as [|h t]; cbn [hd tl].
      * constructor; [|constructor]. rewrite append_empty. exact (white_space_all_white c W).
      * inversion IH as [|? ? Hh Ht]; subst. constructor; [|exact Ht].
        apply all_white_append; [exact (white_space_all_white c W) | exact Hh].
Qed.

Lemma blank_data_has_no_subdomains data : all_white data = true -> subdomains_of data = [].
Proof.
  intros H. unfold subdomains_of.
  pose proof (split_lines_all_white data H) as F.
  induction (split_lines data) as [|l ls IH]; [reflexivity|].
  inversion F as [|? ? Hl Hls]; subst. cbn [map filter].
  unfold trim at 1. rewrite (trimStart_all_white l Hl). cbn [trimEnd is_empty negb].
  exact (IH Hls).
Qed.

(** X22: the result of [formatUrl] always starts with [http://] or
    [https://], and a line that already does is returned as it is. *)
Theorem formatUrl_has_scheme url :
  (startsWith (formatUrl url) "http://" = true \/
   startsWith (formatUrl url) "https://" = true) /\
  (startsWith url "http://" = true \/ startsWith url "https://" = true ->
   formatUrl url = url).
Proof.
  unfold formatUrl.
  destruct (startsWith url "http://") eqn:A, (startsWith url "https://") eqn:B;
    cbn [negb andb]; rewrite ?A, ?B; (split; [auto|]); try (intros _; reflexivity).
  - left. apply (startsWith_append "http://" url).
  - intros [H|H]; discriminate H.
Qed.

Lemma follows_flag_cons flag v a argv :
  follows_flag flag v argv -> follows_flag flag v (a :: argv).
Proof. intros [b [c ->]]. exists (a :: b), c. reflexivity. Qed.

Lemma parseArgs_from_values n : forall argv args,
  (List.length argv <= n)%nat ->
  (forall v, urls (parseArgs_from argv args) = Some v ->
     urls args = Some v \/ (is_empty v = false /\ follows_flag "--urls" v argv)) /\
  (forall v, scoresfile (parseArgs_from argv args) = Some v ->
     scoresfile args = Some v \/ (is_empty v = false /\ follows_flag "--scoresfile" v argv)).
Proof.
  induction n as [|n IH]; intros argv args L.
  - destruct argv; [|cbn in L; lia]. cbn. split; intros v H; left; exact H.
  - destruct argv as [|a [|v0 rest]]; cbn [parseArgs_from].
    + split; intros v H; left; exact H.
    + split; intros v H; left; exact H.
    + cbn [List.length] in L.
      destruct (String.eqb a "--urls" && negb (is_empty v0)) eqn:E1.
      * apply andb_true_iff in E1. destruct E1 as [Ea Ev].
        apply String.eqb_eq in Ea. apply negb_true_iff in Ev. subst a.
        destruct (IH rest {| urls := Some v0; scoresfile := scoresfile args |} ltac:(lia))
          as [U S].
        split; intros v H.
        -- destruct (U v H) as [X|[X Y]].
           ++ cbn in X. injection X as <-. right. split; [exact Ev|].
              exists [], rest. reflexivity.
           ++ right. split; [exact X|]. do 2 apply follows_flag_cons. exact Y.
        -- destruct (S v H) as [X|[X Y]]; [left; exact X|].
           right. split; [exact X|]. do 2 apply follows_flag_cons. exact Y.
      * destruct (String.eqb a "--scoresfile" && negb (is_empty v0)) eqn:E2.
        -- apply andb_true_iff in E2. destruct E2 as [Ea Ev].
           apply String.eqb_eq in Ea. apply negb_true_iff in Ev. subst a.
           destruct (IH rest {| urls := urls args; scoresfile := Some v0 |} ltac:(lia))
             as [U S].
           split; intros v H.
           ++ destruct (U v H) as [X|[X Y]]; [left; exact X|].
              right. split; [exact X|]. do 2 apply follows_flag_cons. exact Y.
           ++ destruct (S v H) as [X|[X Y]].
              ** cbn in X. injection X as <-. right. split; [exact Ev|].
                 exists [], rest. reflexivity.
              ** right. split; [exact X|]. do 2 apply follows_flag_cons. exact Y.
        -- destruct (IH (v0 :: rest) args ltac:(cbn [List.length]; lia)) as [U S].
           split; intros v H.
           ++ destruct (U v H) as [X|[X Y]]; [left; exact X|].
              right. split; [exact X|]. apply follows_flag_cons. exact Y.
           ++ destruct (S v H) as [X|[X Y]]; [left; exact X|].
              right. split; [exact X|]. apply follows_flag_cons. exact Y.
Qed.

(** X23: a value that [parseArgs] returns for a flag is not empty and is the
    argument right after an occurrence of that flag. *)
Theorem parseArgs_values argv :
  (forall v, urls (parseArgs argv) = Some v ->
     is_empty v = false /\ follows_flag "--urls" v argv) /\
  (forall v, scoresfile (parseArgs argv) = Some v ->
     is_empty v = false /\ follows_flag "--scoresfile" v argv).
Proof.
  destruct (parseArgs_from_values (List.length argv) argv
              {| urls := None; scoresfile := None |} (le_n _)) as [U S].
  split; intros v H.
  - destruct (U v H) as [X|X]; [discriminate X | exact X].
  - destruct (S v H) as [X|X]; [discriminate X | exact X].
Qed.

(** X24: the two flags are accepted in either order, and an argument in flag
    position that is neither flag is skipped. *)
Theorem parseArgs_flags_any_order :
  (forall u o, is_empty u = false -> is_empty o = false ->
     parseArgs ["--urls"; u; "--scoresfile"; o] = {| urls := Some u; scoresfile := Some o |} /\
     parseArgs ["--scoresfile"; o; "--urls"; u] = {| urls := Some u; scoresfile := Some o |}) /\
  (forall a argv, a <> "--urls" -> a <> "--scoresfile" ->
     parseArgs (a :: argv) = parseArgs argv).
Proof.
  split.
  - intros u o Hu Ho. unfold parseArgs. cbn. rewrite Hu, Ho. cbn.
    destruct o; [discriminate Ho|]. destruct u; [discriminate Hu|]. split; reflexivity.
  - intros a argv H1 H2. unfold parseArgs.
    destruct argv as [|v rest]; [reflexivity|]. cbn [parseArgs_from].
    apply String.eqb_neq in H1, H2. rewrite H1, H2. reflexivity.
Qed.

Lemma lookup_In {V : Type} k (v : V) o : lookup k o = Some v -> In (k, v) o.
Proof.
  induction o as [|[k' v'] o IH]; cbn; [discriminate|].
  destruct (String.eqb k k') eqn:E.
  - apply String.eqb_eq in E. intros H. injection H as ->. subst. left. reflexivity.
  - intros H. right. exact (IH H).
Qed.

(** X25: every code of the country table is made of three capital letters
    and belongs to one country name only. *)
Theorem countryNameToCode_codes name code :
  lookup name countryNameToCode = Some code ->
  is_alpha3 code = true /\
  forall name', lookup name' countryNameToCode = Some code -> name' = name.
Proof.
  intros H. apply lookup_In in H.
  assert (T : table_consistent countryNameToCode = true) by (vm_compute; reflexivity).
  unfold table_consistent in T. rewrite forallb_forall in T.
  specialize (T _ H). cbn [fst snd] in T. apply andb_true_iff in T. destruct T as [A F].
  split; [exact A|]. intros name' H'. apply lookup_In in H'.
  rewrite forallb_forall in F. specialize (F _ H'). cbn [fst snd] in F.
  rewrite String.eqb_refl in F. cbn in F. apply String.eqb_eq in F. symmetry. exact F.
Qed.

(** X20: an input file with nothing but white space gives no domain: nothing
    is written and the stream is ended. *)
Theorem blank_file_writes_nothing {World Browser : Type} (C : Collaborators World Browser)
    filePath outputFilePath (s : State World) failure w0 data w :
  createWriteStream C outputFilePath (world s) = (failure, w0) ->
  readFileSync C filePath w0 = (inr data, w) ->
  all_white data = true ->
  processSubdomains C filePath outputFilePath s
  = (inr tt, {| world := w; console := console s; written := written s; ended := true;
                stream_error := option_map External failure |}).
Proof.
  intros O R E. rewrite (processSubdomains_run C _ _ _ _ _ _ _ O R). cbv zeta.
  rewrite (blank_data_has_no_subdomains data E). reflexivity.
Qed.

(** ** The further properties on examples *)

(** X1 at emissions of half a gram. *)
Lemma co2Score_saturates_witness :
  fle (Fin 0) (Fin (1 # 2)) = true /\ fle (Fin (1 # 2)) CO2_GOAL = true /\
  co2Score (Fin (1 # 2)) = Fin 40.
Proof.
  assert (H : fle (Fin (1 # 2)) CO2_GOAL = true) by (vm_compute; reflexivity).
  split; [reflexivity|]. split; [exact H|].
  exact (co2Score_saturates (Fin (1 # 2)) eq_refl H).
Defined.

(** X2 at load times of 5 and 4 seconds. *)
Lemma page_load_score_antitone_witness :
  fle (Fin 4) (Fin 5) = true /\
  fle (weightedPageLoadTimeScore (scores_of (Fin 0) (Fin 0) (Fin 5)))
      (weightedPageLoadTimeScore (scores_of (Fin 0) (Fin 0) (Fin 4))) = true.
Proof.
  split; [reflexivity|].
  exact (page_load_score_antitone (scores_of (Fin 0) (Fin 0) (Fin 5))
           (scores_of (Fin 0) (Fin 0) (Fin 4)) eq_refl eq_refl).
Defined.

(** X3 on measurements without a load time. *)
Lemma nan_load_time_is_best_case_witness :
  pageLoadTimeScore (scores_of (Fin 50) (Fin 50) NaN) = Fin 100 /\
  weightedPageLoadTimeScore (scores_of (Fin 50) (Fin 50) NaN) = Fin 20.
Proof. exact (nan_load_time_is_best_case (scores_of (Fin 50) (Fin 50) NaN) eq_refl). Defined.

(** X4 on two audits, the second better in every signal. *)
Lemma eco_score_monotone_witness :
  valid_measurements (scores_of (Fin 50) (Fin 90) (Fin 4)) /\
  valid_measurements (scores_of (Fin 80) (Fin 70) (Fin 2)) /\
  fle (Math_min (ecoScore (scores_of (Fin 50) (Fin 90) (Fin 4)) (Fin 2)) (lit 100))
      (Math_min (ecoScore (scores_of (Fin 80) (Fin 70) (Fin 2)) (Fin 1)) (lit 100)) = true.
Proof.
  assert (V1 : valid_measurements (scores_of (Fin 50) (Fin 90) (Fin 4)))
    by (repeat split; right; reflexivity).
  assert (V2 : valid_measurements (scores_of (Fin 80) (Fin 70) (Fin 2)))
    by (repeat split; right; reflexivity).
  split; [exact V1|]. split; [exact V2|].
  exact (eco_score_monotone _ _ (Fin 2) (Fin 1) V1 V2 eq_refl (or_intror eq_refl)
           eq_refl eq_refl).
Defined.

(** X5 on the best audit the data model allows. *)
Lemma eco_score_ceiling_witness :
  valid_measurements (scores_of (Fin 100) (Fin 100) (Fin 1)) /\
  fle (Fin (1 # 2)) CO2_GOAL = true /\
  Math_min (ecoScore (scores_of (Fin 100) (Fin 100) (Fin 1)) (Fin (1 # 2))) (lit 100)
  = Fin 80.
Proof.
  assert (V : valid_measurements (scores_of (Fin 100) (Fin 100) (Fin 1)))
    by (repeat split; right; reflexivity).
  assert (G : fle (Fin (1 # 2)) CO2_GOAL = true) by (vm_compute; reflexivity).
  assert (T : fle (Fin 1) PAGE_LOAD_TIME_GOAL_SECONDS = true) by (vm_compute; reflexivity).
  split; [exact V|]. split; [exact G|].
  exact (proj2 (eco_score_ceiling (scores_of (Fin 100) (Fin 100) (Fin 1)) (Fin (1 # 2))
                  V eq_refl) eq_refl (or_intror T) G).
Defined.

(** X6 on an audit without a performance score. *)
Lemma nan_measurement_gives_nan_score_witness :
  Math_min (ecoScore (scores_of NaN (Fin 50) (Fin 1)) (Fin 1)) (lit 100) = NaN.
Proof.
  exact (nan_measurement_gives_nan_score (scores_of NaN (Fin 50) (Fin 1)) (Fin 1)
           (or_introl eq_refl)).
Defined.

(** X7 on the requests of the example audit. *)
Lemma breakdown_keys_witness :
  In "Image"
     (map fst (transferSizeBreakdown (getLighthouseScores (demo_lhr (Fin 1) (Fin 0))))).
Proof.
  apply (proj2 (proj2 (breakdown_keys (demo_lhr (Fin 1) (Fin 0))) "Image"%string)).
  cbn. right. left. reflexivity.
Defined.

(** X8 on a script without a size followed by a script of 2048 bytes. *)
Lemma nan_size_is_forgotten_witness :
  lookup "Script"
    (reduce_request
       (reduce_request [] {| resourceType := "Script"; transferSize_of := NaN |})
       {| resourceType := "Script"; transferSize_of := Fin 2048 |})
  = Some (Fin 2).
Proof.
  refine (eq_trans (nan_size_is_forgotten []
                      {| resourceType := "Script"; transferSize_of := NaN |}
                      {| resourceType := "Script"; transferSize_of := Fin 2048 |}
                      eq_refl eq_refl) _).
  vm_compute. reflexivity.
Defined.

(** X9, X10 and X11 on the example audit: 768 bytes of scripts, 256 bytes of
    images, a page of 1024 bytes. *)
Lemma breakdown_exact_totals_witness :
  network_requests (demo_lhr (Fin 1) (Fin 0)) = map request_of demo_sizes /\
  (total_bytes demo_sizes <= 2 ^ 53)%Z /\
  lookup "Script" (transferSizeBreakdown (getLighthouseScores (demo_lhr (Fin 1) (Fin 0))))
  = Some (kilobytes 768).
Proof.
  assert (B : (total_bytes demo_sizes <= 2 ^ 53)%Z) by (vm_compute; discriminate).
  split; [reflexivity|]. split; [exact B|].
  exact (breakdown_exact_totals (demo_lhr (Fin 1) (Fin 0)) demo_sizes eq_refl B
           "Script"%string).
Defined.

Lemma page_weight_exact_witness :
  transferSize (getLighthouseScores (demo_lhr (Fin 1) (Fin 1024))) = kilobytes 1024.
Proof.
  apply (page_weight_exact (demo_lhr (Fin 1) (Fin 1024)) 1024 eq_refl).
  split; [discriminate | vm_compute; discriminate].
Defined.

Lemma estimator_bytes_exact_witness :
  fmul (transferSize (getLighthouseScores (demo_lhr (Fin 1) (Fin 1024)))) (lit 1000)
  = Fin (Qred (inject_Z 1024 * (1000 # 1024))).
Proof.
  apply (estimator_bytes_exact (demo_lhr (Fin 1) (Fin 1024)) 1024 eq_refl).
  split; [discriminate | vm_compute; discriminate].
Defined.

(** X12 with the directory down and with the directory up. *)
Lemma checkGreenHosting_fail_open_witness :
  checkGreenHosting env_hosting_down "a.example" start
    = (inr false,
       logged start ["hosting"] "Error checking green hosting for a.example:"
              "Error: directory unreachable") /\
  checkGreenHosting env_ok "a.example" start = (inr true, with_world start ["hosting"]).
Proof.
  split.
  - exact (proj1 (checkGreenHosting_fail_open env_hosting_down "a.example" start)
             _ _ eq_refl).
  - exact (proj2 (checkGreenHosting_fail_open env_ok "a.example" start) _ _ eq_refl).
Defined.

(** X13 with DNS down (no query is sent), with no address and the
    geolocation service down, and with both up. *)
Lemma getServerLocation_outcomes_witness :
  getServerLocation env_dns_down "a.example" start
    = (inr None,
       logged start ["dns"] "Error fetching server location for a.example:"
              "Error: queryA ENOTFOUND a.example") /\
  getServerLocation env_geo_down "a.example" start
    = (inr None,
       logged start ["dns"; "get https://freegeoip.app/json/undefined"]
              "Error fetching server location for a.example:"
              "Error: Request failed with status code 503") /\
  getServerLocation env_ok "a.example" start
    = (inr (Some {| country := "Atlantis"; region := "Ocean"; city := "Poseidonis" |}),
       with_world start ["dns"; "get https://freegeoip.app/json/192.0.2.1"]).
Proof.
  split; [|split].
  - exact (proj1 (getServerLocation_outcomes env_dns_down "a.example" start) _ _ eq_refl).
  - exact (proj1 (proj2 (getServerLocation_outcomes env_geo_down "a.example" start))
             _ _ _ _ eq_refl eq_refl).
  - exact (proj2 (proj2 (getServerLocation_outcomes env_ok "a.example" start))
             _ _ _ _ eq_refl eq_refl).
Defined.

(** X14 with a failing audit (the browser is not closed), with everything
    working, and with a browser that fails to close. *)
Lemma runLighthouse_outcomes_witness :
  runLighthouse env_audit_fails "http://a.example" start
    = (inl (External "Error: navigation failed"),
       with_world start ["import"; "launch"; "lighthouse"]) /\
  runLighthouse env_ok "http://a.example" start
    = (audit_ok_result, with_world start ["import"; "launch"; "lighthouse"; "close"]) /\
  runLighthouse env_close_fails "http://a.example" start
    = (inl (External "Error: browser has gone"),
       with_world start ["import"; "launch"; "lighthouse"; "close"]).
Proof.
  split; [|split].
  - exact (proj1 (runLighthouse_outcomes env_audit_fails "http://a.example" start
                    _ tt _ eq_refl eq_refl) _ _ eq_refl).
  - exact (proj1 (proj2 (runLighthouse_outcomes env_ok "http://a.example" start
                           _ tt _ eq_refl eq_refl)) _ _ _ eq_refl eq_refl).
  - exact (proj2 (proj2 (runLighthouse_outcomes env_close_fails "http://a.example" start
                           _ tt _ eq_refl eq_refl)) _ _ _ _ eq_refl eq_refl).
Defined.

(** X15 on a site located in a country the table has no code for. *)
Lemma getEcoScore_report_witness :
  lookup "Atlantis" countryNameToCode = None /\
  getEcoScore env_ok "http://a.example" start
  = (inr {| Eco_Score := Fin 70;
            Page_Weight := Fin 1;
            Weight_Breakdown := [("Script", Fin (3 # 4)); ("Image", Fin (1 # 4))];
            Emissions_per_page := Fin (1 # 4);
            Server_Location := "Atlantis";
            Green_Hosting := true |},
     with_world start
       ["import"; "launch"; "lighthouse"; "close"; "dns";
        "get https://freegeoip.app/json/192.0.2.1"; "hosting"]).
Proof.
  split; [vm_compute; reflexivity|].
  refine (eq_trans
            (getEcoScore_report env_ok "http://a.example" start
               (demo_lhr (Fin (1 # 2)) (Fin 1024))
               (with_world start ["import"; "launch"; "lighthouse"; "close"])
               "a.example"
               {| country := "Atlantis"; region := "Ocean"; city := "Poseidonis" |}
               (with_world start
                  ["import"; "launch"; "lighthouse"; "close"; "dns";
                   "get https://freegeoip.app/json/192.0.2.1"])
               true
               (with_world start
                  ["import"; "launch"; "lighthouse"; "close"; "dns";
                   "get https://freegeoip.app/json/192.0.2.1"; "hosting"])
               {| co2 := Fin (1 # 4) |}
               eq_refl eq_refl eq_refl eq_refl eq_refl) _).
  vm_compute. reflexivity.
Defined.

(** X16 with a failing audit, with a URL that does not parse, and with a
    failing estimator. *)
Lemma getEcoScore_short_circuits_witness :
  getEcoScore env_audit_fails "http://a.example" start
    = (inl (External "Error: navigation failed"),
       with_world start ["import"; "launch"; "lighthouse"]) /\
  getEcoScore env_ok EmptyString start
    = (inl (External "TypeError: Invalid URL"),
       with_world start ["import"; "launch"; "lighthouse"; "close"]) /\
  getEcoScore env_estimator_fails "http://a.example" start
    = (inl (External "TypeError: co2Emission.perByteTrace is not a function"),
       with_world start
         ["import"; "launch"; "lighthouse"; "close"; "dns";
          "get https://freegeoip.app/json/192.0.2.1"; "hosting"]).
Proof.
  split; [|split].
  - exact (proj1 (getEcoScore_short_circuits env_audit_fails "http://a.example" start)
             _ _ eq_refl).
  - exact (proj1 (proj2 (getEcoScore_short_circuits env_ok EmptyString start))
             (demo_lhr (Fin (1 # 2)) (Fin 1024)) _ _ eq_refl eq_refl).
  - exact (proj2 (proj2 (getEcoScore_short_circuits env_estimator_fails
                           "http://a.example" start))
             (demo_lhr (Fin (1 # 2)) (Fin 1024))
             (with_world start ["import"; "launch"; "lighthouse"; "close"])
             "a.example"
             {| country := "Atlantis"; region := "Ocean"; city := "Poseidonis" |}
             (with_world start
                ["import"; "launch"; "lighthouse"; "close"; "dns";
                 "get https://freegeoip.app/json/192.0.2.1"])
             true _ _ eq_refl eq_refl eq_refl eq_refl eq_refl).
Defined.


(** X20 on a file of a byte-order mark, a space, a no-break space and two
    line feeds. *)
Lemma blank_file_writes_nothing_witness :
  all_white (BOM ++ " " ++ LF ++ NBSP ++ LF) = true /\
  processSubdomains env_ok "domains.txt" "scores.txt" start
  = (inr tt, {| world := ["open"; "read"]; console := []; written := []; ended := true;
                stream_error := None |}).
Proof.
  split; [reflexivity|].
  exact (blank_file_writes_nothing env_ok "domains.txt" "scores.txt" start
           None ["open"] (BOM ++ " " ++ LF ++ NBSP ++ LF) ["open"; "read"]
           eq_refl eq_refl eq_refl).
Defined.

(** X21 on a file that starts with a byte-order mark and whose second line is
    wrapped in no-break spaces. *)
Lemma subdomains_clean_witness :
  subdomains_of (BOM ++ "a.example" ++ LF ++ NBSP ++ " bad.example " ++ NBSP ++ LF)
  = ["a.example"; "bad.example"] /\
  In "bad.example"
     (subdomains_of (BOM ++ "a.example" ++ LF ++ NBSP ++ " bad.example " ++ NBSP ++ LF)) /\
  is_empty "bad.example" = false /\ starts_clean "bad.example" = true /\
  ends_clean "bad.example" = true /\ trim "bad.example" = "bad.example".
Proof.
  assert (D : subdomains_of
                (BOM ++ "a.example" ++ LF ++ NBSP ++ " bad.example " ++ NBSP ++ LF)
              = ["a.example"; "bad.example"]) by (vm_compute; reflexivity).
  assert (I : In "bad.example"
                 (subdomains_of
                    (BOM ++ "a.example" ++ LF ++ NBSP ++ " bad.example " ++ NBSP ++ LF)))
    by (rewrite D; right; left; reflexivity).
  split; [exact D|]. split; [exact I|].
  destruct (subdomains_clean _ _ I) as [E [S [F [_ T]]]].
  repeat split; assumption.
Defined.

(** X22 on a line that has its scheme. *)
Lemma formatUrl_has_scheme_witness :
  startsWith "https://example.com" "https://" = true /\
  formatUrl "https://example.com" = "https://example.com".
Proof.
  split; [reflexivity|].
  exact (proj2 (formatUrl_has_scheme "https://example.com") (or_intror eq_refl)).
Defined.

(** X23 on the usual command line. *)
Lemma parseArgs_values_witness :
  urls (parseArgs (demo_argv "domains.txt")) = Some "domains.txt" /\
  follows_flag "--urls" "domains.txt" (demo_argv "domains.txt").
Proof.
  split; [reflexivity|].
  exact (proj2 (proj1 (parseArgs_values (demo_argv "domains.txt")) "domains.txt" eq_refl)).
Defined.

(** X24 with the flags swapped and with an unknown argument in front. *)
Lemma parseArgs_flags_any_order_witness :
  parseArgs ["--scoresfile"; "scores.txt"; "--urls"; "domains.txt"]
    = {| urls := Some "domains.txt"; scoresfile := Some "scores.txt" |} /\
  parseArgs ["--verbose"; "--urls"; "domains.txt"] = parseArgs ["--urls"; "domains.txt"].
Proof.
  split.
  - exact (proj2 (proj1 parseArgs_flags_any_order "domains.txt" "scores.txt"
                    eq_refl eq_refl)).
  - apply (proj2 parseArgs_flags_any_order); discriminate.
Defined.

(** X25 on Portugal. *)
Lemma countryNameToCode_codes_witness :
  lookup "Portugal" countryNameToCode = Some "PRT" /\ is_alpha3 "PRT" = true.
Proof.
  assert (H : lookup "Portugal" countryNameToCode = Some "PRT") by (vm_compute; reflexivity).
  split; [exact H|].
  exact (proj1 (countryNameToCode_codes "Portugal" "PRT" H)).
Defined.

(** X26: a failure of the green-hosting lookup does not fail the domain: the
    report is produced as for a host that is not green, and the failure is
    on the console. *)
Theorem hosting_failure_reports_not_green {World Browser : Type}
    (C : Collaborators World Browser) url (s : State World) lhr s1 h l s2 t w trace :
  runLighthouse C url s = (inr lhr, s1) ->
  URL_hostname C url = inr h ->
  getServerLocation C h s1 = (inr (Some l), s2) ->
  hosting_check C h (world s2) = (inl t, w) ->
  perByteTrace C (fmul (transferSize (getLighthouseScores lhr)) (lit 1000)) false None
    = inr trace ->
  exists report,
    getEcoScore C url s
    = (inr report, logged s2 w ("Error checking green hosting for " ++ h ++ ":") t) /\
    Green_Hosting report = false /\
    Emissions_per_page report = co2 trace /\
    Server_Location report = country l.
Proof.
  intros HL HU HS HH HP.
  assert (HG : checkGreenHosting C h s2
               = (inr false,
                  logged s2 w ("Error checking green hosting for " ++ h ++ ":") t)).
  { unfold checkGreenHosting, try_catch, call, bind, console_error, ret.
    rewrite HH. reflexivity. }
  rewrite (getEcoScore_run C url s lhr s1 h (Some l) s2 false _ HL HU HS HG), HP.
  eexists. split; [reflexivity|]. repeat split.
Qed.

(** X26 with the directory down. *)
Lemma hosting_failure_reports_not_green_witness :
  exists report,
    getEcoScore env_hosting_down "http://a.example" start
    = (inr report,
       logged (with_world start
                 ["import"; "launch"; "lighthouse"; "close"; "dns";
                  "get https://freegeoip.app/json/192.0.2.1"])
              ["import"; "launch"; "lighthouse"; "close"; "dns";
               "get https://freegeoip.app/json/192.0.2.1"; "hosting"]
              "Error checking green hosting for a.example:"
              "Error: directory unreachable") /\
    Green_Hosting report = false /\
    Emissions_per_page report = Fin (1 # 4) /\
    Server_Location report = "Atlantis".
Proof.
  exact (hosting_failure_reports_not_green env_hosting_down "http://a.example" start
           (demo_lhr (Fin (1 # 2)) (Fin 1024))
           (with_world start ["import"; "launch"; "lighthouse"; "close"])
           "a.example"
           {| country := "Atlantis"; region := "Ocean"; city := "Poseidonis" |}
           _ _ _ {| co2 := Fin (1 # 4) |}
           eq_refl eq_refl eq_refl eq_refl eq_refl).
Defined.
